(** * text-db-query-ai: the query validation and sanitisation pipeline

    A shallow embedding of
      - [src/security/sanitizer.ts]   (class QuerySanitizer),
      - [src/security/validator.ts]   (class SecurityValidator),
      - [src/schema]                  (class SchemaAnalyzer: the lookups),
      - [src/generator/query-generator.ts] (class QueryGenerator: the
        pipeline of generateQuery from the provider's answer on),
    followed by the theorems about them.

    Text is modelled as [String.string].  On ASCII text the primitives of
    module [JS] are the ECMAScript ones; characters above 127 are kept but
    are caseless and are not white space.  Numbers are modelled as integers
    ([Z]) and printed in decimal, which is what ECMAScript does for the
    integers up to 2^53. *)

From Stdlib Require Import String Ascii List ZArith NArith Lia Bool.
From Stdlib Require Import DecimalString DecimalPos DecimalN.
Import ListNotations.

Open Scope string_scope.
Open Scope bool_scope.

(* ================================================================= *)
(** ** ECMAScript string primitives used by the source *)

Module JS.

Definition code (c : ascii) : N := N_of_ascii c.

Definition inRange (lo hi : N) (c : ascii) : bool :=
  (lo <=? code c)%N && (code c <=? hi)%N.

(** White space and line terminators: what [trim] strips and [\s] matches
    (TAB, LF, VT, FF, CR, SPACE). *)
Definition isWhiteSpace (c : ascii) : bool :=
  inRange 9 13 c || (code c =? 32)%N.

(** Line terminators: what [.] in a regular expression does not match. *)
Definition isLineTerminator (c : ascii) : bool :=
  (code c =? 10)%N || (code c =? 13)%N.

(** [\d] *)
Definition isDigit (c : ascii) : bool := inRange 48 57 c.

Definition isLower (c : ascii) : bool := inRange 97 122 c.
Definition isUpper (c : ascii) : bool := inRange 65 90 c.

Definition upperChar (c : ascii) : ascii :=
  if isLower c then ascii_of_N (code c - 32) else c.

Definition lowerChar (c : ascii) : ascii :=
  if isUpper c then ascii_of_N (code c + 32) else c.

Fixpoint mapString (f : ascii -> ascii) (s : string) : string :=
  match s with
  | EmptyString => EmptyString
  | String c s' => String (f c) (mapString f s')
  end.

(** [s.toUpperCase()], [s.toLowerCase()] *)
Definition toUpperCase (s : string) : string := mapString upperChar s.
Definition toLowerCase (s : string) : string := mapString lowerChar s.

Fixpoint trimStart (s : string) : string :=
  match s with
  | EmptyString => EmptyString
  | String c s' => if isWhiteSpace c then trimStart s' else s
  end.

Fixpoint trimEnd (s : string) : string :=
  match s with
  | EmptyString => EmptyString
  | String c s' =>
      match trimEnd s' with
      | EmptyString => if isWhiteSpace c then EmptyString
                       else String c EmptyString
      | r => String c r
      end
  end.

(** [s.trim()] *)
Definition trim (s : string) : string := trimEnd (trimStart s).

(** [s.startsWith(p)] *)
Fixpoint startsWith (s p : string) {struct p} : bool :=
  match p with
  | EmptyString => true
  | String a p' =>
      match s with
      | EmptyString => false
      | String b s' => Ascii.eqb a b && startsWith s' p'
      end
  end.

(** [s.includes(p)] *)
Fixpoint includes (s p : string) : bool :=
  startsWith s p
  || match s with
     | EmptyString => false
     | String _ s' => includes s' p
     end.

(** [s.endsWith(p)] *)
Fixpoint endsWith (s p : string) : bool :=
  String.eqb s p
  || match s with
     | EmptyString => false
     | String _ s' => endsWith s' p
     end.

(** [xs.join(sep)] *)
Fixpoint join (sep : string) (xs : list string) : string :=
  match xs with
  | [] => EmptyString
  | [x] => x
  | x :: rest => x ++ sep ++ join sep rest
  end.

(** Number of occurrences of the character [c]: the length of
    [s.match(/c/g) || []] for a one-character pattern. *)
Fixpoint countChar (c : ascii) (s : string) : nat :=
  match s with
  | EmptyString => 0
  | String d s' => (if Ascii.eqb c d then 1 else 0) + countChar c s'
  end.

(** [Number.MAX_SAFE_INTEGER]: up to it every integer is a number of its
    own, which [parseInt] returns and the number-to-string conversion
    prints exactly. *)
Definition MAX_SAFE_INTEGER : Z := 9007199254740991.

(** [Number.isSafeInteger(n)].  The numbers of the source (a row limit,
    a numeric user id, the number of a limit clause) are modelled by
    the integers; the model is the source's arithmetic on the safe
    integers.  Outside them (beyond 2^53, fractions, the infinities,
    NaN) ECMAScript rounds, prints in exponent notation or prints a
    word; a theorem that depends on what a number is or on how it is
    printed carries this bound. *)
Definition isSafeInteger (n : Z) : bool :=
  (- MAX_SAFE_INTEGER <=? n)%Z && (n <=? MAX_SAFE_INTEGER)%Z.

(** Decimal rendering of an integer: [String(n)], [`${n}`] for a safe
    integer [n] (ECMAScript prints the integers below 10^21 this
    way). *)
Definition Number_toString (n : Z) : string :=
  NilEmpty.string_of_int (Z.to_int n).

(** [parseInt(ds, 10)] on a run of decimal digits: the integer that the
    digits write.  ECMAScript returns the nearest number, which is
    that integer up to 2^53. *)
Fixpoint parseDigits (acc : Z) (ds : string) : Z :=
  match ds with
  | EmptyString => acc
  | String c ds' =>
      if isDigit c then parseDigits (10 * acc + Z.of_N (code c - 48)) ds'
      else acc
  end.

Definition parseInt (ds : string) : Z := parseDigits 0 ds.

(** [s.split(sep)] for a one-character separator. *)
Fixpoint split (sep : ascii) (s : string) : list string :=
  match s with
  | EmptyString => [EmptyString]
  | String c s' =>
      if Ascii.eqb c sep then EmptyString :: split sep s'
      else
        match split sep s' with
        | piece :: pieces => String c piece :: pieces
        | [] => [String c EmptyString]
        end
  end.

End JS.

(* ================================================================= *)
(** ** The regular expressions of the source

    The source uses a dozen fixed regular expressions.  Each is embedded as
    an anchored matcher (does the pattern match starting exactly here, and
    with which text and capture) composed from the combinators below;
    [search] then gives the leftmost match as the ECMAScript matcher does,
    by trying the start positions from left to right. *)

Module RegExp.

Record MatchResult := mkMatch {
  matched : string;          (* m[0] *)
  group1 : string;           (* m[1]; empty when the pattern has no group *)
  rest : string              (* the input after the match *)
}.

(** Character comparison; under the [i] flag both sides are canonicalised
    (upper-cased). *)
Definition charMatches (ignoreCase : bool) (a b : ascii) : bool :=
  if ignoreCase then Ascii.eqb (JS.upperChar a) (JS.upperChar b)
  else Ascii.eqb a b.

(** A literal pattern at the start of [s]: the text it matched and the
    remaining input. *)
Fixpoint lit (ignoreCase : bool) (p s : string) {struct p}
  : option (string * string) :=
  match p with
  | EmptyString => Some (EmptyString, s)
  | String a p' =>
      match s with
      | EmptyString => None
      | String b s' =>
          if charMatches ignoreCase a b then
            match lit ignoreCase p' s' with
            | Some (m, r) => Some (String b m, r)
            | None => None
            end
          else None
      end
  end.

(** A greedy repetition [cls*] of a character class: the longest run and
    the remaining input. *)
Fixpoint span (cls : ascii -> bool) (s : string) : string * string :=
  match s with
  | EmptyString => (EmptyString, EmptyString)
  | String c s' =>
      if cls c then let (run, r) := span cls s' in (String c run, r)
      else (EmptyString, s)
  end.

Definition nonEmpty (s : string) : bool :=
  match s with EmptyString => false | _ => true end.

(** Leftmost match: the text before it and the anchored result. *)
Fixpoint search {A : Type} (m : string -> option A) (s : string)
  : option (string * A) :=
  match m s with
  | Some r => Some (EmptyString, r)
  | None =>
      match s with
      | EmptyString => None
      | String c s' =>
          match search m s' with
          | Some (before, r) => Some (String c before, r)
          | None => None
          end
      end
  end.

Definition isSome {A : Type} (o : option A) : bool :=
  match o with Some _ => true | None => false end.

(** [re.test(s)] *)
Definition test {A : Type} (m : string -> option A) (s : string) : bool :=
  isSome (search m s).

(** GetSubstitution for a pattern without capture groups: [$$], [$&],
    [$`] and [$'] are expanded, every other [$] stands for itself. *)
Fixpoint GetSubstitution (matchedText before after replacement : string)
  : string :=
  match replacement with
  | EmptyString => EmptyString
  | String a t =>
      if Ascii.eqb a "$" then
        match t with
        | String c r =>
            if Ascii.eqb c "$" then
              String "$" (GetSubstitution matchedText before after r)
            else if Ascii.eqb c "&" then
              matchedText ++ GetSubstitution matchedText before after r
            else if Ascii.eqb c "`" then
              before ++ GetSubstitution matchedText before after r
            else if Ascii.eqb c "'" then
              after ++ GetSubstitution matchedText before after r
            else String a (GetSubstitution matchedText before after t)
        | EmptyString => String a EmptyString
        end
      else String a (GetSubstitution matchedText before after t)
  end.

(** [s.replace(re, replacement)] for a pattern without the [g] flag: the
    leftmost match is replaced, the input is returned when there is none. *)
Definition replace (m : string -> option MatchResult)
           (replacement s : string) : string :=
  match search m s with
  | None => s
  | Some (before, r) =>
      before
      ++ GetSubstitution (matched r) before (rest r) replacement
      ++ rest r
  end.

(** [s.match(re)] for a pattern with the [g] flag: the texts of the
    successive matches, each search resuming where the previous match
    ended.  Every pattern used this way matches at least one character,
    so [length s] rounds are enough. *)
Fixpoint matchAllFuel (fuel : nat) (m : string -> option MatchResult)
         (s : string) : list string :=
  match fuel with
  | O => []
  | S fuel' =>
      match search m s with
      | None => []
      | Some (_, r) => matched r :: matchAllFuel fuel' m (rest r)
      end
  end.

Definition matchAll (m : string -> option MatchResult) (s : string)
  : list string :=
  matchAllFuel (String.length s) m s.

(** The text up to the first line terminator: the most that [.*] can
    match. *)
Fixpoint lineOf (s : string) : string :=
  match s with
  | EmptyString => EmptyString
  | String c s' =>
      if JS.isLineTerminator c then EmptyString else String c (lineOf s')
  end.

(** *** The patterns *)

(** A literal pattern such as [/WHERE/i], [/ORDER BY/i], [/join/]. *)
Definition literal (ignoreCase : bool) (p : string) (s : string)
  : option MatchResult :=
  match lit ignoreCase p s with
  | Some (m, r) => Some (mkMatch m EmptyString r)
  | None => None
  end.

(** [/a.*b/i]: [a] here and [b] later on the same line.  Only [test] is
    applied to these patterns; the reported match is the shortest one. *)
Definition sameLine (a b : string) (s : string) : option MatchResult :=
  match lit true a s with
  | Some (ma, r) =>
      match search (literal true b) (lineOf r) with
      | Some (gap, mb) =>
          Some (mkMatch (ma ++ gap ++ matched mb) EmptyString EmptyString)
      | None => None
      end
  | None => None
  end.

(** [/a[\s\S]*b/i]: [a] here and [b] anywhere later.  Only [test] is
    applied to this pattern. *)
Definition anyGap (a b : string) (s : string) : option MatchResult :=
  match lit true a s with
  | Some (ma, r) =>
      match search (literal true b) r with
      | Some (gap, mb) =>
          Some (mkMatch (ma ++ gap ++ matched mb) EmptyString EmptyString)
      | None => None
      end
  | None => None
  end.

(** [/LIMIT\s+(\d+)/i] (and [/LIMIT\s+\d+/i]).  A digit is not white space,
    so the greedy [\s+] never has to give a character back. *)
Definition limitClause (s : string) : option MatchResult :=
  match lit true "LIMIT" s with
  | Some (kw, r1) =>
      let (ws, r2) := span JS.isWhiteSpace r1 in
      let (ds, r3) := span JS.isDigit r2 in
      if nonEmpty ws && nonEmpty ds
      then Some (mkMatch (kw ++ ws ++ ds) ds r3)
      else None
  | None => None
  end.

Definition isIdentStart (c : ascii) : bool :=
  JS.isLower c || JS.isUpper c || Ascii.eqb c "_".

Definition isIdentChar (c : ascii) : bool :=
  isIdentStart c || JS.isDigit c.

(** The keyword [kw] (from, join, into, update; [i] flag), then [\s+], then
    the captured identifier: one character of [a-z_] followed by the
    longest run of [a-z0-9_].  An identifier character is not white
    space, so the greedy [\s+] never has to give a character back. *)
Definition keywordTable (kw : string) (s : string) : option MatchResult :=
  match lit true kw s with
  | Some (k, r1) =>
      let (ws, r2) := span JS.isWhiteSpace r1 in
      match r2 with
      | String c r3 =>
          if nonEmpty ws && isIdentStart c then
            let (tl, r4) := span isIdentChar r3 in
            Some (mkMatch (k ++ ws ++ String c tl) (String c tl) r4)
          else None
      | EmptyString => None
      end
  | None => None
  end.

(** [/kw\s+/i] *)
Definition keywordSpaces (kw : string) (s : string) : option MatchResult :=
  match lit true kw s with
  | Some (k, r1) =>
      let (ws, r2) := span JS.isWhiteSpace r1 in
      if nonEmpty ws then Some (mkMatch (k ++ ws) EmptyString r2) else None
  | None => None
  end.

(** [/open([\s\S]*?)```/]: the opener here, then the shortest text up to
    a closing fence. *)
Definition fencedBlock (opener : string) (s : string) : option MatchResult :=
  match lit false opener s with
  | Some (o, r1) =>
      match search (literal false "```") r1 with
      | Some (body, close) =>
          Some (mkMatch (o ++ body ++ matched close) body (rest close))
      | None => None
      end
  | None => None
  end.

(** [s.replace(re, replacement)] for a pattern with the [g] flag and a
    replacement text without a dollar sign: every match is replaced, each
    search resuming where the previous match ended.  Every pattern used
    this way matches at least one character, so [length s] rounds are
    enough. *)
Fixpoint replaceAllFuel (fuel : nat) (m : string -> option MatchResult)
         (replacement s : string) : string :=
  match fuel with
  | O => s
  | S fuel' =>
      match search m s with
      | None => s
      | Some (before, r) =>
          before ++ replacement
          ++ replaceAllFuel fuel' m replacement (rest r)
      end
  end.

Definition replaceAll (m : string -> option MatchResult)
           (replacement s : string) : string :=
  replaceAllFuel (String.length s) m replacement s.

(** [[^\n]] *)
Definition notLineFeed (c : ascii) : bool := negb (JS.code c =? 10)%N.

(** Two dashes, then [[^\n]*]: a comment up to the end of the line. *)
Definition lineComment (s : string) : option MatchResult :=
  match lit false "--" s with
  | Some (dashes, r1) =>
      let (run, r2) := span notLineFeed r1 in
      Some (mkMatch (dashes ++ run) EmptyString r2)
  | None => None
  end.

(** The opener of a block comment, then the shortest text up to its
    closer. *)
Definition blockComment (s : string) : option MatchResult :=
  match lit false "/*" s with
  | Some (o, r1) =>
      match search (literal false "*/") r1 with
      | Some (body, close) =>
          Some (mkMatch (o ++ body ++ matched close) EmptyString
                        (rest close))
      | None => None
      end
  | None => None
  end.

Definition isSemicolon (c : ascii) : bool := Ascii.eqb c ";".

(** [;+$]: semicolons up to the end of the input. *)
Definition trailingSemicolons (s : string) : option MatchResult :=
  let (run, r) := span isSemicolon s in
  if nonEmpty run && negb (nonEmpty r)
  then Some (mkMatch run EmptyString EmptyString)
  else None.

(** [\s+] *)
Definition whiteSpaces (s : string) : option MatchResult :=
  let (run, r) := span JS.isWhiteSpace s in
  if nonEmpty run then Some (mkMatch run EmptyString r) else None.

End RegExp.

(* ================================================================= *)
(** ** src/security/sanitizer.ts *)

Module QuerySanitizer.

Definition LF : string := String (ascii_of_nat 10) EmptyString.
Definition doubleQuote : ascii := ascii_of_nat 34.

(** The pattern [```sql\n([\s\S]*?)```] *)
Definition sqlBlock : string -> option RegExp.MatchResult :=
  RegExp.fencedBlock ("```sql" ++ LF).

(** The pattern [```\n([\s\S]*?)```] *)
Definition codeBlock : string -> option RegExp.MatchResult :=
  RegExp.fencedBlock ("```" ++ LF).

Definition extractFromMarkdown (text : string) : string :=
  match RegExp.search sqlBlock text with
  | Some (_, sqlBlockMatch) => JS.trim (RegExp.group1 sqlBlockMatch)
  | None =>
      match RegExp.search codeBlock text with
      | Some (_, codeBlockMatch) => JS.trim (RegExp.group1 codeBlockMatch)
      | None => text
      end
  end.

Record SyntaxResult := mkSyntax {
  valid : bool;
  error : option string
}.

Definition validStarts : list string :=
  ["SELECT"; "INSERT"; "UPDATE"; "DELETE"; "WITH"].

(** The loop over the characters of the query: [None] is the early return
    taken as soon as the running count is negative, [Some n] the count at
    the end of the loop. *)
Fixpoint parenLoop (parenCount : Z) (chars : string) : option Z :=
  match chars with
  | EmptyString => Some parenCount
  | String char chars' =>
      let c1 := if Ascii.eqb char "(" then (parenCount + 1)%Z
                else parenCount in
      let c2 := if Ascii.eqb char ")" then (c1 - 1)%Z else c1 in
      if (c2 <? 0)%Z then None else parenLoop c2 chars'
  end.

Definition validateSQLSyntax (query : string) : SyntaxResult :=
  let trimmed := JS.toUpperCase (JS.trim query) in
  let isValidStart :=
    existsb (fun keyword => JS.startsWith trimmed keyword) validStarts in
  if negb isValidStart then
    mkSyntax false
      (Some ("Query must start with one of: " ++ JS.join ", " validStarts))
  else
    match parenLoop 0 query with
    | None => mkSyntax false (Some "Unbalanced parentheses")
    | Some parenCount =>
        if negb (parenCount =? 0)%Z then
          mkSyntax false (Some "Unbalanced parentheses")
        else
          let singleQuotes := JS.countChar "'" query in
          let doubleQuotes := JS.countChar doubleQuote query in
          if negb (Nat.eqb (Nat.modulo singleQuotes 2) 0) then
            mkSyntax false (Some "Unbalanced single quotes")
          else if negb (Nat.eqb (Nat.modulo doubleQuotes 2) 0) then
            mkSyntax false (Some "Unbalanced double quotes")
          else mkSyntax true None
    end.

(** [value.replace(/'/g, "''")] *)
Fixpoint escapeValue (value : string) : string :=
  match value with
  | EmptyString => EmptyString
  | String c value' =>
      if Ascii.eqb c "'" then String "'" (String "'" (escapeValue value'))
      else String c (escapeValue value')
  end.

(** [limit] is a number: see [JS.isSafeInteger]. *)
Definition addLimitIfMissing (query : string) (limit : Z) : string :=
  if negb (RegExp.test RegExp.limitClause query) then
    query ++ " LIMIT " ++ JS.Number_toString limit
  else query.

Definition NUL : string := String (ascii_of_nat 0) EmptyString.

Definition removeComments (query : string) : string :=
  let sanitized := RegExp.replaceAll RegExp.lineComment EmptyString query in
  RegExp.replaceAll RegExp.blockComment EmptyString sanitized.

Definition normalizeWhitespace (query : string) : string :=
  RegExp.replaceAll RegExp.whiteSpaces " "
    (JS.join " "
       (filter (fun line => (0 <? String.length line)%nat)
               (map JS.trim (JS.split (ascii_of_nat 10) query)))).

Definition sanitize (query : string) : string :=
  let sanitized := JS.trim query in
  let sanitized := removeComments sanitized in
  let sanitized :=
    RegExp.replace RegExp.trailingSemicolons EmptyString sanitized in
  let sanitized := normalizeWhitespace sanitized in
  let sanitized :=
    RegExp.replaceAll (RegExp.literal false NUL) EmptyString sanitized in
  sanitized.

End QuerySanitizer.

(* ================================================================= *)
(** ** src/types/index.ts *)

Inductive QueryOperation := SELECT | INSERT | UPDATE | DELETE.

(** [userId: string | number] *)
Inductive UserId :=
| IdString (s : string)
| IdNumber (n : Z).

Record UserContext := mkUserContext {
  userId : UserId;
  role : string;
  permissions : option (list string);
  metadata : option (list (string * string))
}.

Inductive Nullish := null | undefined.

(** What a call of the custom validator can do: return (or resolve to) a
    boolean, or throw (or reject with) a value.  The only thing the caller
    does with a thrown value is to read its [message] property: reading it
    from [null] or [undefined] is itself a TypeError, from any other value
    it yields the message or [undefined]. *)
Inductive Thrown :=
| ThrownValue (message : option string)
| ThrownNullish (value : Nullish).

(** The [message] of the TypeError that reading [message] from [null] or
    [undefined] raises (the wording is the one of V8). *)
Definition nullishMessage (value : Nullish) : string :=
  match value with
  | null => "Cannot read properties of null (reading 'message')"
  | undefined => "Cannot read properties of undefined (reading 'message')"
  end.

Inductive CustomOutcome :=
| Returns (customValid : bool)
| Throws (e : Thrown).

Definition CustomValidator : Type :=
  string -> option UserContext -> CustomOutcome.

(** A property of an object literal: left out, or written with a value
    (which, every field of SecurityConfig being optional, may be
    [undefined]: [Specified None]). *)
Inductive Supplied (T : Type) :=
| Unspecified
| Specified (v : option T).
Arguments Unspecified {T}.
Arguments Specified {T} v.

(** [interface SecurityConfig], as the caller writes it. *)
Record SecurityConfig := mkSecurityConfig {
  cfg_allowedOperations : Supplied (list QueryOperation);
  cfg_allowedTables : Supplied (list string);
  cfg_restrictedColumns : Supplied (list string);
  cfg_maxRowLimit : Supplied Z;
  cfg_requireUserContext : Supplied bool;
  cfg_enableRowLevelSecurity : Supplied bool;
  cfg_customValidator : Supplied CustomValidator
}.

(** The object literal [{}]. *)
Definition emptyConfig : SecurityConfig :=
  mkSecurityConfig Unspecified Unspecified Unspecified Unspecified
                   Unspecified Unspecified Unspecified.

(* ================================================================= *)
(** ** src/security/validator.ts *)

Module SecurityValidator.

(** [this.config]: every property is read as a value or [undefined]. *)
Record Config := mkConfig {
  allowedOperations : option (list QueryOperation);
  allowedTables : option (list string);
  restrictedColumns : option (list string);
  maxRowLimit : option Z;
  requireUserContext : option bool;
  enableRowLevelSecurity : option bool;
  customValidator : option CustomValidator
}.

(** One property of [{ ...defaults, ...config }]. *)
Definition spread {T : Type} (default : option T) (supplied : Supplied T)
  : option T :=
  match supplied with
  | Unspecified => default
  | Specified v => v
  end.

(** [constructor(config: SecurityConfig = {})] *)
Definition new (config : option SecurityConfig) : Config :=
  let config := match config with Some c => c | None => emptyConfig end in
  {| allowedOperations := spread (Some [SELECT]) (cfg_allowedOperations config);
     allowedTables := spread (Some []) (cfg_allowedTables config);
     restrictedColumns := spread (Some []) (cfg_restrictedColumns config);
     maxRowLimit := spread (Some 1000%Z) (cfg_maxRowLimit config);
     requireUserContext := spread (Some true) (cfg_requireUserContext config);
     enableRowLevelSecurity :=
       spread (Some true) (cfg_enableRowLevelSecurity config);
     customValidator := spread None (cfg_customValidator config) |}.

Definition operationName (op : QueryOperation) : string :=
  match op with
  | SELECT => "SELECT"
  | INSERT => "INSERT"
  | UPDATE => "UPDATE"
  | DELETE => "DELETE"
  end.

Definition operation_eqb (a b : QueryOperation) : bool :=
  String.eqb (operationName a) (operationName b).

(** Truthiness of an optional boolean. *)
Definition truthy (b : option bool) : bool :=
  match b with Some true => true | _ => false end.

Definition isNone {A : Type} (o : option A) : bool :=
  match o with None => true | Some _ => false end.

(** [`${n}`] for a number that may be [undefined]. *)
Definition showNumber (n : option Z) : string :=
  match n with
  | Some n => JS.Number_toString n
  | None => "undefined"
  end.

(** [`${error.message}`] *)
Definition showMessage (m : option string) : string :=
  match m with
  | Some m => m
  | None => "undefined"
  end.

Definition push {A : Type} (xs : list A) (x : A) : list A :=
  (xs ++ [x])%list.

Definition detectOperation (query : string) : option QueryOperation :=
  let normalizedQuery := JS.toUpperCase (JS.trim query) in
  if JS.startsWith normalizedQuery "SELECT" then Some SELECT
  else if JS.startsWith normalizedQuery "INSERT" then Some INSERT
  else if JS.startsWith normalizedQuery "UPDATE" then Some UPDATE
  else if JS.startsWith normalizedQuery "DELETE" then Some DELETE
  else None.

(** The entries of [commandPatterns]: a literal, or two literals joined
    by [.*]. *)
Inductive CommandPattern :=
| Word (w : string)
| Gap (a b : string).

(** The eleventh entry is the regular expression source [\/\*], which
    matches the two characters [/*]; the name pushed for it is [/*]. *)
Definition commandPatterns : list CommandPattern :=
  [ Word "EXEC"; Word "EXECUTE"; Word "xp_cmdshell"; Word "sp_executesql";
    Gap "UNION" "SELECT"; Word "--"; Word "/*"; Word "DROP";
    Word "TRUNCATE"; Word "ALTER"; Word "CREATE"; Word "GRANT";
    Word "REVOKE" ].

(** [new RegExp(pattern, 'i').test(s)] *)
Definition patternTest (p : CommandPattern) (s : string) : bool :=
  match p with
  | Word w => RegExp.test (RegExp.literal true w) s
  | Gap a b => RegExp.test (RegExp.sameLine a b) s
  end.

Definition patternName (p : CommandPattern) : string :=
  match p with
  | Word w => w
  | Gap a b => a ++ ".*" ++ b
  end.

Definition detectDangerousPatterns (query : string) : list string :=
  let normalizedQuery := JS.toUpperCase query in
  let dangerous :=
    if JS.includes query ";" && negb (JS.endsWith (JS.trim query) ";")
    then ["Multiple statements detected"] else [] in
  (dangerous
   ++ map patternName
        (filter (fun pattern => patternTest pattern normalizedQuery)
                commandPatterns))%list.

Definition findRestrictedColumns (config : Config) (query : string)
  : list string :=
  match restrictedColumns config with
  | None => []
  | Some columns =>
      let normalizedQuery := JS.toLowerCase query in
      filter (fun column =>
                JS.includes normalizedQuery (JS.toLowerCase column))
             columns
  end.

(** [[...new Set(tables)]]: first occurrences, in order. *)
Fixpoint dedupe (xs : list string) : list string :=
  match xs with
  | [] => []
  | x :: rest => x :: filter (fun y => negb (String.eqb x y)) (dedupe rest)
  end.

Definition extractTableNames (query : string) : list string :=
  let normalizedQuery := JS.toLowerCase query in
  let tableOf kw (m : string) :=
    JS.trim (RegExp.replace (RegExp.keywordSpaces kw) EmptyString m) in
  let fromTables :=
    map (tableOf "from")
        (RegExp.matchAll (RegExp.keywordTable "from") normalizedQuery) in
  let joinTables :=
    map (tableOf "join")
        (RegExp.matchAll (RegExp.keywordTable "join") normalizedQuery) in
  let intoTables :=
    match RegExp.search (RegExp.keywordTable "into") normalizedQuery with
    | Some (_, intoMatch) => [JS.trim (RegExp.group1 intoMatch)]
    | None => []
    end in
  let updateTables :=
    match RegExp.search (RegExp.keywordTable "update") normalizedQuery with
    | Some (_, updateMatch) => [JS.trim (RegExp.group1 updateMatch)]
    | None => []
    end in
  dedupe (fromTables ++ joinTables ++ intoTables ++ updateTables)%list.

Record ValidationResult := mkResult {
  valid : bool;
  errors : list string;
  warnings : list string
}.

(** How the promise returned by [validate] settles. *)
Inductive Settled :=
| Resolved (result : ValidationResult)
| Rejected (reason : string).

(** A run of [validate]: how it settles, and the calls it made to the
    custom validator, with their arguments. *)
Record Run := mkRun {
  settled : Settled;
  customCalls : list (string * option UserContext)
}.

Definition operationError (config : Config) (operation : QueryOperation)
  : list string :=
  match allowedOperations config with
  | Some ops =>
      if negb (existsb (operation_eqb operation) ops) then
        ["Operation " ++ operationName operation
         ++ " is not allowed. Allowed operations: "
         ++ JS.join ", " (map operationName ops)]
      else []
  | None => []
  end.

Definition dangerousError (query : string) : list string :=
  let dangerousPatterns := detectDangerousPatterns query in
  if (0 <? List.length dangerousPatterns)%nat then
    ["Query contains dangerous patterns: "
     ++ JS.join ", " dangerousPatterns]
  else [].

Definition restrictedError (config : Config) (query : string)
  : list string :=
  match restrictedColumns config with
  | Some _ =>
      let foundRestrictedColumns := findRestrictedColumns config query in
      if (0 <? List.length foundRestrictedColumns)%nat then
        ["Query accesses restricted columns: "
         ++ JS.join ", " foundRestrictedColumns]
      else []
  | None => []
  end.

Definition tableError (config : Config) (query : string) : list string :=
  match allowedTables config with
  | Some allowed =>
      if (0 <? List.length allowed)%nat then
        let tables := extractTableNames query in
        let unauthorizedTables :=
          filter (fun table => negb (existsb (String.eqb table) allowed))
                 tables in
        if (0 <? List.length unauthorizedTables)%nat then
          ["Query accesses unauthorized tables: "
           ++ JS.join ", " unauthorizedTables]
        else []
      else []
  | None => []
  end.

(** [limit > this.config.maxRowLimit!]; a comparison with [undefined] is
    false. *)
Definition exceeds (limit : Z) (max : option Z) : bool :=
  match max with
  | Some max => (max <? limit)%Z
  | None => false
  end.

(** The row-limit step: the errors and the warnings it adds. *)
Definition rowLimitCheck (config : Config) (operation : QueryOperation)
           (query : string) : list string * list string :=
  match operation with
  | SELECT =>
      let hasLimit := RegExp.test RegExp.limitClause query in
      if negb hasLimit then
        ([], ["Query does not have a LIMIT clause. Maximum "
              ++ showNumber (maxRowLimit config)
              ++ " rows will be enforced."])
      else
        match RegExp.search RegExp.limitClause query with
        | Some (_, limitMatch) =>
            let limit := JS.parseInt (RegExp.group1 limitMatch) in
            if exceeds limit (maxRowLimit config) then
              (["LIMIT " ++ JS.Number_toString limit
                ++ " exceeds maximum allowed limit of "
                ++ showNumber (maxRowLimit config)], [])
            else ([], [])
        | None => ([], [])
        end
  | _ => ([], [])
  end.

Definition validate (config : Config) (query : string)
           (userContext : option UserContext) : Run :=
  if truthy (requireUserContext config) && isNone userContext then
    mkRun (Resolved (mkResult false
                       ["User context is required but not provided"] []))
          []
  else
    match detectOperation query with
    | None =>
        mkRun (Resolved (mkResult false
                           ["Could not determine query operation"] []))
              []
    | Some operation =>
        let errors := operationError config operation in
        let errors := (errors ++ dangerousError query)%list in
        let errors := (errors ++ restrictedError config query)%list in
        let errors := (errors ++ tableError config query)%list in
        let (limitErrors, warnings) :=
          rowLimitCheck config operation query in
        let errors := (errors ++ limitErrors)%list in
        let finish (errors : list string) : Settled :=
          Resolved (mkResult (Nat.eqb (List.length errors) 0)
                             errors warnings) in
        match customValidator config with
        | None => mkRun (finish errors) []
        | Some validator =>
            let calls := [(query, userContext)] in
            match validator query userContext with
            | Returns customValid =>
                if negb customValid
                then mkRun (finish (push errors "Custom validation failed"))
                           calls
                else mkRun (finish errors) calls
            | Throws (ThrownValue message) =>
                mkRun (finish (push errors
                                 ("Custom validation error: "
                                  ++ showMessage message)))
                      calls
            | Throws (ThrownNullish value) =>
                mkRun (Rejected (nullishMessage value)) calls
            end
        end
    end.

Definition showUserId (id : UserId) : string :=
  match id with
  | IdString s => "'" ++ s ++ "'"
  | IdNumber n => JS.Number_toString n
  end.

Definition addRowLevelSecurity (config : Config) (query : string)
           (userContext : option UserContext) : string :=
  match userContext with
  | None => query
  | Some userContext =>
      if negb (truthy (enableRowLevelSecurity config)) then query
      else
        match detectOperation query with
        | Some SELECT | Some UPDATE | Some DELETE =>
            if negb (RegExp.test (RegExp.sameLine "WHERE" "user_id") query)
            then
              let hasWhere :=
                RegExp.test (RegExp.literal true "WHERE") query in
              let connector := if hasWhere then " AND" else " WHERE" in
              let userIdFilter :=
                connector ++ " user_id = "
                ++ showUserId (userId userContext) in
              if RegExp.test (RegExp.literal true "ORDER BY") query then
                RegExp.replace (RegExp.literal true "ORDER BY")
                               (userIdFilter ++ " ORDER BY") query
              else if RegExp.test (RegExp.literal true "LIMIT") query then
                RegExp.replace (RegExp.literal true "LIMIT")
                               (userIdFilter ++ " LIMIT") query
              else query ++ userIdFilter
            else query
        | _ => query
        end
  end.

End SecurityValidator.

(* ================================================================= *)
(** ** class SchemaAnalyzer (src/schema) *)

Module SchemaAnalyzer.

Inductive DatabaseType := postgres | mysql | sqlite | mongodb | mssql.

Record ColumnSchema := mkColumn {
  column_name : string;
  column_type : string;
  column_nullable : option bool;
  column_description : option string;
  column_sensitive : option bool
}.

Record ForeignKeySchema := mkForeignKey {
  fk_column : string;
  fk_referencedTable : string;
  fk_referencedColumn : string
}.

Record TableSchema := mkTable {
  table_name : string;
  table_columns : list ColumnSchema;
  table_primaryKey : option string;
  table_foreignKeys : option (list ForeignKeySchema);
  table_description : option string
}.

Record DatabaseSchema := mkSchema {
  tables : list TableSchema;
  databaseType : DatabaseType
}.

(** [this.schema.tables.find(...)]: the first table whose lower-cased
    name is the lower-cased argument. *)
Definition findTable (schema : DatabaseSchema) (tableName : string)
  : option TableSchema :=
  find (fun t => String.eqb (JS.toLowerCase (table_name t))
                            (JS.toLowerCase tableName))
       (tables schema).

Definition getTableNames (schema : DatabaseSchema) : list string :=
  map table_name (tables schema).

(** The two nested loops: for each table in order, its sensitive
    columns in order. *)
Definition getSensitiveColumns (schema : DatabaseSchema)
  : list (string * string) :=
  flat_map
    (fun table =>
       map (fun column => (table_name table, column_name column))
           (filter (fun column =>
                      SecurityValidator.truthy (column_sensitive column))
                   (table_columns table)))
    (tables schema).

Record TablesValidation := mkTablesValidation {
  valid : bool;
  missing : list string
}.

Definition validateTables (schema : DatabaseSchema)
           (tableNames : list string) : TablesValidation :=
  let schemaTableNames := map JS.toLowerCase (getTableNames schema) in
  let missing :=
    filter (fun tableName =>
              negb (existsb (String.eqb (JS.toLowerCase tableName))
                            schemaTableNames))
           tableNames in
  mkTablesValidation (Nat.eqb (List.length missing) 0) missing.

Definition generateExampleQueries (schema : DatabaseSchema) : list string :=
  flat_map
    (fun table =>
       let columns :=
         JS.join ", "
           (firstn 3
              (map column_name
                 (filter (fun c =>
                            negb (SecurityValidator.truthy
                                    (column_sensitive c)))
                         (table_columns table)))) in
       let basic :=
         if RegExp.nonEmpty columns then
           ["SELECT " ++ columns ++ " FROM " ++ table_name table
            ++ " LIMIT 10"]
         else [] in
       let joined :=
         match table_foreignKeys table with
         | Some (fk :: _) =>
             ["SELECT " ++ table_name table ++ ".* FROM "
              ++ table_name table ++ " JOIN " ++ fk_referencedTable fk
              ++ " ON " ++ table_name table ++ "." ++ fk_column fk
              ++ " = " ++ fk_referencedTable fk ++ "."
              ++ fk_referencedColumn fk]
         | _ => []
         end in
       (basic ++ joined)%list)
    (tables schema).

End SchemaAnalyzer.

(* ================================================================= *)
(** ** src/generator/query-generator.ts *)

Module QueryGenerator.

Inductive Complexity := low | medium | high.

Definition estimateComplexity (query : string) : Complexity :=
  let normalized := JS.toLowerCase query in
  let complexity := 0%nat in
  let complexity :=
    if JS.includes normalized "join" then S complexity else complexity in
  let complexity :=
    if JS.includes normalized "subquery"
       || RegExp.test (RegExp.anyGap "select" "select") query
    then (complexity + 2)%nat else complexity in
  let complexity :=
    if JS.includes normalized "group by" then S complexity
    else complexity in
  let complexity :=
    if JS.includes normalized "having" then S complexity else complexity in
  let complexity :=
    if JS.includes normalized "union" then (complexity + 2)%nat
    else complexity in
  let complexity :=
    if (2 <? List.length
               (RegExp.matchAll (RegExp.literal false "join") normalized))%nat
    then (complexity + 2)%nat else complexity in
  if Nat.eqb complexity 0 then low
  else if (complexity <=? 2)%nat then medium
  else high.

Definition detectOperation (query : string) : option QueryOperation :=
  let normalized := JS.toUpperCase (JS.trim query) in
  if JS.startsWith normalized "SELECT" then Some SELECT
  else if JS.startsWith normalized "INSERT" then Some INSERT
  else if JS.startsWith normalized "UPDATE" then Some UPDATE
  else if JS.startsWith normalized "DELETE" then Some DELETE
  else None.

Definition extractTables (query : string) : list string :=
  let normalized := JS.toLowerCase query in
  let tableOf kw (m : string) :=
    JS.trim (RegExp.replace (RegExp.keywordSpaces kw) EmptyString m) in
  let fromTables :=
    map (tableOf "from")
        (RegExp.matchAll (RegExp.keywordTable "from") normalized) in
  let joinTables :=
    map (tableOf "join")
        (RegExp.matchAll (RegExp.keywordTable "join") normalized) in
  SecurityValidator.dedupe (fromTables ++ joinTables)%list.

(** The [details] of a TextToQueryError: nothing, the lists of the
    validator, or the error that was caught (of which only the message
    is kept). *)
Inductive ErrorDetails :=
| NoDetails
| ValidationDetails (errors warnings : list string)
| Cause (message : option string).

(** [class TextToQueryError] *)
Record TextToQueryError := mkError {
  message : string;
  code : string;
  details : ErrorDetails
}.

Record Metadata := mkMetadata {
  operation : option QueryOperation;
  tables : list string;
  estimatedComplexity : Complexity
}.

(** [interface QueryResult], with the properties that [generateQuery]
    sets. *)
Record QueryResult := mkQueryResult {
  query : string;
  explanation : string;
  warnings : list string;
  metadata : Metadata
}.

(** The part of [interface TextToQueryConfig] that the pipeline reads
    once the completion is there ([llm] configures the provider,
    [database] feeds the prompt, [debug] the log). *)
Record TextToQueryConfig := mkTextToQueryConfig {
  database : SchemaAnalyzer.DatabaseSchema;
  security : option SecurityConfig;
  userContext : option UserContext;
  debug : option bool
}.

(** How [await this.llmProvider.generate(prompt)] settles: with the
    completion, with a TextToQueryError (the providers wrap their
    failures into one), or with any other thrown value. *)
Inductive Generation :=
| Completion (rawResponse : string)
| ProviderError (e : TextToQueryError)
| ProviderFault (e : Thrown).

(** How the promise returned by [generateQuery] settles: with a result,
    with a TextToQueryError, or with the TypeError raised in the catch
    handler when it reads [message] from a thrown [null] or
    [undefined]. *)
Inductive Outcome :=
| Success (result : QueryResult)
| Failure (e : TextToQueryError)
| Fault (reason : string).

Definition showOperation (operation : option QueryOperation) : string :=
  match operation with
  | Some op => SecurityValidator.operationName op
  | None => "null"
  end.

Definition showError (error : option string) : string :=
  match error with
  | Some e => e
  | None => "undefined"
  end.

(** [this.config.security?.enableRowLevelSecurity], as a condition. *)
Definition rowLevelSecurityRequested (config : TextToQueryConfig) : bool :=
  match security config with
  | Some s =>
      match cfg_enableRowLevelSecurity s with
      | Specified (Some true) => true
      | _ => false
      end
  | None => false
  end.

(** [this.config.security?.maxRowLimit] when it is truthy. *)
Definition requestedRowLimit (config : TextToQueryConfig) : option Z :=
  match security config with
  | Some s =>
      match cfg_maxRowLimit s with
      | Specified (Some n) => if (n =? 0)%Z then None else Some n
      | _ => None
      end
  | None => None
  end.

(** The catch handler of [generateQuery] on a value that is not a
    TextToQueryError. *)
Definition wrap (message : option string) : TextToQueryError :=
  mkError ("Failed to generate query: "
           ++ SecurityValidator.showMessage message)
          "QUERY_GENERATION_FAILED" (Cause message).

(** [generateQuery], given how the call of the provider settles.  The
    prompt and the log lines have no part in the result. *)
Definition generateQuery (config : TextToQueryConfig)
           (generation : Generation) (userInput : string)
           (userContext : option UserContext) : Outcome :=
  let securityValidator := SecurityValidator.new (security config) in
  let context :=
    match userContext with
    | Some c => Some c
    | None => QueryGenerator.userContext config
    end in
  match generation with
  | ProviderError e => Failure e
  | ProviderFault (ThrownValue message) => Failure (wrap message)
  | ProviderFault (ThrownNullish value) => Fault (nullishMessage value)
  | Completion rawResponse =>
      let rawResponse := QuerySanitizer.extractFromMarkdown rawResponse in
      let query := QuerySanitizer.sanitize rawResponse in
      let syntaxValidation := QuerySanitizer.validateSQLSyntax query in
      if negb (QuerySanitizer.valid syntaxValidation) then
        Failure (mkError
                   ("Invalid SQL syntax: "
                    ++ showError (QuerySanitizer.error syntaxValidation))
                   "INVALID_SQL_SYNTAX" NoDetails)
      else
        let query :=
          if rowLevelSecurityRequested config then
            match context with
            | Some _ =>
                SecurityValidator.addRowLevelSecurity
                  securityValidator query context
            | None => query
            end
          else query in
        let operation := detectOperation query in
        let query :=
          match operation, requestedRowLimit config with
          | Some SELECT, Some maxRowLimit =>
              QuerySanitizer.addLimitIfMissing query maxRowLimit
          | _, _ => query
          end in
        match SecurityValidator.settled
                (SecurityValidator.validate securityValidator query context)
        with
        | SecurityValidator.Rejected reason => Failure (wrap (Some reason))
        | SecurityValidator.Resolved validation =>
            if negb (SecurityValidator.valid validation) then
              Failure
                (mkError
                   ("Security validation failed: "
                    ++ JS.join ", " (SecurityValidator.errors validation))
                   "SECURITY_VALIDATION_FAILED"
                   (ValidationDetails
                      (SecurityValidator.errors validation)
                      (SecurityValidator.warnings validation)))
            else
              Success
                (mkQueryResult
                   query
                   ("Generated " ++ showOperation operation
                    ++ " query for: "
                    ++ String QuerySanitizer.doubleQuote
                         (userInput
                          ++ String QuerySanitizer.doubleQuote EmptyString))
                   (SecurityValidator.warnings validation)
                   (mkMetadata operation (extractTables query)
                               (estimateComplexity query)))
        end
  end.

End QueryGenerator.

(* ================================================================= *)
(** ** Notions used to state the properties *)

(** Every character of [s] is in the class. *)
Fixpoint allChars (cls : ascii -> bool) (s : string) : bool :=
  match s with
  | EmptyString => true
  | String c s' => cls c && allChars cls s'
  end.

(** The next character, if any, is outside the class. *)
Definition stopsAt (cls : ascii -> bool) (s : string) : Prop :=
  match s with
  | EmptyString => True
  | String c _ => cls c = false
  end.

(** A limit clause: the keyword LIMIT in any case, white space, digits. *)
Definition hasLimitClause (q : string) : Prop :=
  exists before kw ws ds after,
    q = before ++ kw ++ ws ++ ds ++ after
    /\ JS.toUpperCase kw = "LIMIT"
    /\ ws <> EmptyString /\ allChars JS.isWhiteSpace ws = true
    /\ ds <> EmptyString /\ allChars JS.isDigit ds = true.

(** Opening minus closing parentheses. *)
Definition depth (s : string) : Z :=
  (Z.of_nat (JS.countChar "(" s) - Z.of_nat (JS.countChar ")" s))%Z.

(** No prefix closes more parentheses than it opens, and the whole text
    closes all of them. *)
Definition balancedParens (s : string) : Prop :=
  (forall a b, s = a ++ b -> (0 <= depth a)%Z) /\ depth s = 0%Z.

(** The upper-cased trimmed text begins with one of the keywords. *)
Definition validStart (q : string) : Prop :=
  exists keyword,
    In keyword QuerySanitizer.validStarts
    /\ JS.startsWith (JS.toUpperCase (JS.trim q)) keyword = true.

Definition evenCount (c : ascii) (q : string) : Prop :=
  Nat.Even (JS.countChar c q).

Ltac by_cases_on_char c :=
  destruct c as [[] [] [] [] [] [] [] []]; vm_compute;
  try reflexivity; try discriminate; auto.

Ltac settle_cases :=
  cbn [QuerySanitizer.valid JS.join QuerySanitizer.validStarts];
  repeat match goal with
         | |- _ /\ _ => split
         | |- _ <-> _ => split
         end;
  intros; try reflexivity; try discriminate; try tauto.

(** The text contains the opener and, somewhere after it, a closing
    fence. *)
Definition hasBlock (opener text : string) : Prop :=
  exists a b c, text = a ++ opener ++ b ++ "```" ++ c.

(** [body] lies between the first occurrence of the opener in [text] and
    the first closing fence after it. *)
Definition firstBlock (opener text body : string) : Prop :=
  exists before after,
    text = before ++ opener ++ body ++ "```" ++ after
    /\ (forall a b, text = a ++ opener ++ b ->
                    String.length before <= String.length a)
    /\ (forall a b, body ++ "```" ++ after = a ++ "```" ++ b ->
                    String.length body <= String.length a).

(** The opening fence of a block tagged sql, and of an untagged block. *)
Definition sqlOpener : string := "```sql" ++ QuerySanitizer.LF.
Definition plainOpener : string := "```" ++ QuerySanitizer.LF.

(** A user context is supplied whenever the configuration requires one. *)
Definition contextSupplied (config : SecurityValidator.Config)
           (userContext : option UserContext) : Prop :=
  SecurityValidator.truthy (SecurityValidator.requireUserContext config) = true
  -> userContext <> None.

(** The custom validator, when there is one, does not throw [null] or
    [undefined] on these arguments. *)
Definition validatorSettles (config : SecurityValidator.Config)
           (query : string) (userContext : option UserContext) : Prop :=
  forall validator value,
    SecurityValidator.customValidator config = Some validator ->
    validator query userContext <> Throws (ThrownNullish value).

(** The errors accumulated by the steps that precede the custom validator,
    in the order in which they are pushed. *)
Definition policyErrors (config : SecurityValidator.Config)
           (operation : QueryOperation) (query : string) : list string :=
  (SecurityValidator.operationError config operation
   ++ SecurityValidator.dangerousError query
   ++ SecurityValidator.restrictedError config query
   ++ SecurityValidator.tableError config query
   ++ fst (SecurityValidator.rowLimitCheck config operation query))%list.

(** The error pushed by the custom-validator step. *)
Definition customErrors (config : SecurityValidator.Config)
           (query : string) (userContext : option UserContext) : list string :=
  match SecurityValidator.customValidator config with
  | None => []
  | Some validator =>
      match validator query userContext with
      | Returns true => []
      | Returns false => ["Custom validation failed"]
      | Throws (ThrownValue message) =>
          ["Custom validation error: "
           ++ SecurityValidator.showMessage message]
      | Throws (ThrownNullish _) => []
      end
  end.

(** The configuration of the row-limit tests:
    [{ allowedOperations: ['SELECT'], maxRowLimit: 100,
       requireUserContext: false }]. *)
Definition rowLimitConfig : SecurityConfig :=
  mkSecurityConfig (Specified (Some [SELECT])) Unspecified Unspecified
                   (Specified (Some 100%Z)) (Specified (Some false))
                   Unspecified Unspecified.

(** The configuration of the injection tests:
    [{ allowedOperations: ['SELECT'], requireUserContext: false }]. *)
Definition injectionConfig : SecurityConfig :=
  mkSecurityConfig (Specified (Some [SELECT])) Unspecified Unspecified
                   Unspecified (Specified (Some false))
                   Unspecified Unspecified.

(** The error pushed when the operation is not among those allowed by the
    default configuration. *)
Definition notAllowedByDefault (operation : QueryOperation) : string :=
  "Operation " ++ SecurityValidator.operationName operation
  ++ " is not allowed. Allowed operations: SELECT".

(** Number of positions at which [p] occurs in [s]. *)
Fixpoint occurrences (p s : string) : nat :=
  (if JS.startsWith s p then 1 else 0)
  + match s with
    | EmptyString => 0
    | String _ s' => occurrences p s'
    end.

(** The word select, in any case, occurs twice without overlap. *)
Definition hasTwoSelects (q : string) : Prop :=
  exists a s1 b s2 c,
    q = a ++ s1 ++ b ++ s2 ++ c
    /\ JS.toUpperCase s1 = "SELECT" /\ JS.toUpperCase s2 = "SELECT".

Definition indicator (b : bool) : nat := if b then 1 else 0.

(** Score 0 is low, 1 and 2 are medium, 3 and more is high. *)
Definition tierOf (score : nat) : QueryGenerator.Complexity :=
  if Nat.eqb score 0 then QueryGenerator.low
  else if (score <=? 2)%nat then QueryGenerator.medium
  else QueryGenerator.high.

(** The score as the specification words it (claim C9): the nested-SELECT
    indicator looks for a second select only. *)
Definition statedScore (query : string) : nat :=
  let normalized := JS.toLowerCase query in
  indicator (JS.includes normalized "join")
  + 2 * indicator (RegExp.test (RegExp.anyGap "select" "select") query)
  + indicator (JS.includes normalized "group by")
  + indicator (JS.includes normalized "having")
  + 2 * indicator (JS.includes normalized "union")
  + 2 * indicator (2 <? occurrences "join" normalized)%nat.

(** [.] in a regular expression. *)
Definition notLineTerminator (c : ascii) : bool :=
  negb (JS.isLineTerminator c).

(** An owner filter: WHERE and, later on the same line, user_id, both in
    any case. *)
Definition hasOwnerFilter (q : string) : Prop :=
  exists a w gap u b,
    q = a ++ w ++ gap ++ u ++ b
    /\ JS.toUpperCase w = "WHERE" /\ JS.toUpperCase u = "USER_ID"
    /\ allChars notLineTerminator gap = true.

(** A user id that is a number, or a string without a dollar sign. *)
Definition plainUserId (id : UserId) : Prop :=
  match id with
  | IdString s => JS.includes s "$" = false
  | IdNumber _ => True
  end.

(** The filter that row-level security puts into the query. *)
Definition ownerFilter (query : string) (id : UserId) : string :=
  (if RegExp.test (RegExp.literal true "WHERE") query
   then " AND" else " WHERE")
  ++ " user_id = " ++ SecurityValidator.showUserId id.

(** The one warning that [validate] knows. *)
Definition missingLimitWarning (config : SecurityValidator.Config) : string :=
  "Query does not have a LIMIT clause. Maximum "
  ++ SecurityValidator.showNumber (SecurityValidator.maxRowLimit config)
  ++ " rows will be enforced.".

(** A non-empty identifier: a letter or an underscore, then letters,
    digits and underscores. *)
Definition identifier (t : string) : bool :=
  match t with
  | String c tl => RegExp.isIdentStart c && allChars RegExp.isIdentChar tl
  | EmptyString => false
  end.

Definition notWhiteSpace (c : ascii) : bool := negb (JS.isWhiteSpace c).
Definition notUpper (c : ascii) : bool := negb (JS.isUpper c).

(** The keywords after which the validator looks for a table name. *)
Definition tableKeywords : list string := ["from"; "join"; "into"; "update"].

(** [t] stands in [s] right after one of the keywords and some white space,
    and is the whole identifier there. *)
Definition namedAfter (keywords : list string) (s t : string) : Prop :=
  exists a kw ws rest,
    s = a ++ kw ++ ws ++ t ++ rest
    /\ In kw keywords
    /\ ws <> EmptyString /\ allChars JS.isWhiteSpace ws = true
    /\ identifier t = true
    /\ stopsAt RegExp.isIdentChar rest.

(** A configuration with a table allow-list and a maximum of 50 rows, a
    user context, and the result of a generation under them. *)
Definition sampleConfig : QueryGenerator.TextToQueryConfig :=
  QueryGenerator.mkTextToQueryConfig
    (SchemaAnalyzer.mkSchema [] SchemaAnalyzer.postgres)
    (Some (mkSecurityConfig
             (Specified (Some [SELECT]))
             (Specified (Some ["users"; "orders"]))
             (Specified (Some ["password"]))
             (Specified (Some 50%Z))
             Unspecified Unspecified Unspecified))
    None None.

Definition sampleContext : option UserContext :=
  Some (mkUserContext (IdNumber 7) "user" None None).

Definition sampleResult : QueryGenerator.QueryResult :=
  QueryGenerator.mkQueryResult
    "SELECT id, name FROM users LIMIT 50"
    ("Generated SELECT query for: "
     ++ String QuerySanitizer.doubleQuote
          ("Show all users"
           ++ String QuerySanitizer.doubleQuote EmptyString))
    []
    (QueryGenerator.mkMetadata (Some SELECT) ["users"] QueryGenerator.low).

(** The shape of a sanitized query: no NUL character; the only white
    space is the blank; no two blanks in a row; a first and a last
    character that are not white space. *)
Definition notNUL (c : ascii) : bool := negb (JS.code c =? 0)%N.

Definition blankOrInk (c : ascii) : bool :=
  negb (JS.isWhiteSpace c) || Ascii.eqb c " ".

Definition startsInk (s : string) : bool :=
  match s with
  | EmptyString => false
  | String c _ => negb (JS.isWhiteSpace c)
  end.

Fixpoint endsInk (s : string) : bool :=
  match s with
  | EmptyString => false
  | String c s' =>
      match s' with
      | EmptyString => negb (JS.isWhiteSpace c)
      | String _ _ => endsInk s'
      end
  end.

Definition startsWhite (s : string) : bool :=
  match s with
  | EmptyString => false
  | String c _ => JS.isWhiteSpace c
  end.

Fixpoint singleSpaced (s : string) : bool :=
  match s with
  | EmptyString => true
  | String c s' =>
      (if JS.isWhiteSpace c
       then Ascii.eqb c " " && negb (startsWhite s')
       else true)
      && singleSpaced s'
  end.


(* ================================================================= *)
(** * Properties *)

(** ** Strings *)

Section StringFacts.

Lemma append_nil_r (s : string) : s ++ EmptyString = s.
Proof. induction s as [|c s IH]; simpl; [reflexivity | now rewrite IH]. Qed.

Lemma append_assoc (a b c : string) : (a ++ b) ++ c = a ++ (b ++ c).
Proof. induction a as [|x a IH]; simpl; [reflexivity | now rewrite IH]. Qed.

Lemma length_append (a b : string) :
  String.length (a ++ b) = String.length a + String.length b.
Proof. induction a as [|x a IH]; simpl; [reflexivity | now rewrite IH]. Qed.

Lemma append_inv_head (a b c : string) : a ++ b = a ++ c -> b = c.
Proof.
  induction a as [|x a IH]; simpl; intros H; [exact H|].
  injection H as H. auto.
Qed.

Lemma startsWith_append (p s : string) : JS.startsWith (p ++ s) p = true.
Proof.
  induction p as [|a p IH]; simpl; [reflexivity|].
  now rewrite Ascii.eqb_refl, IH.
Qed.

Lemma startsWith_split (s p : string) :
  JS.startsWith s p = true -> exists r, s = p ++ r.
Proof.
  revert s. induction p as [|a p IH]; intros s H; simpl in *.
  - now exists s.
  - destruct s as [|b s]; [discriminate|].
    apply andb_true_iff in H. destruct H as [Hab Hs].
    apply Ascii.eqb_eq in Hab. subst b.
    destruct (IH _ Hs) as [r ->]. now exists r.
Qed.

Lemma includes_here (s p : string) :
  JS.startsWith s p = true -> JS.includes s p = true.
Proof. intros H. destruct s; simpl in *; now rewrite H. Qed.

Lemma includes_tail (c : ascii) (s p : string) :
  JS.includes s p = true -> JS.includes (String c s) p = true.
Proof. intros H. simpl. rewrite H. apply orb_true_r. Qed.

Lemma includes_append (a p b : string) :
  JS.includes (a ++ p ++ b) p = true.
Proof.
  induction a as [|c a IH]; simpl.
  - apply includes_here, startsWith_append.
  - rewrite IH. apply orb_true_r.
Qed.

Lemma includes_split (s p : string) :
  JS.includes s p = true -> exists a b, s = a ++ p ++ b.
Proof.
  induction s as [|c s IH]; simpl; intros H.
  - rewrite orb_false_r in H. destruct (startsWith_split _ _ H) as [r Hr].
    now exists EmptyString, r.
  - apply orb_true_iff in H. destruct H as [H|H].
    + destruct (startsWith_split _ _ H) as [r Hr].
      now exists EmptyString, r.
    + destruct (IH H) as (a & b & ->). now exists (String c a), b.
Qed.

End StringFacts.

(** ** Characters *)

Lemma digit_not_space (c : ascii) :
  JS.isDigit c = true -> JS.isWhiteSpace c = false.
Proof. by_cases_on_char c. Qed.

(** ** The matcher combinators *)

Section Matching.

Context {A : Type} (m : string -> option A).

Lemma search_sound (s before : string) (r : A) :
  RegExp.search m s = Some (before, r) ->
  exists here, s = before ++ here /\ m here = Some r.
Proof.
  revert before. induction s as [|c s IH]; intros before; simpl.
  - destruct (m EmptyString) eqn:E; [|discriminate].
    intros [= <- <-]. now exists EmptyString.
  - destruct (m (String c s)) eqn:E.
    + intros [= <- <-]. now exists (String c s).
    + destruct (RegExp.search m s) as [[b x]|] eqn:Es; [|discriminate].
      intros [= <- <-]. destruct (IH _ eq_refl) as (here & -> & Hm).
      now exists here.
Qed.

Lemma search_none (s : string) :
  RegExp.search m s = None -> m s = None.
Proof. destruct s; simpl; destruct (m _); congruence. Qed.

Lemma search_none_tail (c : ascii) (s : string) :
  RegExp.search m (String c s) = None -> RegExp.search m s = None.
Proof.
  simpl. destruct (m (String c s)); [discriminate|].
  destruct (RegExp.search m s) as [[? ?]|]; congruence.
Qed.

Lemma search_none_suffix (a b : string) :
  RegExp.search m (a ++ b) = None -> m b = None.
Proof.
  induction a as [|c a IH]; simpl append; intros H.
  - now apply search_none.
  - apply IH. eapply search_none_tail. exact H.
Qed.

Lemma test_suffix (a b : string) (r : A) :
  m b = Some r -> RegExp.test m (a ++ b) = true.
Proof.
  intros Hb. unfold RegExp.test.
  destruct (RegExp.search m (a ++ b)) eqn:E; [reflexivity|].
  apply search_none_suffix in E. congruence.
Qed.

Lemma test_true (s : string) :
  RegExp.test m s = true ->
  exists before here r, s = before ++ here /\ m here = Some r.
Proof.
  unfold RegExp.test.
  destruct (RegExp.search m s) as [[before r]|] eqn:E; [|discriminate].
  intros _. destruct (search_sound _ _ _ E) as (here & ? & ?).
  now exists before, here, r.
Qed.

End Matching.

Lemma span_sound (cls : ascii -> bool) (s run r : string) :
  RegExp.span cls s = (run, r) ->
  s = run ++ r /\ allChars cls run = true /\ stopsAt cls r.
Proof.
  revert run r. induction s as [|c s IH]; simpl; intros run r.
  - intros [= <- <-]. now repeat split.
  - destruct (cls c) eqn:Ec.
    + destruct (RegExp.span cls s) as [run' r'] eqn:E.
      intros [= <- <-]. destruct (IH _ _ eq_refl) as (-> & Hall & Hstop).
      simpl. now rewrite Ec, Hall.
    + intros [= <- <-]. simpl. now repeat split.
Qed.

Lemma span_complete (cls : ascii -> bool) (run r : string) :
  allChars cls run = true -> stopsAt cls r ->
  RegExp.span cls (run ++ r) = (run, r).
Proof.
  induction run as [|c run IH]; simpl; intros Hall Hstop.
  - destruct r as [|d r]; simpl in *; [reflexivity | now rewrite Hstop].
  - apply andb_true_iff in Hall. destruct Hall as [Hc Hall].
    now rewrite Hc, IH.
Qed.

Lemma span_nonEmpty (cls : ascii -> bool) (c : ascii) (s : string) :
  cls c = true -> RegExp.nonEmpty (fst (RegExp.span cls (String c s))) = true.
Proof.
  intros Hc. simpl. rewrite Hc. now destruct (RegExp.span cls s).
Qed.

Lemma lit_sound (ci : bool) (p s mt r : string) :
  RegExp.lit ci p s = Some (mt, r) ->
  s = mt ++ r
  /\ (if ci then JS.toUpperCase mt = JS.toUpperCase p else mt = p).
Proof.
  revert s mt. induction p as [|a p IH]; intros s mt; simpl.
  - intros [= <- <-]. now destruct ci.
  - destruct s as [|b s]; [discriminate|].
    destruct (RegExp.charMatches ci a b) eqn:Ec; [|discriminate].
    destruct (RegExp.lit ci p s) as [[m' r']|] eqn:E; [|discriminate].
    intros [= <- <-]. destruct (IH _ _ E) as (-> & Hm).
    split; [reflexivity|]. unfold RegExp.charMatches in Ec.
    unfold JS.toUpperCase in *.
    destruct ci; apply Ascii.eqb_eq in Ec; simpl; congruence.
Qed.

Lemma lit_complete (ci : bool) (p mt r : string) :
  (if ci then JS.toUpperCase mt = JS.toUpperCase p else mt = p) ->
  RegExp.lit ci p (mt ++ r) = Some (mt, r).
Proof.
  unfold JS.toUpperCase. revert mt.
  induction p as [|a p IH]; intros mt H.
  - assert (mt = EmptyString) as ->
        by (destruct ci, mt; simpl in *; congruence).
    reflexivity.
  - destruct mt as [|b mt]; [destruct ci; simpl in *; discriminate|].
    assert (RegExp.charMatches ci a b = true
            /\ if ci then JS.mapString JS.upperChar mt
                         = JS.mapString JS.upperChar p
               else mt = p)
      as [Hc Hm].
    { unfold RegExp.charMatches.
      destruct ci; simpl in H; injection H as H1 H2;
        (split; [apply Ascii.eqb_eq; congruence | assumption]). }
    simpl. now rewrite Hc, (IH _ Hm).
Qed.

(** ** QuerySanitizer.addLimitIfMissing *)

Lemma limitClause_sound (s : string) (r : RegExp.MatchResult) :
  RegExp.limitClause s = Some r ->
  exists kw ws ds,
    s = kw ++ ws ++ ds ++ RegExp.rest r
    /\ JS.toUpperCase kw = "LIMIT"
    /\ ws <> EmptyString /\ allChars JS.isWhiteSpace ws = true
    /\ ds <> EmptyString /\ allChars JS.isDigit ds = true
    /\ stopsAt JS.isDigit (RegExp.rest r)
    /\ RegExp.group1 r = ds.
Proof.
  unfold RegExp.limitClause.
  destruct (RegExp.lit true "LIMIT" s) as [[kw r1]|] eqn:El; [|discriminate].
  destruct (RegExp.span JS.isWhiteSpace r1) as [ws r2] eqn:Ew.
  destruct (RegExp.span JS.isDigit r2) as [ds r3] eqn:Ed.
  destruct (RegExp.nonEmpty ws && RegExp.nonEmpty ds) eqn:En; [|discriminate].
  intros [= <-]. simpl.
  apply andb_true_iff in En. destruct En as [Hws Hds].
  apply lit_sound in El. destruct El as (-> & Hkw).
  apply span_sound in Ew. destruct Ew as (-> & Hw & _).
  apply span_sound in Ed. destruct Ed as (-> & Hd & Hstop).
  exists kw, ws, ds. repeat split; auto.
  - now destruct ws.
  - now destruct ds.
Qed.

Lemma limitClause_complete (kw ws ds after : string) :
  JS.toUpperCase kw = "LIMIT" ->
  ws <> EmptyString -> allChars JS.isWhiteSpace ws = true ->
  ds <> EmptyString -> allChars JS.isDigit ds = true ->
  exists r, RegExp.limitClause (kw ++ ws ++ ds ++ after) = Some r.
Proof.
  intros Hkw Hws Hw Hds Hd. unfold RegExp.limitClause.
  rewrite (lit_complete true "LIMIT" kw) by exact Hkw.
  destruct ds as [|d ds]; [congruence|]. simpl in Hd.
  apply andb_true_iff in Hd. destruct Hd as [Hd _].
  rewrite (span_complete JS.isWhiteSpace ws)
    by (try assumption; simpl; now apply digit_not_space).
  pose proof (span_nonEmpty JS.isDigit d (ds ++ after) Hd) as Hne.
  change (String d ds ++ after) with (String d (ds ++ after)).
  destruct (RegExp.span JS.isDigit (String d (ds ++ after))) as [run r3].
  simpl in Hne. rewrite Hne.
  destruct ws; [congruence|]. simpl. eauto.
Qed.

Lemma limitClause_test (q : string) :
  RegExp.test RegExp.limitClause q = true <-> hasLimitClause q.
Proof.
  split.
  - intros H. apply test_true in H. destruct H as (before & here & r & -> & Hm).
    apply limitClause_sound in Hm.
    destruct Hm as (kw & ws & ds & -> & ? & ? & ? & ? & ? & _).
    exists before, kw, ws, ds, (RegExp.rest r). repeat split; assumption.
  - intros (before & kw & ws & ds & after & -> & Hkw & Hws & Hw & Hds & Hd).
    destruct (limitClause_complete kw ws ds after) as [r Hr]; auto.
    eapply test_suffix. exact Hr.
Qed.

Lemma Number_toString_digit (n : Z) :
  (0 <= n)%Z ->
  exists d rest, JS.Number_toString n = String d rest /\ JS.isDigit d = true.
Proof.
  intros Hn. unfold JS.Number_toString.
  destruct n as [|p|p]; [| |lia].
  - now exists "0"%char, EmptyString.
  - simpl. pose proof (Unsigned.to_uint_nonnil p) as Hnil.
    destruct (Pos.to_uint p); [congruence| | | | | | | | | |];
      simpl; eexists; eexists; (split; [reflexivity|reflexivity]).
Qed.

Lemma limit_after_append (q : string) (n : Z) :
  (0 <= n)%Z ->
  RegExp.test RegExp.limitClause (q ++ " LIMIT " ++ JS.Number_toString n)
  = true.
Proof.
  intros Hn. destruct (Number_toString_digit n Hn) as (d & ds & -> & Hd).
  apply limitClause_test.
  exists (q ++ " "), "LIMIT", " ", (String d EmptyString), ds.
  repeat split; try discriminate.
  - rewrite append_assoc. reflexivity.
  - simpl. now rewrite Hd.
Qed.

(** C8, as amended: for a limit that is a safe integer and not negative,
    adding the limit twice is adding it once; for every limit the query
    is returned unchanged when it already has a limit clause; and a query
    that has none gets the clause appended, with the limit in decimal
    digits when it is a safe integer. *)
Theorem addLimitIfMissing_idempotent (q : string) (n : Z) :
  ((0 <= n <= JS.MAX_SAFE_INTEGER)%Z ->
   QuerySanitizer.addLimitIfMissing (QuerySanitizer.addLimitIfMissing q n) n
   = QuerySanitizer.addLimitIfMissing q n)
  /\ (hasLimitClause q -> QuerySanitizer.addLimitIfMissing q n = q)
  /\ (~ hasLimitClause q ->
      JS.isSafeInteger n = true ->
      QuerySanitizer.addLimitIfMissing q n
      = q ++ " LIMIT " ++ JS.Number_toString n).
Proof.
  unfold QuerySanitizer.addLimitIfMissing.
  destruct (RegExp.test RegExp.limitClause q) eqn:E; cbn [negb].
  - rewrite E. cbn [negb]. split; [reflexivity|split].
    + reflexivity.
    + intros Hno. apply limitClause_test in E. contradiction.
  - split; [|split].
    + intros [Hn _]. now rewrite (limit_after_append q n Hn).
    + intros Hyes. apply limitClause_test in Hyes. congruence.
    + reflexivity.
Qed.

Lemma addLimitIfMissing_idempotent_witness :
  (0 <= 100 <= JS.MAX_SAFE_INTEGER)%Z
  /\ QuerySanitizer.addLimitIfMissing
       (QuerySanitizer.addLimitIfMissing "SELECT * FROM users" 100) 100
     = QuerySanitizer.addLimitIfMissing "SELECT * FROM users" 100
  /\ QuerySanitizer.addLimitIfMissing "SELECT * FROM users" 100
     = "SELECT * FROM users LIMIT 100".
Proof.
  assert (0 <= 100 <= JS.MAX_SAFE_INTEGER)%Z as Hn
      by (unfold JS.MAX_SAFE_INTEGER; lia).
  split; [exact Hn|]. split.
  - exact (proj1 (addLimitIfMissing_idempotent "SELECT * FROM users" 100) Hn).
  - reflexivity.
Defined.

(** C8, as stated, fails for a negative limit: the appended clause
    [LIMIT -1] is not recognised as a limit clause, and a second application
    appends again. *)
Lemma addLimitIfMissing_negative_not_idempotent :
  QuerySanitizer.addLimitIfMissing
    (QuerySanitizer.addLimitIfMissing "SELECT 1" (-1)) (-1)
  = "SELECT 1 LIMIT -1 LIMIT -1"
  /\ QuerySanitizer.addLimitIfMissing "SELECT 1" (-1) = "SELECT 1 LIMIT -1"
  /\ QuerySanitizer.addLimitIfMissing
       (QuerySanitizer.addLimitIfMissing "SELECT 1" (-1)) (-1)
     <> QuerySanitizer.addLimitIfMissing "SELECT 1" (-1).
Proof. repeat split; vm_compute; congruence. Qed.

(** ** QuerySanitizer.validateSQLSyntax *)

Lemma depth_nil : depth EmptyString = 0%Z.
Proof. reflexivity. Qed.

(** What one character adds to the running count of the loop. *)
Lemma parenLoop_step (count : Z) (char : ascii) (chars : string) :
  QuerySanitizer.parenLoop count (String char chars)
  = if (count + depth (String char EmptyString) <? 0)%Z then None
    else QuerySanitizer.parenLoop
           (count + depth (String char EmptyString)) chars.
Proof.
  unfold depth. cbn [QuerySanitizer.parenLoop JS.countChar].
  rewrite (Ascii.eqb_sym "(" char), (Ascii.eqb_sym ")" char).
  destruct (Ascii.eqb char "(") eqn:Eo; destruct (Ascii.eqb char ")") eqn:Ec;
    cbn [Nat.add Z.of_nat].
  - apply Ascii.eqb_eq in Eo, Ec. congruence.
  - reflexivity.
  - replace (count - 1)%Z with (count + (0 - Z.of_nat 1))%Z by lia.
    reflexivity.
  - now rewrite Z.add_0_r.
Qed.

Lemma depth_cons (c : ascii) (s : string) :
  depth (String c s) = (depth (String c EmptyString) + depth s)%Z.
Proof. unfold depth. cbn [JS.countChar]. lia. Qed.

Lemma parenLoop_some (chars : string) :
  forall count n, (0 <= count)%Z ->
    QuerySanitizer.parenLoop count chars = Some n
    <-> (n = (count + depth chars)%Z
         /\ forall a b, chars = a ++ b -> (0 <= count + depth a)%Z).
Proof.
  induction chars as [|c chars IH]; intros count n Hc.
  - simpl. rewrite depth_nil. split.
    + intros [= <-]. split; [lia|].
      intros a b H. destruct a; [rewrite depth_nil; lia | discriminate].
    + intros [-> _]. f_equal. lia.
  - rewrite parenLoop_step, (depth_cons c chars).
    destruct (count + depth (String c EmptyString) <? 0)%Z eqn:E.
    + apply Z.ltb_lt in E. split; [discriminate|].
      intros [_ H]. specialize (H (String c EmptyString) chars eq_refl). lia.
    + apply Z.ltb_ge in E. rewrite (IH _ n E). split.
      * intros [-> H]. split; [lia|].
        intros a b Hab. destruct a as [|x a].
        -- rewrite depth_nil. lia.
        -- injection Hab as -> ->. rewrite depth_cons.
           specialize (H a b eq_refl). lia.
      * intros [-> H]. split; [lia|].
        intros a b ->. specialize (H (String c a) b eq_refl).
        rewrite depth_cons in H. lia.
Qed.

Lemma parenLoop_balanced (query : string) :
  QuerySanitizer.parenLoop 0 query = Some 0%Z <-> balancedParens query.
Proof.
  rewrite parenLoop_some by lia. unfold balancedParens. simpl. split.
  - intros [H0 H]. split; [exact H | lia].
  - intros [H H0]. split; [lia | exact H].
Qed.

Lemma even_mod2 (n : nat) : Nat.eqb (Nat.modulo n 2) 0 = true <-> Nat.Even n.
Proof.
  rewrite Nat.eqb_eq. split.
  - intros H. exists (Nat.div n 2).
    pose proof (Nat.div_mod_eq n 2). lia.
  - intros [k ->]. rewrite Nat.mul_comm. apply Nat.Div0.mod_mul.
Qed.

Lemma validStart_existsb (q : string) :
  existsb (fun keyword => JS.startsWith (JS.toUpperCase (JS.trim q)) keyword)
          QuerySanitizer.validStarts = true
  <-> validStart q.
Proof. apply existsb_exists. Qed.

(** C4: [validateSQLSyntax] accepts exactly the queries that start with
    one of the five keywords, have balanced parentheses and an even number
    of single and of double quotes; a rejection names the first condition
    that fails. *)
Theorem validateSQLSyntax_spec (q : string) :
  let r := QuerySanitizer.validateSQLSyntax q in
  let single := evenCount "'" q in
  let double := evenCount QuerySanitizer.doubleQuote q in
  (QuerySanitizer.valid r = true <->
   validStart q /\ balancedParens q /\ single /\ double)
  /\ (validStart q /\ balancedParens q /\ single /\ double ->
      r = QuerySanitizer.mkSyntax true None)
  /\ (~ validStart q ->
      r = QuerySanitizer.mkSyntax false
            (Some "Query must start with one of: SELECT, INSERT, UPDATE, DELETE, WITH"))
  /\ (validStart q -> ~ balancedParens q ->
      r = QuerySanitizer.mkSyntax false (Some "Unbalanced parentheses"))
  /\ (validStart q -> balancedParens q -> ~ single ->
      r = QuerySanitizer.mkSyntax false (Some "Unbalanced single quotes"))
  /\ (validStart q -> balancedParens q -> single -> ~ double ->
      r = QuerySanitizer.mkSyntax false (Some "Unbalanced double quotes")).
Proof.
  cbv zeta. unfold QuerySanitizer.validateSQLSyntax, evenCount.
  pose proof (validStart_existsb q) as Hs.
  pose proof (parenLoop_balanced q) as Hp.
  pose proof (even_mod2 (JS.countChar "'" q)) as H1.
  pose proof (even_mod2 (JS.countChar QuerySanitizer.doubleQuote q)) as H2.
  destruct (existsb _ QuerySanitizer.validStarts) eqn:Es; cbn [negb].
  2:{ assert (~ validStart q) by (intros H; apply Hs in H; discriminate).
      settle_cases. }
  assert (validStart q) as Hvs by now apply Hs.
  destruct (QuerySanitizer.parenLoop 0 q) as [n|] eqn:Ep.
  2:{ assert (~ balancedParens q) by (intros H; apply Hp in H; discriminate).
      settle_cases. }
  destruct (n =? 0)%Z eqn:En; cbn [negb].
  2:{ assert (~ balancedParens q).
      { intros H. apply Hp in H. apply Z.eqb_neq in En. congruence. }
      settle_cases. }
  apply Z.eqb_eq in En. subst n.
  assert (balancedParens q) as Hb by now apply Hp.
  destruct (Nat.eqb (Nat.modulo (JS.countChar "'" q) 2) 0) eqn:E1;
    cbn [negb].
  2:{ assert (~ Nat.Even (JS.countChar "'" q))
        by (intros H; apply H1 in H; discriminate).
      settle_cases. }
  assert (Nat.Even (JS.countChar "'" q)) as He1 by now apply H1.
  destruct (Nat.eqb (Nat.modulo
                       (JS.countChar QuerySanitizer.doubleQuote q) 2) 0)
    eqn:E2; cbn [negb].
  2:{ assert (~ Nat.Even (JS.countChar QuerySanitizer.doubleQuote q))
        by (intros H; apply H2 in H; discriminate).
      settle_cases. }
  assert (Nat.Even (JS.countChar QuerySanitizer.doubleQuote q)) as He2
      by now apply H2.
  settle_cases.
Qed.

Lemma validateSQLSyntax_spec_witness :
  QuerySanitizer.validateSQLSyntax "SELECT * FROM users WHERE (id = 1"
  = QuerySanitizer.mkSyntax false (Some "Unbalanced parentheses")
  /\ QuerySanitizer.validateSQLSyntax "INVALID QUERY"
     = QuerySanitizer.mkSyntax false
         (Some "Query must start with one of: SELECT, INSERT, UPDATE, DELETE, WITH").
Proof.
  split.
  - apply (validateSQLSyntax_spec "SELECT * FROM users WHERE (id = 1").
    + exists "SELECT". split; [simpl; auto | reflexivity].
    + intros [_ H]. vm_compute in H. discriminate.
  - apply (validateSQLSyntax_spec "INVALID QUERY").
    intros (kw & Hin & Hs). simpl in Hin.
    repeat (destruct Hin as [<-|Hin]; [vm_compute in Hs; discriminate|]).
    exact Hin.
Defined.

(** ** QuerySanitizer.extractFromMarkdown *)

Lemma append_eq_split (a b c d : string) :
  a ++ b = c ++ d -> String.length a <= String.length c ->
  exists x, c = a ++ x /\ b = x ++ d.
Proof.
  revert c. induction a as [|x a IH]; intros c H Hlen; simpl in *.
  - now exists c.
  - destruct c as [|y c]; simpl in *; [lia|].
    injection H as -> H. destruct (IH c H ltac:(lia)) as (z & -> & ->).
    now exists z.
Qed.

Section Leftmost.

Context {A : Type} (m : string -> option A).

Lemma search_first (s before : string) (r : A) :
  RegExp.search m s = Some (before, r) ->
  forall x y, s = x ++ y -> String.length x < String.length before ->
              m y = None.
Proof.
  revert before. induction s as [|c s IH]; intros before; simpl.
  - destruct (m EmptyString) as [r0|]; [|discriminate].
    intros [= <- <-] x y _ Hl. simpl in Hl. lia.
  - destruct (m (String c s)) as [r0|] eqn:E.
    + intros [= <- <-] x y _ Hl. simpl in Hl. lia.
    + destruct (RegExp.search m s) as [[bf r1]|] eqn:Es; [|discriminate].
      intros [= <- <-] x y Hxy Hl. destruct x as [|d x]; simpl in *.
      * now subst y.
      * injection Hxy as -> ->. apply (IH _ eq_refl x y eq_refl). lia.
Qed.

Lemma search_complete (before here : string) (r : A) :
  (forall a b, before ++ here = a ++ b ->
               String.length a < String.length before -> m b = None) ->
  m here = Some r ->
  RegExp.search m (before ++ here) = Some (before, r).
Proof.
  induction before as [|c before IH]; intros Hfirst Hm.
  - simpl. destruct here; simpl; now rewrite Hm.
  - simpl. rewrite (Hfirst EmptyString (String c (before ++ here)) eq_refl)
      by (simpl; lia).
    rewrite IH; [reflexivity | | exact Hm].
    intros a b Hab Hl. apply (Hfirst (String c a) b).
    + simpl. now rewrite Hab.
    + simpl. lia.
Qed.

End Leftmost.

Lemma literal_sound (ci : bool) (p s : string) (r : RegExp.MatchResult) :
  RegExp.literal ci p s = Some r ->
  s = RegExp.matched r ++ RegExp.rest r
  /\ (if ci then JS.toUpperCase (RegExp.matched r) = JS.toUpperCase p
      else RegExp.matched r = p).
Proof.
  unfold RegExp.literal.
  destruct (RegExp.lit ci p s) as [[mt rs]|] eqn:E; [|discriminate].
  intros [= <-]. simpl. now apply lit_sound.
Qed.

Lemma literal_here (p r : string) :
  RegExp.literal false p (p ++ r) = Some (RegExp.mkMatch p EmptyString r).
Proof.
  unfold RegExp.literal. now rewrite (lit_complete false p p r eq_refl).
Qed.

Lemma literal_none (p s : string) :
  RegExp.literal false p s = None -> forall r, s <> p ++ r.
Proof.
  intros H r ->. rewrite literal_here in H. discriminate.
Qed.

(** What a successful search for a fenced block says about the text. *)
Lemma fencedBlock_sound (opener text before : string)
      (r : RegExp.MatchResult) :
  RegExp.search (RegExp.fencedBlock opener) text = Some (before, r) ->
  firstBlock opener text (RegExp.group1 r).
Proof.
  intros Hs. pose proof (search_first _ _ _ _ Hs) as Hfirst.
  apply search_sound in Hs. destruct Hs as (here & -> & Hm).
  unfold RegExp.fencedBlock in Hm.
  destruct (RegExp.lit false opener here) as [[o r1]|] eqn:El; [|discriminate].
  destruct (RegExp.search (RegExp.literal false "```") r1)
    as [[body close]|] eqn:Ec; [|discriminate].
  injection Hm as <-. simpl.
  apply lit_sound in El. destruct El as (-> & ->).
  pose proof (search_first _ _ _ _ Ec) as Hclose.
  apply search_sound in Ec. destruct Ec as (h2 & -> & Hc).
  apply literal_sound in Hc. destruct Hc as (-> & Hc).
  exists before, (RegExp.rest close). rewrite Hc in *. repeat split.
  - intros a b Hab.
    destruct (Nat.le_gt_cases (String.length before) (String.length a))
      as [Hle|Hlt]; [exact Hle | exfalso].
    specialize (Hfirst a (opener ++ b) Hab Hlt).
    unfold RegExp.fencedBlock in Hfirst.
    rewrite (lit_complete false opener opener b eq_refl) in Hfirst.
    assert (exists x, b = x ++ "```" ++ RegExp.rest close) as (x & ->).
    { assert ((a ++ opener) ++ b
              = (before ++ opener) ++ body ++ "```" ++ RegExp.rest close)
        as Hab' by (rewrite !append_assoc; symmetry; exact Hab).
      apply append_eq_split in Hab'; [|rewrite !length_append; lia].
      destruct Hab' as (x & _ & ->).
      exists (x ++ body). rewrite !append_assoc. reflexivity. }
    destruct (RegExp.search (RegExp.literal false "```")
                (x ++ "```" ++ RegExp.rest close)) as [[? ?]|] eqn:E;
      [discriminate|].
    apply search_none_suffix in E. rewrite literal_here in E. discriminate.
  - intros a b Hab.
    destruct (Nat.le_gt_cases (String.length body) (String.length a))
      as [Hle|Hlt]; [exact Hle | exfalso].
    specialize (Hclose a ("```" ++ b) Hab Hlt).
    rewrite literal_here in Hclose. discriminate.
Qed.

(** Conversely, the first block is what the search finds. *)
Lemma fencedBlock_complete (opener text body : string) :
  firstBlock opener text body ->
  exists before r,
    RegExp.search (RegExp.fencedBlock opener) text = Some (before, r)
    /\ RegExp.group1 r = body.
Proof.
  intros (before & after & -> & Hfirst & Hclose).
  exists before. eexists. split.
  - apply search_complete.
    + intros a b Hab Hlt. unfold RegExp.fencedBlock.
      destruct (RegExp.lit false opener b) as [[o r1]|] eqn:El; [|reflexivity].
      apply lit_sound in El. destruct El as (-> & ->).
      specialize (Hfirst a r1 Hab). lia.
    + unfold RegExp.fencedBlock.
      rewrite (lit_complete false opener opener _ eq_refl).
      rewrite (search_complete _ body ("```" ++ after)
                 (RegExp.mkMatch "```" EmptyString after)).
      * reflexivity.
      * intros a b Hab Hlt.
        destruct (RegExp.literal false "```" b) as [r|] eqn:E; [|reflexivity].
        apply literal_sound in E. destruct E as (-> & E). rewrite E in Hab.
        specialize (Hclose a (RegExp.rest r) Hab). lia.
      * apply literal_here.
  - reflexivity.
Qed.

Lemma fencedBlock_none (opener text : string) :
  RegExp.search (RegExp.fencedBlock opener) text = None ->
  ~ hasBlock opener text.
Proof.
  intros Hs (a & b & c & ->). apply search_none_suffix in Hs.
  unfold RegExp.fencedBlock in Hs.
  rewrite (lit_complete false opener opener _ eq_refl) in Hs.
  destruct (RegExp.search (RegExp.literal false "```") (b ++ "```" ++ c))
    as [[? ?]|] eqn:E; [discriminate|].
  apply search_none_suffix in E. rewrite literal_here in E. discriminate.
Qed.

Lemma firstBlock_hasBlock (opener text body : string) :
  firstBlock opener text body -> hasBlock opener text.
Proof. intros (before & after & -> & _). now exists before, body, after. Qed.

(** C7, as amended: the trimmed interior of the first block opened by
    [```sql] and a line feed when there is one; otherwise of the first block
    opened by [```] and a line feed (an untagged fence) when there is one;
    otherwise the text itself.  A block that exists has a first one. *)
Theorem extractFromMarkdown_spec (text : string) :
  (forall body, firstBlock sqlOpener text body ->
                QuerySanitizer.extractFromMarkdown text = JS.trim body)
  /\ (~ hasBlock sqlOpener text ->
      forall body, firstBlock plainOpener text body ->
                   QuerySanitizer.extractFromMarkdown text = JS.trim body)
  /\ (~ hasBlock sqlOpener text -> ~ hasBlock plainOpener text ->
      QuerySanitizer.extractFromMarkdown text = text)
  /\ (forall opener, hasBlock opener text ->
                     exists body, firstBlock opener text body).
Proof.
  unfold QuerySanitizer.extractFromMarkdown, QuerySanitizer.sqlBlock,
    QuerySanitizer.codeBlock.
  fold sqlOpener. fold plainOpener.
  repeat match goal with |- _ /\ _ => split end.
  - intros body Hb. apply fencedBlock_complete in Hb.
    destruct Hb as (before & r & -> & <-). reflexivity.
  - intros Hno body Hb.
    destruct (RegExp.search (RegExp.fencedBlock sqlOpener) text)
      as [[bf r]|] eqn:E.
    + apply fencedBlock_sound, firstBlock_hasBlock in E. contradiction.
    + apply fencedBlock_complete in Hb.
      destruct Hb as (before & r & -> & <-). reflexivity.
  - intros Hsql Hplain.
    destruct (RegExp.search (RegExp.fencedBlock sqlOpener) text)
      as [[bf r]|] eqn:E.
    { apply fencedBlock_sound, firstBlock_hasBlock in E. contradiction. }
    destruct (RegExp.search (RegExp.fencedBlock plainOpener) text)
      as [[bf r]|] eqn:E2.
    { apply fencedBlock_sound, firstBlock_hasBlock in E2. contradiction. }
    reflexivity.
  - intros opener Hb.
    destruct (RegExp.search (RegExp.fencedBlock opener) text)
      as [[bf r]|] eqn:E.
    + exists (RegExp.group1 r). eapply fencedBlock_sound. exact E.
    + apply fencedBlock_none in E. contradiction.
Qed.

Lemma extractFromMarkdown_spec_witness :
  let text := "```sql" ++ QuerySanitizer.LF ++ "SELECT * FROM users"
              ++ QuerySanitizer.LF ++ "```" in
  firstBlock sqlOpener text ("SELECT * FROM users" ++ QuerySanitizer.LF)
  /\ QuerySanitizer.extractFromMarkdown text = "SELECT * FROM users".
Proof.
  cbv zeta.
  assert (firstBlock sqlOpener
            ("```sql" ++ QuerySanitizer.LF ++ "SELECT * FROM users"
             ++ QuerySanitizer.LF ++ "```")
            ("SELECT * FROM users" ++ QuerySanitizer.LF)) as Hb.
  { apply (fencedBlock_sound sqlOpener _ EmptyString
             (RegExp.mkMatch
                ("```sql" ++ QuerySanitizer.LF ++ "SELECT * FROM users"
                 ++ QuerySanitizer.LF ++ "```")
                ("SELECT * FROM users" ++ QuerySanitizer.LF) EmptyString)).
    vm_compute. reflexivity. }
  split; [exact Hb|].
  rewrite (proj1 (extractFromMarkdown_spec _) _ Hb). reflexivity.
Defined.

(** C7, as stated, fails on a block with another language tag: the text
    is returned as it is, not the interior of the block. *)
Lemma extractFromMarkdown_other_tag :
  let text := "```js" ++ QuerySanitizer.LF ++ "SELECT 1"
              ++ QuerySanitizer.LF ++ "```" in
  hasBlock ("```js" ++ QuerySanitizer.LF) text
  /\ ~ hasBlock sqlOpener text
  /\ QuerySanitizer.extractFromMarkdown text = text
  /\ QuerySanitizer.extractFromMarkdown text
     <> JS.trim ("SELECT 1" ++ QuerySanitizer.LF).
Proof.
  cbv zeta. repeat split.
  - exists EmptyString, ("SELECT 1" ++ QuerySanitizer.LF), EmptyString.
    reflexivity.
  - apply fencedBlock_none. vm_compute. reflexivity.
  - vm_compute. discriminate.
Qed.

(** ** SecurityValidator.validate *)

Lemma contextSupplied_guard config userContext :
  contextSupplied config userContext ->
  SecurityValidator.truthy (SecurityValidator.requireUserContext config)
  && SecurityValidator.isNone userContext = false.
Proof.
  unfold contextSupplied. intros H.
  destruct (SecurityValidator.truthy _); [|reflexivity].
  destruct userContext; [reflexivity|]. now destruct (H eq_refl).
Qed.

(** Past the two guards, [validate] resolves to the accumulated errors and
    warnings and calls the custom validator, if any, exactly once. *)
Lemma validate_accumulates config query userContext operation :
  contextSupplied config userContext ->
  SecurityValidator.detectOperation query = Some operation ->
  validatorSettles config query userContext ->
  let errors := (policyErrors config operation query
                 ++ customErrors config query userContext)%list in
  SecurityValidator.settled
    (SecurityValidator.validate config query userContext)
  = SecurityValidator.Resolved
      (SecurityValidator.mkResult
         (Nat.eqb (List.length errors) 0) errors
         (snd (SecurityValidator.rowLimitCheck config operation query))).
Proof.
  intros Hctx Hop Hset. cbv zeta.
  unfold SecurityValidator.validate, policyErrors, customErrors,
    SecurityValidator.push.
  rewrite (contextSupplied_guard _ _ Hctx), Hop.
  destruct (SecurityValidator.rowLimitCheck config operation query)
    as [limitErrors warnings].
  cbn [fst snd]. rewrite <- !app_assoc.
  destruct (SecurityValidator.customValidator config) as [validator|] eqn:Ev.
  - destruct (validator query userContext) as [[|]|[message|value]] eqn:Ec;
      cbn [negb SecurityValidator.settled];
      rewrite <- ?app_assoc, ?app_nil_r; try reflexivity.
    now destruct (Hset validator value Ev).
  - cbn [SecurityValidator.settled]. now rewrite app_nil_r.
Qed.

(** C3: when no operation prefix is recognised, and a context is supplied
    if one is required, the run resolves at once to the single error, with
    no warning and without calling the custom validator. *)
Theorem validate_unknown_operation config query userContext :
  contextSupplied config userContext ->
  JS.startsWith (JS.toUpperCase (JS.trim query)) "SELECT" = false ->
  JS.startsWith (JS.toUpperCase (JS.trim query)) "INSERT" = false ->
  JS.startsWith (JS.toUpperCase (JS.trim query)) "UPDATE" = false ->
  JS.startsWith (JS.toUpperCase (JS.trim query)) "DELETE" = false ->
  SecurityValidator.validate config query userContext
  = SecurityValidator.mkRun
      (SecurityValidator.Resolved
         (SecurityValidator.mkResult
            false ["Could not determine query operation"] []))
      [].
Proof.
  intros Hctx Hs Hi Hu Hd. unfold SecurityValidator.validate.
  rewrite (contextSupplied_guard _ _ Hctx).
  unfold SecurityValidator.detectOperation. now rewrite Hs, Hi, Hu, Hd.
Qed.

Lemma validate_unknown_operation_witness :
  SecurityValidator.validate
    (SecurityValidator.new
       (Some (mkSecurityConfig
                (Specified (Some [SELECT])) Unspecified Unspecified
                Unspecified (Specified (Some false)) Unspecified
                (Specified (Some (fun _ _ => Returns false))))))
    "DROP TABLE users" None
  = SecurityValidator.mkRun
      (SecurityValidator.Resolved
         (SecurityValidator.mkResult
            false ["Could not determine query operation"] []))
      [].
Proof.
  apply validate_unknown_operation; try reflexivity.
  intros H. vm_compute in H. discriminate.
Defined.

Lemma dangerousError_shape (query e : string) :
  In e (SecurityValidator.dangerousError query) ->
  e = "Query contains dangerous patterns: "
      ++ JS.join ", " (SecurityValidator.detectDangerousPatterns query).
Proof.
  unfold SecurityValidator.dangerousError.
  destruct (0 <? _)%nat; simpl; [intros [H|[]]; now subst | tauto].
Qed.

Lemma rowLimit_error_shape config operation (query e : string) :
  In e (fst (SecurityValidator.rowLimitCheck config operation query)) ->
  exists t, e = "LIMIT " ++ t.
Proof.
  unfold SecurityValidator.rowLimitCheck.
  destruct operation; simpl; try tauto.
  destruct (RegExp.test RegExp.limitClause query); simpl; try tauto.
  destruct (RegExp.search RegExp.limitClause query) as [[before m]|];
    simpl; try tauto.
  destruct (SecurityValidator.exceeds _ _); simpl; try tauto.
  intros [<-|[]]. eexists. reflexivity.
Qed.

Lemma nonempty_invalid (errors : list string) (e : string) :
  In e errors -> Nat.eqb (List.length errors) 0 = false.
Proof. destruct errors; simpl; [tauto | reflexivity]. Qed.


(** C10: the constructor fills in the defaults, a property that is written
    overrides its default, and the default configuration asks for a user
    context and allows SELECT only. *)
Theorem constructor_defaults :
  SecurityValidator.new None
  = SecurityValidator.mkConfig (Some [SELECT]) (Some []) (Some [])
      (Some 1000%Z) (Some true) (Some true) None
  /\ SecurityValidator.new (Some emptyConfig) = SecurityValidator.new None
  /\ (forall supplied : SecurityConfig,
        let config := SecurityValidator.new (Some supplied) in
        SecurityValidator.allowedOperations config
        = match cfg_allowedOperations supplied with
          | Unspecified => Some [SELECT] | Specified v => v end
        /\ SecurityValidator.allowedTables config
           = match cfg_allowedTables supplied with
             | Unspecified => Some [] | Specified v => v end
        /\ SecurityValidator.restrictedColumns config
           = match cfg_restrictedColumns supplied with
             | Unspecified => Some [] | Specified v => v end
        /\ SecurityValidator.maxRowLimit config
           = match cfg_maxRowLimit supplied with
             | Unspecified => Some 1000%Z | Specified v => v end
        /\ SecurityValidator.requireUserContext config
           = match cfg_requireUserContext supplied with
             | Unspecified => Some true | Specified v => v end
        /\ SecurityValidator.enableRowLevelSecurity config
           = match cfg_enableRowLevelSecurity supplied with
             | Unspecified => Some true | Specified v => v end
        /\ SecurityValidator.customValidator config
           = match cfg_customValidator supplied with
             | Unspecified => None | Specified v => v end)
  /\ (forall query,
        SecurityValidator.validate (SecurityValidator.new None) query None
        = SecurityValidator.mkRun
            (SecurityValidator.Resolved
               (SecurityValidator.mkResult
                  false ["User context is required but not provided"] []))
            [])
  /\ (forall query userContext operation,
        SecurityValidator.detectOperation query = Some operation ->
        exists r,
          SecurityValidator.settled
            (SecurityValidator.validate (SecurityValidator.new None) query
               (Some userContext))
          = SecurityValidator.Resolved r
          /\ (In (notAllowedByDefault operation) (SecurityValidator.errors r)
              <-> operation <> SELECT)).
Proof.
  split; [reflexivity|]. split; [reflexivity|]. split.
  { intros supplied. cbv zeta. repeat split. }
  split; [reflexivity|].
  intros query userContext operation Hop.
  eexists. split.
  { apply validate_accumulates; [discriminate | exact Hop | discriminate]. }
  cbn [SecurityValidator.errors]. unfold customErrors. simpl.
  rewrite app_nil_r. unfold policyErrors.
  change (SecurityValidator.restrictedError (SecurityValidator.new None) query)
    with (@nil string).
  change (SecurityValidator.tableError (SecurityValidator.new None) query)
    with (@nil string).
  simpl app. rewrite !in_app_iff.
  assert (forall e,
             In e (SecurityValidator.dangerousError query)
             \/ In e (fst (SecurityValidator.rowLimitCheck
                             (SecurityValidator.new None) operation query)) ->
             JS.startsWith e "O" = false) as Hother.
  { intros e [H|H].
    - apply dangerousError_shape in H. now subst.
    - apply rowLimit_error_shape in H. destruct H as [t ->]. reflexivity. }
  split.
  - intros [H|H] ->.
    + simpl in H. exact H.
    + apply Hother in H. discriminate.
  - intros Hne. left. destruct operation; simpl; auto; congruence.
Qed.

Lemma constructor_defaults_witness :
  SecurityValidator.settled
     (SecurityValidator.validate (SecurityValidator.new None)
        "INSERT INTO users VALUES (1)"
        (Some (mkUserContext (IdNumber 123) "user" None None)))
  = SecurityValidator.Resolved
      (SecurityValidator.mkResult false
         ["Operation INSERT is not allowed. Allowed operations: SELECT"] [])
  /\ exists r,
      SecurityValidator.settled
        (SecurityValidator.validate (SecurityValidator.new None)
           "INSERT INTO users VALUES (1)"
           (Some (mkUserContext (IdNumber 123) "user" None None)))
      = SecurityValidator.Resolved r
      /\ (In (notAllowedByDefault INSERT) (SecurityValidator.errors r)
          <-> INSERT <> SELECT).
Proof.
  split; [vm_compute; reflexivity|].
  apply (proj2 (proj2 (proj2 (proj2 constructor_defaults)))).
  vm_compute. reflexivity.
Defined.

(** C6: what [validate] does with a configured custom validator once the
    two guards are passed.  It calls the validator once, with the query and
    the user context.  A [false] result and a thrown value with a readable
    [message] become errors of a resolved, invalid result.  A thrown [null]
    or [undefined] makes the handler itself fail, and the run rejects. *)
Theorem custom_validator_outcomes config query userContext validator
        operation :
  SecurityValidator.customValidator config = Some validator ->
  contextSupplied config userContext ->
  SecurityValidator.detectOperation query = Some operation ->
  let run := SecurityValidator.validate config query userContext in
  let errors := policyErrors config operation query in
  let warnings :=
    snd (SecurityValidator.rowLimitCheck config operation query) in
  SecurityValidator.customCalls run = [(query, userContext)]
  /\ match validator query userContext with
     | Returns true =>
         SecurityValidator.settled run
         = SecurityValidator.Resolved
             (SecurityValidator.mkResult
                (Nat.eqb (List.length errors) 0) errors warnings)
     | Returns false =>
         SecurityValidator.settled run
         = SecurityValidator.Resolved
             (SecurityValidator.mkResult
                false (errors ++ ["Custom validation failed"]) warnings)
     | Throws (ThrownValue message) =>
         SecurityValidator.settled run
         = SecurityValidator.Resolved
             (SecurityValidator.mkResult
                false
                (errors ++ ["Custom validation error: "
                            ++ SecurityValidator.showMessage message])
                warnings)
     | Throws (ThrownNullish _) =>
         exists reason,
           SecurityValidator.settled run = SecurityValidator.Rejected reason
     end.
Proof.
  intros Hv Hctx Hop. cbv zeta.
  unfold SecurityValidator.validate, policyErrors, SecurityValidator.push.
  rewrite (contextSupplied_guard _ _ Hctx), Hop, Hv.
  destruct (SecurityValidator.rowLimitCheck config operation query)
    as [limitErrors warnings].
  cbn [fst snd]. rewrite <- !app_assoc.
  destruct (validator query userContext) as [[|]|[message|]];
    cbn [negb SecurityValidator.settled SecurityValidator.customCalls];
    (split; [reflexivity|]); rewrite <- ?app_assoc.
  - reflexivity.
  - rewrite (nonempty_invalid _ "Custom validation failed"); [reflexivity|].
    rewrite !in_app_iff. simpl. tauto.
  - rewrite (nonempty_invalid _ ("Custom validation error: "
                                 ++ SecurityValidator.showMessage message));
      [reflexivity|].
    rewrite !in_app_iff. simpl. tauto.
  - eexists. reflexivity.
Qed.

(** The failing input of C6: a custom validator that throws [null]. *)
Lemma custom_validator_outcomes_witness :
  let config :=
    SecurityValidator.new
      (Some (mkSecurityConfig
               (Specified (Some [SELECT])) Unspecified Unspecified
               Unspecified (Specified (Some false)) Unspecified
               (Specified (Some (fun _ _ => Throws (ThrownNullish null)))))) in
  let run := SecurityValidator.validate config "SELECT * FROM users" None in
  SecurityValidator.customCalls run = [("SELECT * FROM users", None)]
  /\ exists reason,
      SecurityValidator.settled run = SecurityValidator.Rejected reason.
Proof.
  cbv zeta.
  apply (custom_validator_outcomes
           (SecurityValidator.new
              (Some (mkSecurityConfig
                       (Specified (Some [SELECT])) Unspecified Unspecified
                       Unspecified (Specified (Some false)) Unspecified
                       (Specified (Some (fun _ _ => Throws (ThrownNullish null)))))))
           "SELECT * FROM users" None (fun _ _ => Throws (ThrownNullish null))
           SELECT).
  - reflexivity.
  - intros H. vm_compute in H. discriminate.
  - reflexivity.
Defined.

Lemma includes_middle (a x b p : string) :
  JS.includes x p = true -> JS.includes (a ++ x ++ b) p = true.
Proof.
  intros H. apply includes_split in H. destruct H as (u & v & ->).
  replace (a ++ (u ++ p ++ v) ++ b) with ((a ++ u) ++ p ++ (v ++ b))
    by now rewrite !append_assoc.
  apply includes_append.
Qed.

Lemma join_head (sep x : string) (xs : list string) :
  JS.join sep (x :: xs)
  = x ++ match xs with
         | [] => EmptyString
         | _ :: _ => sep ++ JS.join sep xs
         end.
Proof. destruct xs; simpl; [now rewrite append_nil_r | reflexivity]. Qed.

Lemma includes_join_head (a sep x p : string) (xs : list string) :
  JS.includes x p = true ->
  JS.includes (a ++ JS.join sep (x :: xs)) p = true.
Proof. intros H. rewrite join_head. now apply includes_middle. Qed.

(** Once the guards are passed, a query that contains a semicolon and
    whose trimmed text does not end with one is invalid; the
    multiple-statement indicator is the first name of the one combined
    dangerous-patterns error. *)
Lemma multiple_statements_invalid config query userContext operation :
  contextSupplied config userContext ->
  SecurityValidator.detectOperation query = Some operation ->
  validatorSettles config query userContext ->
  JS.includes query ";" = true ->
  JS.endsWith (JS.trim query) ";" = false ->
  exists r others,
    SecurityValidator.settled
      (SecurityValidator.validate config query userContext)
    = SecurityValidator.Resolved r
    /\ SecurityValidator.valid r = false
    /\ SecurityValidator.detectDangerousPatterns query
       = "Multiple statements detected" :: others
    /\ SecurityValidator.dangerousError query
       = ["Query contains dangerous patterns: "
          ++ JS.join ", " ("Multiple statements detected" :: others)]
    /\ In ("Query contains dangerous patterns: "
           ++ JS.join ", " ("Multiple statements detected" :: others))
          (SecurityValidator.errors r)
    /\ JS.includes ("Query contains dangerous patterns: "
                    ++ JS.join ", " ("Multiple statements detected" :: others))
                   "Multiple statements" = true.
Proof.
  intros Hctx Hop Hset Hsemi Hend.
  eexists. eexists.
  assert (SecurityValidator.detectDangerousPatterns query
          = "Multiple statements detected"
              :: map SecurityValidator.patternName
                   (filter (fun pattern =>
                              SecurityValidator.patternTest
                                pattern (JS.toUpperCase query))
                           SecurityValidator.commandPatterns)) as Hd.
  { unfold SecurityValidator.detectDangerousPatterns.
    now rewrite Hsemi, Hend. }
  assert (SecurityValidator.dangerousError query
          = ["Query contains dangerous patterns: "
             ++ JS.join ", " (SecurityValidator.detectDangerousPatterns query)])
    as He.
  { unfold SecurityValidator.dangerousError. now rewrite Hd. }
  assert (In ("Query contains dangerous patterns: "
              ++ JS.join ", " (SecurityValidator.detectDangerousPatterns query))
             (policyErrors config operation query
              ++ customErrors config query userContext)) as Hin.
  { unfold policyErrors. rewrite He, !in_app_iff. simpl. tauto. }
  split; [apply (validate_accumulates _ _ _ _ Hctx Hop Hset)|].
  cbn [SecurityValidator.valid SecurityValidator.errors].
  split; [exact (nonempty_invalid _ _ Hin)|].
  split; [exact Hd|]. rewrite <- Hd.
  split; [exact He|]. split; [exact Hin|].
  rewrite Hd. apply includes_join_head. reflexivity.
Qed.

Lemma pattern_names_fixed (query : string) :
  ~ In "Multiple statements detected"
       (map SecurityValidator.patternName
            (filter (fun pattern =>
                       SecurityValidator.patternTest
                         pattern (JS.toUpperCase query))
                    SecurityValidator.commandPatterns)).
Proof.
  intros H. apply in_map_iff in H. destruct H as (pattern & Hname & Hin).
  apply filter_In in Hin. destruct Hin as [Hin _].
  unfold SecurityValidator.commandPatterns in Hin. simpl in Hin.
  repeat (destruct Hin as [<-|Hin]; [discriminate|]). contradiction.
Qed.

(** C2.  The test behind the multiple-statement indicator, against the
    claim.  The indicator is reported exactly when the query contains a
    semicolon and its trimmed text does not end with one: a semicolon at
    the very end switches the test off, however many semicolons stand
    before it.  So the query of the claim is invalid with the indicator
    in its error, and two statements that are both closed by a semicolon
    are not reported and get a valid verdict. *)
Theorem multiple_statements_test :
  (forall query,
      In "Multiple statements detected"
         (SecurityValidator.detectDangerousPatterns query)
      <-> JS.includes query ";" = true
          /\ JS.endsWith (JS.trim query) ";" = false)
  /\ (forall config query userContext operation,
        contextSupplied config userContext ->
        SecurityValidator.detectOperation query = Some operation ->
        validatorSettles config query userContext ->
        In "Multiple statements detected"
           (SecurityValidator.detectDangerousPatterns query) ->
        exists r,
          SecurityValidator.settled
            (SecurityValidator.validate config query userContext)
          = SecurityValidator.Resolved r
          /\ SecurityValidator.valid r = false
          /\ exists e,
              In e (SecurityValidator.errors r)
              /\ JS.includes e "Multiple statements" = true)
  /\ SecurityValidator.validate
       (SecurityValidator.new (Some injectionConfig))
       "SELECT * FROM users; DROP TABLE users" None
     = SecurityValidator.mkRun
         (SecurityValidator.Resolved
            (SecurityValidator.mkResult false
               ["Query contains dangerous patterns: Multiple statements detected, DROP"]
               ["Query does not have a LIMIT clause. Maximum 1000 rows will be enforced."]))
         []
  /\ SecurityValidator.validate
       (SecurityValidator.new (Some injectionConfig))
       "SELECT * FROM users; SELECT * FROM orders;" None
     = SecurityValidator.mkRun
         (SecurityValidator.Resolved
            (SecurityValidator.mkResult true []
               ["Query does not have a LIMIT clause. Maximum 1000 rows will be enforced."]))
         [].
Proof.
  assert (forall query,
             In "Multiple statements detected"
                (SecurityValidator.detectDangerousPatterns query)
             <-> JS.includes query ";" = true
                 /\ JS.endsWith (JS.trim query) ";" = false) as Htest.
  { intros query. unfold SecurityValidator.detectDangerousPatterns.
    destruct (JS.includes query ";"); cbn [andb];
      [destruct (JS.endsWith (JS.trim query) ";"); cbn [negb]|].
    - split; [intros H; now apply pattern_names_fixed in H|].
      intros [_ H]. discriminate.
    - split; [now split | intros _; now left].
    - split; [intros H; now apply pattern_names_fixed in H|].
      intros [H _]. discriminate. }
  split; [exact Htest|]. split; [|split; reflexivity].
  intros config query userContext operation Hctx Hop Hset Hin.
  apply Htest in Hin. destruct Hin as [Hsemi Hend].
  destruct (multiple_statements_invalid config query userContext operation
              Hctx Hop Hset Hsemi Hend)
    as (r & others & Hrun & Hvalid & _ & _ & Hin & Hmention).
  exists r. split; [exact Hrun|]. split; [exact Hvalid|].
  eexists. split; [exact Hin | exact Hmention].
Qed.

(** The failing input of C2: a semicolon between the two statements and
    one at the end. *)
Lemma multiple_statements_test_witness :
  JS.includes "SELECT * FROM users; SELECT * FROM orders;" ";" = true
  /\ (In "Multiple statements detected"
         (SecurityValidator.detectDangerousPatterns
            "SELECT * FROM users; SELECT * FROM orders;")
      <-> JS.includes "SELECT * FROM users; SELECT * FROM orders;" ";" = true
          /\ JS.endsWith (JS.trim "SELECT * FROM users; SELECT * FROM orders;")
                         ";" = false)
  /\ JS.endsWith (JS.trim "SELECT * FROM users; SELECT * FROM orders;") ";"
     = true.
Proof.
  split; [reflexivity|]. split; [|reflexivity].
  exact (proj1 multiple_statements_test
           "SELECT * FROM users; SELECT * FROM orders;").
Defined.

(** ** The row limit *)






(** ** SecurityValidator.addRowLevelSecurity *)

Lemma includes_char_cons (c x : ascii) (s : string) :
  JS.includes (String x s) (String c EmptyString)
  = Ascii.eqb c x || JS.includes s (String c EmptyString).
Proof. simpl. now rewrite andb_true_r. Qed.

Lemma includes_char_append (c : ascii) (a b : string) :
  JS.includes (a ++ b) (String c EmptyString)
  = JS.includes a (String c EmptyString)
    || JS.includes b (String c EmptyString).
Proof.
  induction a as [|x a IH].
  - reflexivity.
  - change (String x a ++ b) with (String x (a ++ b)).
    now rewrite !includes_char_cons, IH, orb_assoc.
Qed.

(** A replacement text without a dollar sign stands for itself. *)
Lemma GetSubstitution_plain (matchedText before after replacement : string) :
  JS.includes replacement "$" = false ->
  RegExp.GetSubstitution matchedText before after replacement = replacement.
Proof.
  induction replacement as [|x t IH]; [reflexivity|].
  rewrite includes_char_cons. intros H.
  apply orb_false_iff in H. destruct H as [Hx Ht].
  cbn [RegExp.GetSubstitution]. rewrite Ascii.eqb_sym, Hx. now rewrite IH.
Qed.

Lemma replace_found (m : string -> option RegExp.MatchResult)
      (replacement s : string) :
  RegExp.test m s = true ->
  JS.includes replacement "$" = false ->
  exists before after,
    RegExp.replace m replacement s = before ++ replacement ++ after.
Proof.
  unfold RegExp.test, RegExp.replace. intros Ht Hplain.
  destruct (RegExp.search m s) as [[before r]|]; [|discriminate].
  exists before, (RegExp.rest r). now rewrite GetSubstitution_plain.
Qed.

(** Where the literal of a string user id stands in the result: it is
    the user id between two single quotes.  This is shown when the filter
    is appended (the query has neither ORDER BY nor LIMIT), and when it is
    spliced in front of one of them for a user id without a dollar
    sign. *)
Lemma rls_string_literal config query uid userRole perms meta operation :
  SecurityValidator.truthy (SecurityValidator.enableRowLevelSecurity config)
  = true ->
  SecurityValidator.detectOperation query = Some operation ->
  operation <> INSERT ->
  RegExp.test (RegExp.sameLine "WHERE" "user_id") query = false ->
  JS.includes uid "$" = false
  \/ (RegExp.test (RegExp.literal true "ORDER BY") query = false
      /\ RegExp.test (RegExp.literal true "LIMIT") query = false) ->
  let result :=
    SecurityValidator.addRowLevelSecurity config query
      (Some (mkUserContext (IdString uid) userRole perms meta)) in
  JS.includes result ("user_id = '" ++ uid ++ "'") = true
  /\ (RegExp.test (RegExp.literal true "ORDER BY") query = false ->
      RegExp.test (RegExp.literal true "LIMIT") query = false ->
      result
      = query
        ++ (if RegExp.test (RegExp.literal true "WHERE") query
            then " AND" else " WHERE")
        ++ " user_id = '" ++ uid ++ "'").
Proof.
  intros Hen Hop Hins Hfilter Hcase. cbv zeta.
  unfold SecurityValidator.addRowLevelSecurity.
  rewrite Hen, Hop, Hfilter.
  cbn [negb userId SecurityValidator.showUserId].
  set (connector := if RegExp.test (RegExp.literal true "WHERE") query
                    then " AND" else " WHERE").
  assert (forall tail,
             (connector ++ " user_id = " ++ "'" ++ uid ++ "'") ++ tail
             = (connector ++ " ") ++ ("user_id = '" ++ uid ++ "'") ++ tail)
    as Hshape.
  { intros tail. rewrite !append_assoc. reflexivity. }
  assert (forall tail,
             JS.includes uid "$" = false -> JS.includes tail "$" = false ->
             JS.includes
               ((connector ++ " user_id = " ++ "'" ++ uid ++ "'") ++ tail) "$"
             = false) as Hplain.
  { intros tail Hu Ht. rewrite !includes_char_append, Hu, Ht.
    unfold connector.
    destruct (RegExp.test (RegExp.literal true "WHERE") query);
      reflexivity. }
  assert (match operation with
          | INSERT => False
          | _ => True
          end) as Hop' by (destruct operation; auto).
  destruct (RegExp.test (RegExp.literal true "ORDER BY") query) eqn:Eo;
    [|destruct (RegExp.test (RegExp.literal true "LIMIT") query) eqn:El].
  - destruct Hcase as [Hu|[? _]]; [|discriminate].
    destruct (replace_found (RegExp.literal true "ORDER BY")
                ((connector ++ " user_id = " ++ "'" ++ uid ++ "'")
                 ++ " ORDER BY") query Eo (Hplain " ORDER BY" Hu eq_refl))
      as (before & after & Hr).
    destruct operation; try contradiction;
      (split; [|discriminate]); rewrite Hr, Hshape;
      apply includes_middle, includes_append.
  - destruct Hcase as [Hu|[_ ?]]; [|discriminate].
    destruct (replace_found (RegExp.literal true "LIMIT")
                ((connector ++ " user_id = " ++ "'" ++ uid ++ "'")
                 ++ " LIMIT") query El (Hplain " LIMIT" Hu eq_refl))
      as (before & after & Hr).
    destruct operation; try contradiction;
      (split; [|discriminate]); rewrite Hr, Hshape;
      apply includes_middle, includes_append.
  - assert (query ++ connector ++ " user_id = " ++ "'" ++ uid ++ "'"
            = (query ++ connector ++ " ")
              ++ ("user_id = '" ++ uid ++ "'") ++ EmptyString) as Hr
        by (rewrite !append_assoc; reflexivity).
    destruct operation; try contradiction;
      (split; [|intros _ _; reflexivity]);
      rewrite Hr; apply includes_append.
Qed.

Lemma escapeValue_length (value : string) :
  String.length (QuerySanitizer.escapeValue value)
  = String.length value + JS.countChar "'" value.
Proof.
  induction value as [|c value IH]; [reflexivity|].
  cbn [QuerySanitizer.escapeValue JS.countChar].
  rewrite (Ascii.eqb_sym "'" c).
  destruct (Ascii.eqb c "'"); cbn [String.length]; rewrite IH; lia.
Qed.

Lemma countChar_includes (c : ascii) (s : string) :
  JS.includes s (String c EmptyString) = true -> 0 < JS.countChar c s.
Proof.
  induction s as [|x s IH]; [discriminate|].
  rewrite includes_char_cons. cbn [JS.countChar].
  destruct (Ascii.eqb c x); [lia | exact IH].
Qed.

Lemma countChar_excludes (c : ascii) (s : string) :
  JS.includes s (String c EmptyString) = false -> JS.countChar c s = 0.
Proof.
  induction s as [|x s IH]; [reflexivity|].
  rewrite includes_char_cons. cbn [JS.countChar].
  destruct (Ascii.eqb c x); [discriminate | exact IH].
Qed.

Lemma escapeValue_plain (value : string) :
  JS.includes value "'" = false -> QuerySanitizer.escapeValue value = value.
Proof.
  induction value as [|c value IH]; [reflexivity|].
  rewrite includes_char_cons. intros H.
  apply orb_false_iff in H. destruct H as [Hc Hs].
  cbn [QuerySanitizer.escapeValue]. rewrite Ascii.eqb_sym, Hc.
  now rewrite (IH Hs).
Qed.

(** C1.  What the code does with a string user id, against the claim.
    The literal in the result is the user id between two single quotes,
    as it is: [escapeValue] is not applied.  For a user id without a
    single quote this is the literal of the claim.  For a user id with a
    single quote it is not: when the filter is appended (the query has
    neither ORDER BY nor LIMIT) the result is not the one with the quotes
    doubled, and the quote of the user id ends the literal. *)
Theorem rls_string_id_not_escaped config query uid userRole perms meta
        operation :
  SecurityValidator.truthy (SecurityValidator.enableRowLevelSecurity config)
  = true ->
  SecurityValidator.detectOperation query = Some operation ->
  operation <> INSERT ->
  RegExp.test (RegExp.sameLine "WHERE" "user_id") query = false ->
  JS.includes uid "$" = false
  \/ (RegExp.test (RegExp.literal true "ORDER BY") query = false
      /\ RegExp.test (RegExp.literal true "LIMIT") query = false) ->
  let result :=
    SecurityValidator.addRowLevelSecurity config query
      (Some (mkUserContext (IdString uid) userRole perms meta)) in
  let appended (literal : string) :=
    query
    ++ (if RegExp.test (RegExp.literal true "WHERE") query
        then " AND" else " WHERE")
    ++ " user_id = '" ++ literal ++ "'" in
  JS.includes result ("user_id = '" ++ uid ++ "'") = true
  /\ (JS.includes uid "'" = false ->
      QuerySanitizer.escapeValue uid = uid)
  /\ (RegExp.test (RegExp.literal true "ORDER BY") query = false ->
      RegExp.test (RegExp.literal true "LIMIT") query = false ->
      result = appended uid
      /\ (JS.includes uid "'" = true ->
          result <> appended (QuerySanitizer.escapeValue uid))).
Proof.
  intros Hen Hop Hins Hfilter Hcase. cbv zeta.
  destruct (rls_string_literal config query uid userRole perms meta operation
              Hen Hop Hins Hfilter Hcase) as [Hin Happ].
  split; [exact Hin|]. split; [exact (escapeValue_plain uid)|].
  intros Ho Hl. specialize (Happ Ho Hl). split; [exact Happ|].
  intros Hquote Heq. rewrite Happ in Heq.
  apply (f_equal String.length) in Heq.
  rewrite !length_append, escapeValue_length in Heq.
  apply countChar_includes in Hquote. lia.
Qed.

(** The failing input of C1: the user id [o'brien]. *)
Lemma rls_string_id_not_escaped_witness :
  SecurityValidator.addRowLevelSecurity (SecurityValidator.new None)
    "SELECT * FROM orders"
    (Some (mkUserContext (IdString "o'brien") "user" None None))
  = "SELECT * FROM orders WHERE user_id = 'o'brien'"
  /\ SecurityValidator.addRowLevelSecurity (SecurityValidator.new None)
       "SELECT * FROM orders"
       (Some (mkUserContext (IdString "o'brien") "user" None None))
     <> "SELECT * FROM orders WHERE user_id = 'o''brien'".
Proof.
  destruct (rls_string_id_not_escaped (SecurityValidator.new None)
              "SELECT * FROM orders" "o'brien" "user" None None SELECT
              eq_refl eq_refl ltac:(discriminate) eq_refl
              (or_introl eq_refl)) as (_ & _ & Happ).
  destruct (Happ eq_refl eq_refl) as [Heq Hne].
  split; [exact Heq | exact (Hne eq_refl)].
Defined.

(** In front of ORDER BY the filter is the replacement text of a
    [replace], in which a dollar sign followed by an ampersand stands for
    the matched text. *)
Lemma rls_dollar_pattern :
  SecurityValidator.addRowLevelSecurity (SecurityValidator.new None)
    "SELECT * FROM orders order by id"
    (Some (mkUserContext (IdString "$&") "user" None None))
  = "SELECT * FROM orders  WHERE user_id = 'order by' ORDER BY id".
Proof. reflexivity. Qed.

(** ** QueryGenerator.estimateComplexity *)

Lemma lit_startsWith (p s : string) :
  RegExp.isSome (RegExp.lit false p s) = JS.startsWith s p.
Proof.
  revert s. induction p as [|a p IH]; intros s; [reflexivity|].
  destruct s as [|b s]; [reflexivity|]. simpl. unfold RegExp.charMatches.
  destruct (Ascii.eqb a b); [|reflexivity]. rewrite <- IH.
  now destruct (RegExp.lit false p s) as [[? ?]|].
Qed.

Lemma literal_startsWith (p s : string) :
  RegExp.isSome (RegExp.literal false p s) = JS.startsWith s p.
Proof.
  rewrite <- lit_startsWith. unfold RegExp.literal.
  now destruct (RegExp.lit false p s) as [[? ?]|].
Qed.

(** The leftmost match of a literal and the positions before it. *)
Lemma search_literal_occurrences (p s : string) :
  match RegExp.search (RegExp.literal false p) s with
  | None => occurrences p s = 0
  | Some (before, r) =>
      RegExp.matched r = p
      /\ s = before ++ p ++ RegExp.rest r
      /\ occurrences p s = occurrences p (p ++ RegExp.rest r)
  end.
Proof.
  induction s as [|c s IH].
  - simpl. pose proof (literal_startsWith p EmptyString) as Hl.
    destruct (RegExp.literal false p EmptyString) as [r|] eqn:E.
    + apply literal_sound in E. destruct E as (E & Hm).
      rewrite Hm in E. rewrite <- E. auto.
    + simpl in Hl. simpl. now rewrite <- Hl.
  - cbn [RegExp.search]. pose proof (literal_startsWith p (String c s)) as Hl.
    destruct (RegExp.literal false p (String c s)) as [r|] eqn:E.
    + apply literal_sound in E. destruct E as (E & Hm).
      rewrite Hm in E. rewrite <- E. auto.
    + destruct (RegExp.search (RegExp.literal false p) s) as [[before r]|].
      * destruct IH as (Hm & -> & Ho). repeat split; [exact Hm|].
        cbn [occurrences]. rewrite <- Hl. simpl. exact Ho.
      * cbn [occurrences]. rewrite <- Hl. simpl. exact IH.
Qed.

Lemma occurrences_join (s : string) :
  occurrences "join" ("join" ++ s) = S (occurrences "join" s).
Proof. reflexivity. Qed.

Lemma matchAll_join_fuel (fuel : nat) :
  forall s, String.length s <= fuel ->
    List.length (RegExp.matchAllFuel fuel (RegExp.literal false "join") s)
    = occurrences "join" s.
Proof.
  induction fuel as [|fuel IH]; intros s Hlen.
  - destruct s; [reflexivity | simpl in Hlen; lia].
  - cbn [RegExp.matchAllFuel].
    pose proof (search_literal_occurrences "join" s) as Hs.
    destruct (RegExp.search (RegExp.literal false "join") s)
      as [[before r]|].
    + destruct Hs as (_ & Hsplit & ->). rewrite occurrences_join.
      cbn [List.length]. f_equal. apply IH.
      rewrite Hsplit, !length_append in Hlen. simpl in Hlen. lia.
    + now rewrite Hs.
Qed.

Lemma matchAll_join (s : string) :
  List.length (RegExp.matchAll (RegExp.literal false "join") s)
  = occurrences "join" s.
Proof. apply matchAll_join_fuel. lia. Qed.

Lemma anyGap_select (q : string) :
  RegExp.test (RegExp.anyGap "select" "select") q = true <-> hasTwoSelects q.
Proof.
  split.
  - intros H. apply test_true in H.
    destruct H as (a & here & r & -> & Hm). unfold RegExp.anyGap in Hm.
    destruct (RegExp.lit true "select" here) as [[s1 r1]|] eqn:E1;
      [|discriminate].
    destruct (RegExp.search (RegExp.literal true "select") r1)
      as [[b m2]|] eqn:E2; [|discriminate].
    apply lit_sound in E1. destruct E1 as (-> & H1).
    apply search_sound in E2. destruct E2 as (h2 & -> & H2).
    apply literal_sound in H2. destruct H2 as (-> & H2).
    exists a, s1, b, (RegExp.matched m2), (RegExp.rest m2).
    repeat split; assumption.
  - intros (a & s1 & b & s2 & c & -> & H1 & H2).
    destruct (RegExp.anyGap "select" "select" (s1 ++ b ++ s2 ++ c))
      as [r|] eqn:E; [eapply test_suffix; exact E|].
    unfold RegExp.anyGap in E.
    rewrite (lit_complete true "select" s1) in E by exact H1.
    destruct (RegExp.search (RegExp.literal true "select") (b ++ s2 ++ c))
      as [[? ?]|] eqn:E2; [discriminate|].
    apply search_none_suffix in E2. unfold RegExp.literal in E2.
    rewrite (lit_complete true "select" s2) in E2 by exact H2.
    discriminate.
Qed.

(** C9, as amended: the score is the sum of the six indicators, the second
    of which also fires on the word subquery; score 0 is low, 1 and 2 are
    medium, 3 and more is high. *)
Theorem estimateComplexity_score (query : string) :
  let normalized := JS.toLowerCase query in
  exists nested manyJoins : bool,
    (nested = true <->
     JS.includes normalized "subquery" = true \/ hasTwoSelects query)
    /\ (manyJoins = true <-> 2 < occurrences "join" normalized)
    /\ QueryGenerator.estimateComplexity query
       = tierOf (indicator (JS.includes normalized "join")
                 + 2 * indicator nested
                 + indicator (JS.includes normalized "group by")
                 + indicator (JS.includes normalized "having")
                 + 2 * indicator (JS.includes normalized "union")
                 + 2 * indicator manyJoins).
Proof.
  cbv zeta.
  exists (JS.includes (JS.toLowerCase query) "subquery"
          || RegExp.test (RegExp.anyGap "select" "select") query),
         (2 <? occurrences "join" (JS.toLowerCase query))%nat.
  split; [|split].
  - rewrite orb_true_iff, anyGap_select. reflexivity.
  - apply Nat.ltb_lt.
  - unfold QueryGenerator.estimateComplexity. rewrite matchAll_join.
    unfold tierOf, indicator.
    destruct (JS.includes (JS.toLowerCase query) "join");
      destruct (JS.includes (JS.toLowerCase query) "subquery"
                || RegExp.test (RegExp.anyGap "select" "select") query);
      destruct (JS.includes (JS.toLowerCase query) "group by");
      destruct (JS.includes (JS.toLowerCase query) "having");
      destruct (JS.includes (JS.toLowerCase query) "union");
      destruct (2 <? occurrences "join" (JS.toLowerCase query))%nat;
      reflexivity.
Qed.

(** C9, as stated, fails on a query that names something subquery: the
    code scores it 2 (medium), the specification's words score it 0. *)
Lemma estimateComplexity_subquery_word :
  QueryGenerator.estimateComplexity "SELECT subquery FROM t"
  = QueryGenerator.medium
  /\ statedScore "SELECT subquery FROM t" = 0
  /\ QueryGenerator.estimateComplexity "SELECT subquery FROM t"
     <> tierOf (statedScore "SELECT subquery FROM t").
Proof. repeat split. vm_compute. discriminate. Qed.

Lemma estimateComplexity_score_witness :
  exists nested manyJoins : bool,
    (nested = true <->
     JS.includes (JS.toLowerCase "SELECT subquery FROM t") "subquery" = true
     \/ hasTwoSelects "SELECT subquery FROM t")
    /\ (manyJoins = true
        <-> 2 < occurrences "join" (JS.toLowerCase "SELECT subquery FROM t"))
    /\ QueryGenerator.estimateComplexity "SELECT subquery FROM t"
       = tierOf (indicator (JS.includes (JS.toLowerCase "SELECT subquery FROM t") "join")
                 + 2 * indicator nested
                 + indicator (JS.includes (JS.toLowerCase "SELECT subquery FROM t") "group by")
                 + indicator (JS.includes (JS.toLowerCase "SELECT subquery FROM t") "having")
                 + 2 * indicator (JS.includes (JS.toLowerCase "SELECT subquery FROM t") "union")
                 + 2 * indicator manyJoins).
Proof. exact (estimateComplexity_score "SELECT subquery FROM t"). Defined.

(* ================================================================= *)
(** * Further properties of the code *)

(** ** What a valid verdict of [validate] guarantees *)

Lemma upperChar_idempotent (c : ascii) :
  JS.upperChar (JS.upperChar c) = JS.upperChar c.
Proof. by_cases_on_char c. Qed.

Lemma toUpperCase_idempotent (s : string) :
  JS.toUpperCase (JS.toUpperCase s) = JS.toUpperCase s.
Proof.
  unfold JS.toUpperCase. induction s as [|c s IH]; simpl; [reflexivity|].
  now rewrite upperChar_idempotent, IH.
Qed.

Lemma toUpperCase_append (a b : string) :
  JS.toUpperCase (a ++ b) = JS.toUpperCase a ++ JS.toUpperCase b.
Proof.
  unfold JS.toUpperCase. induction a as [|c a IH]; simpl; [reflexivity|].
  now rewrite IH.
Qed.

Lemma test_cons {A : Type} (m : string -> option A) (c : ascii) (s : string) :
  RegExp.test m (String c s)
  = RegExp.isSome (m (String c s)) || RegExp.test m s.
Proof.
  unfold RegExp.test. simpl. destruct (m (String c s)); [reflexivity|].
  now destruct (RegExp.search m s) as [[? ?]|].
Qed.

Lemma test_nil {A : Type} (m : string -> option A) :
  RegExp.test m EmptyString = RegExp.isSome (m EmptyString).
Proof. unfold RegExp.test. simpl. now destruct (m EmptyString). Qed.

Lemma lit_ci_startsWith (p s : string) :
  RegExp.isSome (RegExp.lit true p s)
  = JS.startsWith (JS.toUpperCase s) (JS.toUpperCase p).
Proof.
  unfold JS.toUpperCase. revert s.
  induction p as [|a p IH]; intros s; [reflexivity|].
  destruct s as [|b s]; [reflexivity|]. simpl. unfold RegExp.charMatches.
  destruct (Ascii.eqb (JS.upperChar a) (JS.upperChar b)); [|reflexivity].
  rewrite <- IH. now destruct (RegExp.lit true p s) as [[? ?]|].
Qed.

(** A literal pattern under the [i] flag is a substring test on the
    upper-cased texts. *)
Lemma test_literal_ci (p s : string) :
  RegExp.test (RegExp.literal true p) s
  = JS.includes (JS.toUpperCase s) (JS.toUpperCase p).
Proof.
  assert (forall t, RegExp.isSome (RegExp.literal true p t)
                    = JS.startsWith (JS.toUpperCase t) (JS.toUpperCase p))
    as Hhere.
  { intros t. rewrite <- lit_ci_startsWith. unfold RegExp.literal.
    now destruct (RegExp.lit true p t) as [[? ?]|]. }
  induction s as [|c s IH].
  - rewrite test_nil, Hhere. simpl. now rewrite orb_false_r.
  - rewrite test_cons, Hhere, IH. reflexivity.
Qed.

(** The three ways in which a run of [validate] resolves. *)
Lemma validate_resolved config query userContext r :
  SecurityValidator.settled
    (SecurityValidator.validate config query userContext)
  = SecurityValidator.Resolved r ->
  SecurityValidator.valid r = false
  \/ exists operation,
      contextSupplied config userContext
      /\ SecurityValidator.detectOperation query = Some operation
      /\ policyErrors config operation query = []
      /\ customErrors config query userContext = []
      /\ SecurityValidator.warnings r
         = snd (SecurityValidator.rowLimitCheck config operation query).
Proof.
  intros Hrun.
  destruct (SecurityValidator.truthy
              (SecurityValidator.requireUserContext config)
            && SecurityValidator.isNone userContext) eqn:Hguard.
  { left. unfold SecurityValidator.validate in Hrun. rewrite Hguard in Hrun.
    now injection Hrun as <-. }
  assert (contextSupplied config userContext) as Hctx.
  { intros Ht ->. rewrite Ht in Hguard. discriminate. }
  destruct (SecurityValidator.detectOperation query) as [operation|] eqn:Hop.
  2:{ left. unfold SecurityValidator.validate in Hrun.
      rewrite Hguard, Hop in Hrun. now injection Hrun as <-. }
  assert (validatorSettles config query userContext) as Hset.
  { intros validator value Hv Hthrow.
    unfold SecurityValidator.validate in Hrun.
    rewrite Hguard, Hop, Hv, Hthrow in Hrun.
    destruct (SecurityValidator.rowLimitCheck config operation query).
    discriminate. }
  rewrite (validate_accumulates _ _ _ _ Hctx Hop Hset) in Hrun.
  injection Hrun as <-. cbn [SecurityValidator.valid SecurityValidator.warnings].
  destruct (policyErrors config operation query
            ++ customErrors config query userContext)%list eqn:E;
    [right | now left].
  apply app_eq_nil in E. destruct E as [E1 E2].
  exists operation. repeat split; assumption.
Qed.

Lemma policyErrors_nil config operation query :
  policyErrors config operation query = [] ->
  SecurityValidator.operationError config operation = []
  /\ SecurityValidator.dangerousError query = []
  /\ SecurityValidator.restrictedError config query = []
  /\ SecurityValidator.tableError config query = []
  /\ fst (SecurityValidator.rowLimitCheck config operation query) = [].
Proof.
  unfold policyErrors. intros H.
  repeat (apply app_eq_nil in H; destruct H as [? H]). auto.
Qed.

Lemma operationName_injective (a b : QueryOperation) :
  SecurityValidator.operationName a = SecurityValidator.operationName b ->
  a = b.
Proof. destruct a, b; simpl; congruence. Qed.

Lemma valid_false_or_true (b : bool) (P : Prop) :
  (b = false \/ P) -> b = true -> P.
Proof. intros [->|H] E; [discriminate | exact H]. Qed.

(** X1.  A valid verdict means that the operation was recognised and is
    one of the allowed operations. *)
Theorem valid_operation_allowed config query userContext r ops :
  SecurityValidator.allowedOperations config = Some ops ->
  SecurityValidator.settled
    (SecurityValidator.validate config query userContext)
  = SecurityValidator.Resolved r ->
  SecurityValidator.valid r = true ->
  exists operation,
    SecurityValidator.detectOperation query = Some operation
    /\ In operation ops.
Proof.
  intros Hops Hrun Hvalid.
  destruct (valid_false_or_true _ _ (validate_resolved _ _ _ _ Hrun) Hvalid)
    as (operation & _ & Hop & Hpol & _).
  exists operation. split; [exact Hop|].
  apply policyErrors_nil in Hpol. destruct Hpol as (Ho & _).
  unfold SecurityValidator.operationError in Ho. rewrite Hops in Ho.
  destruct (existsb (SecurityValidator.operation_eqb operation) ops) eqn:E;
    [|discriminate].
  apply existsb_exists in E. destruct E as (x & Hin & Hx).
  unfold SecurityValidator.operation_eqb in Hx. apply String.eqb_eq in Hx.
  apply operationName_injective in Hx. now subst.
Qed.

Lemma valid_operation_allowed_witness :
  exists operation,
    SecurityValidator.detectOperation "SELECT * FROM users LIMIT 50"
    = Some operation
    /\ In operation [SELECT].
Proof.
  apply (valid_operation_allowed
           (SecurityValidator.new (Some rowLimitConfig))
           "SELECT * FROM users LIMIT 50" None
           (SecurityValidator.mkResult true [] [])); reflexivity.
Defined.

(** X2.  A query that contains one of the banned words, in any case and
    anywhere in its text, never gets a valid verdict, whatever the
    configuration; once the two guards are passed the word is among the
    reported patterns. *)
Theorem banned_word_never_valid config query userContext r w :
  In (SecurityValidator.Word w) SecurityValidator.commandPatterns ->
  JS.includes (JS.toUpperCase query) (JS.toUpperCase w) = true ->
  SecurityValidator.settled
    (SecurityValidator.validate config query userContext)
  = SecurityValidator.Resolved r ->
  SecurityValidator.valid r = false
  /\ In w (SecurityValidator.detectDangerousPatterns query).
Proof.
  intros Hw Hin Hrun.
  assert (In w (SecurityValidator.detectDangerousPatterns query)) as Hd.
  { unfold SecurityValidator.detectDangerousPatterns.
    apply in_or_app. right.
    change w with (SecurityValidator.patternName (SecurityValidator.Word w)).
    apply in_map, filter_In. split; [exact Hw|].
    cbn [SecurityValidator.patternTest].
    now rewrite test_literal_ci, toUpperCase_idempotent. }
  split; [|exact Hd].
  destruct (validate_resolved _ _ _ _ Hrun)
    as [Hv|(operation & _ & _ & Hpol & _)]; [exact Hv | exfalso].
  apply policyErrors_nil in Hpol. destruct Hpol as (_ & Hdang & _).
  unfold SecurityValidator.dangerousError in Hdang.
  destruct (SecurityValidator.detectDangerousPatterns query);
    [contradiction | discriminate].
Qed.

Lemma banned_word_never_valid_witness :
  SecurityValidator.valid
    (SecurityValidator.mkResult false
       ["Query contains dangerous patterns: CREATE"]
       ["Query does not have a LIMIT clause. Maximum 1000 rows will be enforced."])
  = false
  /\ In "CREATE"
        (SecurityValidator.detectDangerousPatterns
           "select created_at from users").
Proof.
  apply (banned_word_never_valid
           (SecurityValidator.new (Some injectionConfig))
           "select created_at from users" None); [|reflexivity|reflexivity].
  simpl. tauto.
Defined.

(** X3.  A query whose text contains a restricted column name, in any
    case and anywhere, never gets a valid verdict. *)
Theorem restricted_column_never_valid config query userContext r columns
        column :
  SecurityValidator.restrictedColumns config = Some columns ->
  In column columns ->
  JS.includes (JS.toLowerCase query) (JS.toLowerCase column) = true ->
  SecurityValidator.settled
    (SecurityValidator.validate config query userContext)
  = SecurityValidator.Resolved r ->
  SecurityValidator.valid r = false.
Proof.
  intros Hcols Hin Hinc Hrun.
  destruct (validate_resolved _ _ _ _ Hrun)
    as [Hv|(operation & _ & _ & Hpol & _)]; [exact Hv | exfalso].
  apply policyErrors_nil in Hpol. destruct Hpol as (_ & _ & Hres & _).
  unfold SecurityValidator.restrictedError,
    SecurityValidator.findRestrictedColumns in Hres.
  rewrite Hcols in Hres.
  assert (In column
             (filter (fun column0 =>
                        JS.includes (JS.toLowerCase query)
                                    (JS.toLowerCase column0)) columns)) as Hf
      by (apply filter_In; auto).
  destruct (filter _ columns); [contradiction | discriminate].
Qed.

Lemma restricted_column_never_valid_witness :
  SecurityValidator.valid
    (SecurityValidator.mkResult false
       ["Query accesses restricted columns: password"]
       ["Query does not have a LIMIT clause. Maximum 1000 rows will be enforced."])
  = false.
Proof.
  apply (restricted_column_never_valid
           (SecurityValidator.new
              (Some (mkSecurityConfig
                       (Specified (Some [SELECT])) Unspecified
                       (Specified (Some ["password"; "ssn"]))
                       Unspecified (Specified (Some false))
                       Unspecified Unspecified)))
           "SELECT Password_Hash FROM users" None _
           ["password"; "ssn"] "password"); try reflexivity.
  simpl. tauto.
Defined.

Lemma tableError_nil config query allowed :
  SecurityValidator.allowedTables config = Some allowed ->
  allowed <> [] ->
  SecurityValidator.tableError config query = [] ->
  forall table,
    In table (SecurityValidator.extractTableNames query) ->
    In table allowed.
Proof.
  intros Hallowed Hne Htab table Hin.
  unfold SecurityValidator.tableError in Htab. rewrite Hallowed in Htab.
  destruct allowed as [|a allowed]; [congruence|].
  cbn [List.length Nat.ltb Nat.leb] in Htab.
  destruct (existsb (String.eqb table) (a :: allowed)) eqn:E.
  - apply existsb_exists in E. destruct E as (x & Hx & Heq).
    apply String.eqb_eq in Heq. now subst.
  - exfalso.
    assert (In table
               (filter (fun table0 =>
                          negb (existsb (String.eqb table0) (a :: allowed)))
                       (SecurityValidator.extractTableNames query))) as Hf
        by (apply filter_In; rewrite E; auto).
    destruct (filter _ (SecurityValidator.extractTableNames query));
      [contradiction | discriminate].
Qed.

(** X4.  With a non-empty table allow-list, a valid verdict means that
    every table name the validator extracts from the query is on the
    list. *)
Theorem valid_tables_allowed config query userContext r allowed :
  SecurityValidator.allowedTables config = Some allowed ->
  allowed <> [] ->
  SecurityValidator.settled
    (SecurityValidator.validate config query userContext)
  = SecurityValidator.Resolved r ->
  SecurityValidator.valid r = true ->
  forall table,
    In table (SecurityValidator.extractTableNames query) ->
    In table allowed.
Proof.
  intros Hallowed Hne Hrun Hvalid table Hin.
  destruct (valid_false_or_true _ _ (validate_resolved _ _ _ _ Hrun) Hvalid)
    as (operation & _ & _ & Hpol & _).
  apply policyErrors_nil in Hpol. destruct Hpol as (_ & _ & _ & Htab & _).
  exact (tableError_nil _ _ _ Hallowed Hne Htab table Hin).
Qed.

Lemma valid_tables_allowed_witness :
  In "orders"
     (SecurityValidator.extractTableNames
        "SELECT * FROM users u JOIN orders o ON o.uid = u.id")
  /\ In "orders" ["users"; "orders"].
Proof.
  assert (In "orders"
             (SecurityValidator.extractTableNames
                "SELECT * FROM users u JOIN orders o ON o.uid = u.id"))
    as Hin by (vm_compute; tauto).
  split; [exact Hin|].
  apply (valid_tables_allowed
           (SecurityValidator.new
              (Some (mkSecurityConfig
                       (Specified (Some [SELECT]))
                       (Specified (Some ["users"; "orders"]))
                       Unspecified Unspecified (Specified (Some false))
                       Unspecified Unspecified)))
           "SELECT * FROM users u JOIN orders o ON o.uid = u.id" None
           (SecurityValidator.mkResult true []
              ["Query does not have a LIMIT clause. Maximum 1000 rows will be enforced."])
           ["users"; "orders"]);
    [reflexivity | discriminate | reflexivity | reflexivity | exact Hin].
Defined.

Lemma rowLimit_nil config query max before m :
  SecurityValidator.maxRowLimit config = Some max ->
  RegExp.search RegExp.limitClause query = Some (before, m) ->
  fst (SecurityValidator.rowLimitCheck config SELECT query) = [] ->
  (JS.parseInt (RegExp.group1 m) <= max)%Z.
Proof.
  intros Hmax Hs Hlim.
  unfold SecurityValidator.rowLimitCheck, RegExp.test in Hlim.
  rewrite Hs, Hmax in Hlim.
  cbn [RegExp.isSome negb SecurityValidator.exceeds] in Hlim.
  destruct (max <? JS.parseInt (RegExp.group1 m))%Z eqn:E;
    [discriminate|].
  now apply Z.ltb_ge in E.
Qed.

Lemma dangerousError_nil (query w : string) :
  SecurityValidator.dangerousError query = [] ->
  In (SecurityValidator.Word w) SecurityValidator.commandPatterns ->
  JS.includes (JS.toUpperCase query) (JS.toUpperCase w) = false.
Proof.
  intros Hdang Hw.
  destruct (JS.includes (JS.toUpperCase query) (JS.toUpperCase w)) eqn:Hin;
    [exfalso | reflexivity].
  assert (In w (SecurityValidator.detectDangerousPatterns query)) as Hd.
  { unfold SecurityValidator.detectDangerousPatterns.
    apply in_or_app. right.
    change w with (SecurityValidator.patternName (SecurityValidator.Word w)).
    apply in_map, filter_In. split; [exact Hw|].
    cbn [SecurityValidator.patternTest].
    now rewrite test_literal_ci, toUpperCase_idempotent. }
  unfold SecurityValidator.dangerousError in Hdang.
  destruct (SecurityValidator.detectDangerousPatterns query);
    [contradiction | discriminate].
Qed.

Lemma restrictedError_nil config query columns column :
  SecurityValidator.restrictedColumns config = Some columns ->
  SecurityValidator.restrictedError config query = [] ->
  In column columns ->
  JS.includes (JS.toLowerCase query) (JS.toLowerCase column) = false.
Proof.
  intros Hcols Hres Hin.
  destruct (JS.includes (JS.toLowerCase query) (JS.toLowerCase column))
    eqn:Hinc; [exfalso | reflexivity].
  unfold SecurityValidator.restrictedError,
    SecurityValidator.findRestrictedColumns in Hres.
  rewrite Hcols in Hres.
  assert (In column
             (filter (fun column0 =>
                        JS.includes (JS.toLowerCase query)
                                    (JS.toLowerCase column0)) columns)) as Hf
      by (apply filter_In; auto).
  destruct (filter _ columns); [contradiction | discriminate].
Qed.

(** X5.  With a configured maximum that is a safe integer, a valid
    verdict on a SELECT query means that the number of its first limit
    clause, if it has one, is at most the maximum.  (The bound on the
    maximum is what makes the comparison of the source, which is between
    numbers, the comparison of the integers: a number of digits above a
    safe integer is still above it once rounded.) *)
Theorem valid_limit_within_maximum config query userContext r max before m :
  SecurityValidator.maxRowLimit config = Some max ->
  JS.isSafeInteger max = true ->
  SecurityValidator.detectOperation query = Some SELECT ->
  RegExp.search RegExp.limitClause query = Some (before, m) ->
  SecurityValidator.settled
    (SecurityValidator.validate config query userContext)
  = SecurityValidator.Resolved r ->
  SecurityValidator.valid r = true ->
  (JS.parseInt (RegExp.group1 m) <= max)%Z.
Proof.
  intros Hmax _ Hsel Hs Hrun Hvalid.
  destruct (valid_false_or_true _ _ (validate_resolved _ _ _ _ Hrun) Hvalid)
    as (operation & _ & Hop & Hpol & _).
  rewrite Hsel in Hop. injection Hop as <-.
  apply policyErrors_nil in Hpol. destruct Hpol as (_ & _ & _ & _ & Hlim).
  unfold SecurityValidator.rowLimitCheck, RegExp.test in Hlim.
  rewrite Hs, Hmax in Hlim.
  cbn [RegExp.isSome negb SecurityValidator.exceeds] in Hlim.
  destruct (max <? JS.parseInt (RegExp.group1 m))%Z eqn:E;
    [discriminate|].
  now apply Z.ltb_ge in E.
Qed.

Lemma valid_limit_within_maximum_witness :
  (JS.parseInt "50" <= 100)%Z.
Proof.
  apply (valid_limit_within_maximum
           (SecurityValidator.new (Some rowLimitConfig))
           "SELECT * FROM users LIMIT 50" None
           (SecurityValidator.mkResult true [] []) 100%Z
           "SELECT * FROM users "
           (RegExp.mkMatch "LIMIT 50" "50" EmptyString)); reflexivity.
Defined.

(** X6.  [validate] calls the custom validator at most once, only with
    the query and the user context it was given, and exactly when there
    is a custom validator and both guards are passed. *)
Theorem custom_validator_called_iff config query userContext :
  let calls :=
    SecurityValidator.customCalls
      (SecurityValidator.validate config query userContext) in
  (calls = [] \/ calls = [(query, userContext)])
  /\ (calls = [(query, userContext)] <->
      SecurityValidator.customValidator config <> None
      /\ contextSupplied config userContext
      /\ SecurityValidator.detectOperation query <> None).
Proof.
  cbv zeta. unfold SecurityValidator.validate.
  destruct (SecurityValidator.truthy
              (SecurityValidator.requireUserContext config)
            && SecurityValidator.isNone userContext) eqn:Hguard.
  { simpl. split; [now left|]. split; [discriminate|].
    intros (_ & Hctx & _). apply contextSupplied_guard in Hctx. congruence. }
  assert (contextSupplied config userContext) as Hctx.
  { intros Ht ->. rewrite Ht in Hguard. discriminate. }
  destruct (SecurityValidator.detectOperation query) as [operation|].
  2:{ simpl. split; [now left|]. split; [discriminate|]. tauto. }
  destruct (SecurityValidator.rowLimitCheck config operation query).
  destruct (SecurityValidator.customValidator config) as [validator|].
  - destruct (validator query userContext) as [[|]|[?|]]; simpl;
      (split; [now right|]); (split; [intros _|reflexivity]);
      (repeat split; [discriminate | exact Hctx | discriminate]).
  - simpl. split; [now left|]. split; [discriminate|]. tauto.
Qed.

Lemma custom_validator_called_iff_witness :
  SecurityValidator.customCalls
    (SecurityValidator.validate
       (SecurityValidator.new
          (Some (mkSecurityConfig
                   (Specified (Some [SELECT])) Unspecified Unspecified
                   Unspecified Unspecified Unspecified
                   (Specified (Some (fun _ _ => Returns true))))))
       "SELECT * FROM users" None)
  = [].
Proof.
  destruct (custom_validator_called_iff
              (SecurityValidator.new
                 (Some (mkSecurityConfig
                          (Specified (Some [SELECT])) Unspecified Unspecified
                          Unspecified Unspecified Unspecified
                          (Specified (Some (fun _ _ => Returns true))))))
              "SELECT * FROM users" None) as [[H|H] _];
    [exact H | vm_compute in H; discriminate].
Defined.

(** ** Row-level security *)

Lemma allChars_append (cls : ascii -> bool) (a b : string) :
  allChars cls (a ++ b) = allChars cls a && allChars cls b.
Proof.
  induction a as [|c a IH]; simpl; [reflexivity|].
  now rewrite IH, andb_assoc.
Qed.

Lemma lineOf_split (s : string) :
  allChars notLineTerminator (RegExp.lineOf s) = true
  /\ exists t, s = RegExp.lineOf s ++ t.
Proof.
  induction s as [|c s (IH & t & Ht)].
  - split; [reflexivity | now exists EmptyString].
  - cbn [RegExp.lineOf]. destruct (JS.isLineTerminator c) eqn:E.
    + split; [reflexivity | now exists (String c s)].
    + cbn [allChars]. unfold notLineTerminator at 1. rewrite E.
      split; [exact IH | exists t; simpl; now rewrite <- Ht].
Qed.

Lemma lineOf_append (a b : string) :
  allChars notLineTerminator a = true ->
  RegExp.lineOf (a ++ b) = a ++ RegExp.lineOf b.
Proof.
  induction a as [|c a IH]; [reflexivity|].
  cbn [allChars]. unfold notLineTerminator at 1. intros H.
  apply andb_true_iff in H. destruct H as [Hc Ha].
  apply negb_true_iff in Hc. simpl. now rewrite Hc, IH.
Qed.

Lemma upperChar_lineTerminator (c : ascii) :
  JS.isLineTerminator (JS.upperChar c) = JS.isLineTerminator c.
Proof. by_cases_on_char c. Qed.

Lemma toUpperCase_lineTerminators (s : string) :
  allChars notLineTerminator (JS.toUpperCase s)
  = allChars notLineTerminator s.
Proof.
  unfold JS.toUpperCase. induction s as [|c s IH]; [reflexivity|].
  cbn [JS.mapString allChars]. unfold notLineTerminator at 1 3.
  now rewrite upperChar_lineTerminator, IH.
Qed.

(** [/a.*b/i] finds [a] and, later on the same line, [b]. *)
Lemma sameLine_test (a b q : string) :
  allChars notLineTerminator (JS.toUpperCase b) = true ->
  RegExp.test (RegExp.sameLine a b) q = true
  <-> exists pre w gap u post,
      q = pre ++ w ++ gap ++ u ++ post
      /\ JS.toUpperCase w = JS.toUpperCase a
      /\ JS.toUpperCase u = JS.toUpperCase b
      /\ allChars notLineTerminator gap = true.
Proof.
  intros Hb. split.
  - intros H. apply test_true in H.
    destruct H as (pre & here & r & -> & Hm). unfold RegExp.sameLine in Hm.
    destruct (RegExp.lit true a here) as [[w r1]|] eqn:E1; [|discriminate].
    destruct (RegExp.search (RegExp.literal true b) (RegExp.lineOf r1))
      as [[gap mb]|] eqn:E2; [|discriminate].
    apply lit_sound in E1. destruct E1 as (-> & Hw).
    apply search_sound in E2. destruct E2 as (h2 & Hline & H2).
    apply literal_sound in H2. destruct H2 as (-> & Hu).
    destruct (lineOf_split r1) as (Hall & t & Ht).
    rewrite Hline, allChars_append in Hall.
    apply andb_true_iff in Hall. destruct Hall as [Hgap _].
    exists pre, w, gap, (RegExp.matched mb), (RegExp.rest mb ++ t).
    repeat split; try assumption.
    rewrite Ht at 1. rewrite Hline, !append_assoc. reflexivity.
  - intros (pre & w & gap & u & post & -> & Hw & Hu & Hgap).
    destruct (RegExp.sameLine a b (w ++ gap ++ u ++ post)) as [r|] eqn:E;
      [eapply test_suffix; exact E|].
    unfold RegExp.sameLine in E.
    rewrite (lit_complete true a w) in E by exact Hw.
    assert (allChars notLineTerminator u = true) as Hlu
        by (rewrite <- toUpperCase_lineTerminators, Hu; exact Hb).
    rewrite (lineOf_append gap) in E by exact Hgap.
    rewrite (lineOf_append u) in E by exact Hlu.
    destruct (RegExp.search (RegExp.literal true b)
                (gap ++ u ++ RegExp.lineOf post)) as [[? ?]|] eqn:E2;
      [discriminate|].
    apply search_none_suffix in E2. unfold RegExp.literal in E2.
    rewrite (lit_complete true b u) in E2 by exact Hu. discriminate.
Qed.

Lemma ownerFilter_test (q : string) :
  RegExp.test (RegExp.sameLine "WHERE" "user_id") q = true
  <-> hasOwnerFilter q.
Proof. apply sameLine_test. reflexivity. Qed.

Lemma rls_unchanged_if_filter config query userContext :
  RegExp.test (RegExp.sameLine "WHERE" "user_id") query = true ->
  SecurityValidator.addRowLevelSecurity config query userContext = query.
Proof.
  intros H. unfold SecurityValidator.addRowLevelSecurity. rewrite H.
  destruct userContext as [c|]; [|reflexivity].
  destruct (negb _); [reflexivity|].
  now destruct (SecurityValidator.detectOperation query) as [[]|].
Qed.

(** X7.  Row-level security leaves the query as it is when it is not
    enabled, when there is no user context, when the query is an INSERT or
    of no recognised operation, and when the query already has an owner
    filter. *)
Theorem rls_leaves_unchanged config query userContext :
  SecurityValidator.truthy (SecurityValidator.enableRowLevelSecurity config)
  = false
  \/ userContext = None
  \/ SecurityValidator.detectOperation query = None
  \/ SecurityValidator.detectOperation query = Some INSERT
  \/ hasOwnerFilter query ->
  SecurityValidator.addRowLevelSecurity config query userContext = query.
Proof.
  intros [H|[H|[H|[H|H]]]].
  - unfold SecurityValidator.addRowLevelSecurity. rewrite H.
    now destruct userContext.
  - now subst.
  - unfold SecurityValidator.addRowLevelSecurity. rewrite H.
    destruct userContext; [|reflexivity]. now destruct (negb _).
  - unfold SecurityValidator.addRowLevelSecurity. rewrite H.
    destruct userContext; [|reflexivity]. now destruct (negb _).
  - apply rls_unchanged_if_filter, ownerFilter_test, H.
Qed.

Lemma rls_leaves_unchanged_witness :
  SecurityValidator.addRowLevelSecurity (SecurityValidator.new None)
    "SELECT * FROM orders WHERE user_id = 123"
    (Some (mkUserContext (IdNumber 123) "user" None None))
  = "SELECT * FROM orders WHERE user_id = 123".
Proof.
  apply rls_leaves_unchanged. right. right. right. right.
  exists "SELECT * FROM orders ", "WHERE", " ", "user_id", " = 123".
  repeat split.
Defined.

Lemma string_of_uint_plain (d : Decimal.uint) :
  JS.includes (NilEmpty.string_of_uint d) "$" = false.
Proof.
  induction d; cbn [NilEmpty.string_of_uint];
    rewrite ?includes_char_cons, ?IHd; reflexivity.
Qed.

Lemma Number_toString_plain (n : Z) :
  JS.includes (JS.Number_toString n) "$" = false.
Proof.
  unfold JS.Number_toString.
  destruct (Z.to_int n); cbn [NilEmpty.string_of_int];
    rewrite ?includes_char_cons, string_of_uint_plain; reflexivity.
Qed.

Lemma showUserId_plain (id : UserId) :
  plainUserId id ->
  JS.includes (SecurityValidator.showUserId id) "$" = false.
Proof.
  destruct id as [s|n]; cbn [SecurityValidator.showUserId plainUserId].
  - intros H. rewrite !includes_char_append, H. reflexivity.
  - intros _. apply Number_toString_plain.
Qed.

Lemma ownerFilter_plain (query : string) (id : UserId) (tail : string) :
  plainUserId id -> JS.includes tail "$" = false ->
  JS.includes (ownerFilter query id ++ tail) "$" = false.
Proof.
  intros Hid Ht. unfold ownerFilter.
  rewrite !includes_char_append, (showUserId_plain id Hid), Ht.
  destruct (RegExp.test (RegExp.literal true "WHERE") query); reflexivity.
Qed.

(** The leftmost match of a literal under the [i] flag, replaced by a
    text without a dollar sign. *)
Lemma replace_literal_plain (p replacement q : string) :
  RegExp.test (RegExp.literal true p) q = true ->
  JS.includes replacement "$" = false ->
  exists before kw after,
    q = before ++ kw ++ after
    /\ JS.toUpperCase kw = JS.toUpperCase p
    /\ (forall a b, q = a ++ b ->
                    String.length a < String.length before ->
                    JS.startsWith (JS.toUpperCase b) (JS.toUpperCase p)
                    = false)
    /\ RegExp.replace (RegExp.literal true p) replacement q
       = before ++ replacement ++ after.
Proof.
  unfold RegExp.test, RegExp.replace. intros Ht Hplain.
  destruct (RegExp.search (RegExp.literal true p) q) as [[before r]|] eqn:E;
    [|discriminate].
  pose proof (search_first _ _ _ _ E) as Hfirst.
  apply search_sound in E. destruct E as (here & -> & Hm).
  apply literal_sound in Hm. destruct Hm as (-> & Hkw).
  exists before, (RegExp.matched r), (RegExp.rest r).
  repeat split; try assumption.
  - intros a b Hab Hlen. specialize (Hfirst a b Hab Hlen).
    rewrite <- lit_ci_startsWith. unfold RegExp.literal in Hfirst.
    now destruct (RegExp.lit true p b) as [[? ?]|].
  - now rewrite GetSubstitution_plain.
Qed.

(** Where the filter goes. *)
Lemma rls_shape config query context :
  SecurityValidator.truthy (SecurityValidator.enableRowLevelSecurity config)
  = true ->
  (SecurityValidator.detectOperation query = Some SELECT
   \/ SecurityValidator.detectOperation query = Some UPDATE
   \/ SecurityValidator.detectOperation query = Some DELETE) ->
  RegExp.test (RegExp.sameLine "WHERE" "user_id") query = false ->
  plainUserId (userId context) ->
  let result :=
    SecurityValidator.addRowLevelSecurity config query (Some context) in
  let filter := ownerFilter query (userId context) in
  (JS.includes (JS.toUpperCase query) "ORDER BY" = true ->
   exists before kw after,
     query = before ++ kw ++ after
     /\ JS.toUpperCase kw = "ORDER BY"
     /\ (forall a b, query = a ++ b ->
                     String.length a < String.length before ->
                     JS.startsWith (JS.toUpperCase b) "ORDER BY" = false)
     /\ result = before ++ filter ++ " ORDER BY" ++ after)
  /\ (JS.includes (JS.toUpperCase query) "ORDER BY" = false ->
      JS.includes (JS.toUpperCase query) "LIMIT" = true ->
      exists before kw after,
        query = before ++ kw ++ after
        /\ JS.toUpperCase kw = "LIMIT"
        /\ (forall a b, query = a ++ b ->
                        String.length a < String.length before ->
                        JS.startsWith (JS.toUpperCase b) "LIMIT" = false)
        /\ result = before ++ filter ++ " LIMIT" ++ after)
  /\ (JS.includes (JS.toUpperCase query) "ORDER BY" = false ->
      JS.includes (JS.toUpperCase query) "LIMIT" = false ->
      result = query ++ filter).
Proof.
  intros Hen Hop Hfilter Hid. cbv zeta.
  assert (SecurityValidator.addRowLevelSecurity config query (Some context)
          = if RegExp.test (RegExp.literal true "ORDER BY") query then
              RegExp.replace (RegExp.literal true "ORDER BY")
                (ownerFilter query (userId context) ++ " ORDER BY") query
            else if RegExp.test (RegExp.literal true "LIMIT") query then
              RegExp.replace (RegExp.literal true "LIMIT")
                (ownerFilter query (userId context) ++ " LIMIT") query
            else query ++ ownerFilter query (userId context)) as ->.
  { unfold SecurityValidator.addRowLevelSecurity, ownerFilter.
    rewrite Hen, Hfilter. cbn [negb].
    destruct Hop as [->|[->| ->]]; reflexivity. }
  assert (RegExp.test (RegExp.literal true "ORDER BY") query
          = JS.includes (JS.toUpperCase query) "ORDER BY") as Eo
      by apply test_literal_ci.
  assert (RegExp.test (RegExp.literal true "LIMIT") query
          = JS.includes (JS.toUpperCase query) "LIMIT") as El
      by apply test_literal_ci.
  rewrite <- Eo, <- El.
  split; [|split].
  - intros Ho. rewrite Ho.
    destruct (replace_literal_plain "ORDER BY"
                (ownerFilter query (userId context) ++ " ORDER BY") query Ho
                (ownerFilter_plain _ _ " ORDER BY" Hid eq_refl))
      as (before & kw & after & Hq & Hkw & Hfirst & Hr).
    exists before, kw, after. rewrite Hr, append_assoc. auto.
  - intros Ho Hl. rewrite Ho, Hl.
    destruct (replace_literal_plain "LIMIT"
                (ownerFilter query (userId context) ++ " LIMIT") query Hl
                (ownerFilter_plain _ _ " LIMIT" Hid eq_refl))
      as (before & kw & after & Hq & Hkw & Hfirst & Hr).
    exists before, kw, after. rewrite Hr, append_assoc. auto.
  - intros Ho Hl. now rewrite Ho, Hl.
Qed.

(** X8.  Where row-level security puts its filter, for a user id that is
    a number or a string without a dollar sign: in front of the first
    ORDER BY if the query has one, else in front of the first LIMIT if it
    has one, else at the end.  The text before and after the keyword is
    kept; the keyword itself comes back in upper case. *)
Theorem rls_splice_position config query context :
  SecurityValidator.truthy (SecurityValidator.enableRowLevelSecurity config)
  = true ->
  (SecurityValidator.detectOperation query = Some SELECT
   \/ SecurityValidator.detectOperation query = Some UPDATE
   \/ SecurityValidator.detectOperation query = Some DELETE) ->
  ~ hasOwnerFilter query ->
  plainUserId (userId context) ->
  let result :=
    SecurityValidator.addRowLevelSecurity config query (Some context) in
  let filter := ownerFilter query (userId context) in
  (JS.includes (JS.toUpperCase query) "ORDER BY" = true ->
   exists before kw after,
     query = before ++ kw ++ after
     /\ JS.toUpperCase kw = "ORDER BY"
     /\ (forall a b, query = a ++ b ->
                     String.length a < String.length before ->
                     JS.startsWith (JS.toUpperCase b) "ORDER BY" = false)
     /\ result = before ++ filter ++ " ORDER BY" ++ after)
  /\ (JS.includes (JS.toUpperCase query) "ORDER BY" = false ->
      JS.includes (JS.toUpperCase query) "LIMIT" = true ->
      exists before kw after,
        query = before ++ kw ++ after
        /\ JS.toUpperCase kw = "LIMIT"
        /\ (forall a b, query = a ++ b ->
                        String.length a < String.length before ->
                        JS.startsWith (JS.toUpperCase b) "LIMIT" = false)
        /\ result = before ++ filter ++ " LIMIT" ++ after)
  /\ (JS.includes (JS.toUpperCase query) "ORDER BY" = false ->
      JS.includes (JS.toUpperCase query) "LIMIT" = false ->
      result = query ++ filter).
Proof.
  intros Hen Hop Hno Hid. apply rls_shape; try assumption.
  destruct (RegExp.test (RegExp.sameLine "WHERE" "user_id") query) eqn:E;
    [|reflexivity].
  apply ownerFilter_test in E. contradiction.
Qed.

Lemma no_owner_filter (query : string) :
  RegExp.test (RegExp.sameLine "WHERE" "user_id") query = false ->
  ~ hasOwnerFilter query.
Proof. intros E H. apply ownerFilter_test in H. congruence. Qed.

Lemma rls_splice_position_witness :
  exists before kw after,
    "select * from orders where total > 5 order by id limit 3"
    = before ++ kw ++ after
    /\ JS.toUpperCase kw = "ORDER BY"
    /\ (forall a b,
          "select * from orders where total > 5 order by id limit 3" = a ++ b ->
          String.length a < String.length before ->
          JS.startsWith (JS.toUpperCase b) "ORDER BY" = false)
    /\ SecurityValidator.addRowLevelSecurity (SecurityValidator.new None)
         "select * from orders where total > 5 order by id limit 3"
         (Some (mkUserContext (IdNumber 7) "user" None None))
       = before ++ " AND user_id = 7" ++ " ORDER BY" ++ after.
Proof.
  apply (proj1 (rls_splice_position (SecurityValidator.new None)
                  "select * from orders where total > 5 order by id limit 3"
                  (mkUserContext (IdNumber 7) "user" None None)
                  eq_refl (or_introl eq_refl)
                  (no_owner_filter
                     "select * from orders where total > 5 order by id limit 3"
                     eq_refl)
                  I)).
  reflexivity.
Defined.

(** X9.  A numeric user id that is a safe integer is put into the filter
    in decimal digits, whichever way the filter is spliced in. *)
Theorem rls_inlines_number config query n userRole perms meta :
  JS.isSafeInteger n = true ->
  SecurityValidator.truthy (SecurityValidator.enableRowLevelSecurity config)
  = true ->
  (SecurityValidator.detectOperation query = Some SELECT
   \/ SecurityValidator.detectOperation query = Some UPDATE
   \/ SecurityValidator.detectOperation query = Some DELETE) ->
  ~ hasOwnerFilter query ->
  JS.includes
    (SecurityValidator.addRowLevelSecurity config query
       (Some (mkUserContext (IdNumber n) userRole perms meta)))
    ("user_id = " ++ JS.Number_toString n) = true.
Proof.
  intros _ Hen Hop Hno.
  assert (RegExp.test (RegExp.sameLine "WHERE" "user_id") query = false)
    as Hfilter.
  { destruct (RegExp.test _ query) eqn:E; [|reflexivity].
    apply ownerFilter_test in E. contradiction. }
  destruct (rls_shape config query
              (mkUserContext (IdNumber n) userRole perms meta)
              Hen Hop Hfilter I) as (Ho & Hl & He).
  assert (forall before tail,
             JS.includes
               (before
                ++ ownerFilter query (IdNumber n) ++ tail)
               ("user_id = " ++ JS.Number_toString n) = true) as Hinc.
  { intros before tail. unfold ownerFilter.
    cbn [SecurityValidator.showUserId].
    replace (before
             ++ ((if RegExp.test (RegExp.literal true "WHERE") query
                  then " AND" else " WHERE")
                 ++ " user_id = " ++ JS.Number_toString n) ++ tail)
      with ((before
             ++ (if RegExp.test (RegExp.literal true "WHERE") query
                 then " AND" else " WHERE") ++ " ")
            ++ ("user_id = " ++ JS.Number_toString n) ++ tail)
      by (rewrite !append_assoc; reflexivity).
    apply includes_append. }
  cbn [userId] in Ho, Hl, He.
  destruct (JS.includes (JS.toUpperCase query) "ORDER BY");
    [|destruct (JS.includes (JS.toUpperCase query) "LIMIT")].
  - destruct (Ho eq_refl) as (before & kw & after & _ & _ & _ & ->).
    apply Hinc.
  - destruct (Hl eq_refl eq_refl) as (before & kw & after & _ & _ & _ & ->).
    apply Hinc.
  - rewrite (He eq_refl eq_refl), <- (append_nil_r (ownerFilter _ _)).
    apply Hinc.
Qed.

Lemma rls_inlines_number_witness :
  JS.includes
    (SecurityValidator.addRowLevelSecurity (SecurityValidator.new None)
       "SELECT * FROM orders"
       (Some (mkUserContext (IdNumber 123) "user" None None)))
    "user_id = 123" = true.
Proof.
  apply (rls_inlines_number (SecurityValidator.new None)
           "SELECT * FROM orders" 123 "user" None None eq_refl eq_refl
           (or_introl eq_refl)
           (no_owner_filter "SELECT * FROM orders" eq_refl)).
Defined.

Lemma rls_off config query userContext :
  SecurityValidator.truthy (SecurityValidator.enableRowLevelSecurity config)
  = false ->
  SecurityValidator.addRowLevelSecurity config query userContext = query.
Proof.
  intros H. unfold SecurityValidator.addRowLevelSecurity. rewrite H.
  now destruct userContext.
Qed.

Lemma rls_other_operation config query userContext :
  ~ (SecurityValidator.detectOperation query = Some SELECT
     \/ SecurityValidator.detectOperation query = Some UPDATE
     \/ SecurityValidator.detectOperation query = Some DELETE) ->
  SecurityValidator.addRowLevelSecurity config query userContext = query.
Proof.
  intros H. unfold SecurityValidator.addRowLevelSecurity.
  destruct userContext; [|reflexivity]. destruct (negb _); [reflexivity|].
  destruct (SecurityValidator.detectOperation query) as [[]|];
    try reflexivity; exfalso; apply H; auto.
Qed.

Lemma owner_filter_needs_where (query : string) :
  JS.includes (JS.toUpperCase query) "WHERE" = false ->
  RegExp.test (RegExp.sameLine "WHERE" "user_id") query = false.
Proof.
  intros Hno.
  destruct (RegExp.test (RegExp.sameLine "WHERE" "user_id") query) eqn:E;
    [|reflexivity].
  apply ownerFilter_test in E.
  destruct E as (a & w & gap & u & b & -> & Hw & _).
  rewrite !toUpperCase_append, Hw, includes_append in Hno. discriminate.
Qed.

(** X10.  On a query without the word WHERE, and for a user id that is a
    number or a string without a dollar sign, applying row-level security
    twice is the same as applying it once: the filter it has put in is
    recognised the second time. *)
Theorem rls_idempotent_without_where config query context :
  JS.includes (JS.toUpperCase query) "WHERE" = false ->
  plainUserId (userId context) ->
  SecurityValidator.addRowLevelSecurity config
    (SecurityValidator.addRowLevelSecurity config query (Some context))
    (Some context)
  = SecurityValidator.addRowLevelSecurity config query (Some context).
Proof.
  intros Hwhere Hid.
  destruct (SecurityValidator.truthy
              (SecurityValidator.enableRowLevelSecurity config)) eqn:Hen.
  2:{ now rewrite !(rls_off _ _ _ Hen). }
  destruct (SecurityValidator.detectOperation query) as [op|] eqn:Hop.
  2:{ rewrite !(rls_other_operation config query);
        try reflexivity; rewrite Hop; intros [H|[H|H]]; discriminate. }
  destruct op.
  2:{ rewrite !(rls_other_operation config query);
        try reflexivity; rewrite Hop; intros [H|[H|H]]; discriminate. }
  all: apply rls_unchanged_if_filter.
  all: pose proof (owner_filter_needs_where _ Hwhere) as Hfilter.
  all: assert (exists before tail,
                  SecurityValidator.addRowLevelSecurity config query
                    (Some context)
                  = before ++ ownerFilter query (userId context) ++ tail)
         as (before & tail & ->).
  1,3,5: (destruct (rls_shape config query context Hen) as (Ho & Hl & He);
          [rewrite Hop; auto | exact Hfilter | exact Hid |];
          destruct (JS.includes (JS.toUpperCase query) "ORDER BY");
          [destruct (Ho eq_refl) as (bf & kw & af & _ & _ & _ & ->);
           now exists bf, (" ORDER BY" ++ af)
          |destruct (JS.includes (JS.toUpperCase query) "LIMIT");
           [destruct (Hl eq_refl eq_refl) as (bf & kw & af & _ & _ & _ & ->);
            now exists bf, (" LIMIT" ++ af)
           |rewrite (He eq_refl eq_refl); exists query, EmptyString;
            now rewrite append_nil_r]]).
  all: apply ownerFilter_test.
  all: exists (before ++ " "), "WHERE", " ", "user_id",
         (" = " ++ SecurityValidator.showUserId (userId context) ++ tail).
  all: unfold ownerFilter; rewrite test_literal_ci.
  all: change (JS.toUpperCase "WHERE") with "WHERE"; rewrite Hwhere.
  all: rewrite !append_assoc; repeat split.
Qed.

Lemma rls_idempotent_without_where_witness :
  SecurityValidator.addRowLevelSecurity (SecurityValidator.new None)
    (SecurityValidator.addRowLevelSecurity (SecurityValidator.new None)
       "SELECT * FROM orders ORDER BY id"
       (Some (mkUserContext (IdString "abc-123") "user" None None)))
    (Some (mkUserContext (IdString "abc-123") "user" None None))
  = SecurityValidator.addRowLevelSecurity (SecurityValidator.new None)
      "SELECT * FROM orders ORDER BY id"
      (Some (mkUserContext (IdString "abc-123") "user" None None)).
Proof.
  apply (rls_idempotent_without_where (SecurityValidator.new None)
           "SELECT * FROM orders ORDER BY id"
           (mkUserContext (IdString "abc-123") "user" None None));
    reflexivity.
Defined.

(** ** Warnings and the limit clause *)

Lemma resolved_warnings config query userContext r :
  SecurityValidator.settled
    (SecurityValidator.validate config query userContext)
  = SecurityValidator.Resolved r ->
  SecurityValidator.warnings r = []
  \/ exists operation,
      SecurityValidator.detectOperation query = Some operation
      /\ SecurityValidator.warnings r
         = snd (SecurityValidator.rowLimitCheck config operation query).
Proof.
  unfold SecurityValidator.validate.
  destruct (_ && _); [intros [= <-]; now left|].
  destruct (SecurityValidator.detectOperation query) as [operation|];
    [|intros [= <-]; now left].
  intros H. right. exists operation. split; [reflexivity|].
  destruct (SecurityValidator.rowLimitCheck config operation query)
    as [limitErrors warnings].
  destruct (SecurityValidator.customValidator config) as [validator|].
  - destruct (validator query userContext) as [[|]|[?|]];
      cbn [negb SecurityValidator.settled] in H;
      try discriminate; now injection H as <-.
  - cbn [SecurityValidator.settled] in H. now injection H as <-.
Qed.

Lemma rowLimit_warnings config operation query :
  snd (SecurityValidator.rowLimitCheck config operation query) = []
  \/ (operation = SELECT
      /\ RegExp.test RegExp.limitClause query = false
      /\ snd (SecurityValidator.rowLimitCheck config operation query)
         = [missingLimitWarning config]).
Proof.
  unfold SecurityValidator.rowLimitCheck.
  destruct operation; try (now left).
  destruct (RegExp.test RegExp.limitClause query) eqn:E; cbn [negb].
  - left.
    destruct (RegExp.search RegExp.limitClause query) as [[? ?]|];
      [|reflexivity].
    now destruct (SecurityValidator.exceeds _ _).
  - right. repeat split.
Qed.

(** X11.  The only warning [validate] ever gives is the one about a
    missing limit clause: at most once, and only for a SELECT query that
    has no limit clause. *)
Theorem warnings_only_missing_limit config query userContext r :
  SecurityValidator.settled
    (SecurityValidator.validate config query userContext)
  = SecurityValidator.Resolved r ->
  SecurityValidator.warnings r = []
  \/ (SecurityValidator.detectOperation query = Some SELECT
      /\ ~ hasLimitClause query
      /\ SecurityValidator.warnings r = [missingLimitWarning config]).
Proof.
  intros Hrun.
  destruct (resolved_warnings _ _ _ _ Hrun) as [H|(operation & Hop & Hw)];
    [now left|].
  destruct (rowLimit_warnings config operation query) as [H|(-> & Ht & H)].
  - left. congruence.
  - right. repeat split; [exact Hop | | congruence].
    intros Hc. apply limitClause_test in Hc. congruence.
Qed.

Lemma warnings_only_missing_limit_witness :
  ["Query does not have a LIMIT clause. Maximum 100 rows will be enforced."]
  = []
  \/ (SecurityValidator.detectOperation "SELECT * FROM users" = Some SELECT
      /\ ~ hasLimitClause "SELECT * FROM users"
      /\ ["Query does not have a LIMIT clause. Maximum 100 rows will be enforced."]
         = [missingLimitWarning
              (SecurityValidator.new (Some rowLimitConfig))]).
Proof.
  apply (warnings_only_missing_limit
           (SecurityValidator.new (Some rowLimitConfig))
           "SELECT * FROM users" None
           (SecurityValidator.mkResult true []
              ["Query does not have a LIMIT clause. Maximum 100 rows will be enforced."])).
  reflexivity.
Defined.

(** X12.  After [addLimitIfMissing] with a limit that is a safe integer
    and not negative the query has a limit clause, and [validate] gives no
    warning on it. *)
Theorem limited_query_not_warned config query n userContext r :
  (0 <= n <= JS.MAX_SAFE_INTEGER)%Z ->
  SecurityValidator.settled
    (SecurityValidator.validate config
       (QuerySanitizer.addLimitIfMissing query n) userContext)
  = SecurityValidator.Resolved r ->
  hasLimitClause (QuerySanitizer.addLimitIfMissing query n)
  /\ SecurityValidator.warnings r = [].
Proof.
  intros [Hn _] Hrun.
  assert (RegExp.test RegExp.limitClause
            (QuerySanitizer.addLimitIfMissing query n) = true) as Ht.
  { unfold QuerySanitizer.addLimitIfMissing.
    destruct (RegExp.test RegExp.limitClause query) eqn:E; cbn [negb];
      [exact E | now apply limit_after_append]. }
  split; [now apply limitClause_test|].
  destruct (resolved_warnings _ _ _ _ Hrun) as [H|(operation & Hop & Hw)];
    [exact H|].
  destruct (rowLimit_warnings config operation
              (QuerySanitizer.addLimitIfMissing query n))
    as [H|(_ & Hf & _)]; congruence.
Qed.

Lemma limited_query_not_warned_witness :
  hasLimitClause (QuerySanitizer.addLimitIfMissing "SELECT * FROM users" 100)
  /\ SecurityValidator.warnings (SecurityValidator.mkResult true [] []) = [].
Proof.
  apply (limited_query_not_warned
           (SecurityValidator.new (Some rowLimitConfig))
           "SELECT * FROM users" 100 None);
    [unfold JS.MAX_SAFE_INTEGER; lia | reflexivity].
Defined.

(** ** QuerySanitizer.escapeValue *)

Lemma escapeValue_count (c : ascii) (value : string) :
  JS.countChar c (QuerySanitizer.escapeValue value)
  = if Ascii.eqb c "'" then 2 * JS.countChar c value
    else JS.countChar c value.
Proof.
  induction value as [|x value IH]; simpl.
  - now destruct (Ascii.eqb c "'").
  - destruct (Ascii.eqb_spec x "'") as [->|Hx].
    + cbn [JS.countChar]. rewrite IH.
      destruct (Ascii.eqb c "'"); lia.
    + cbn [JS.countChar]. rewrite IH.
      destruct (Ascii.eqb_spec c "'") as [->|Hc]; [|reflexivity].
      rewrite (proj2 (Ascii.eqb_neq _ _)) by congruence. lia.
Qed.

Lemma escapeValue_injective (a b : string) :
  QuerySanitizer.escapeValue a = QuerySanitizer.escapeValue b -> a = b.
Proof.
  revert b. induction a as [|x a IH]; intros [|y b]; simpl.
  - reflexivity.
  - destruct (Ascii.eqb y "'"); discriminate.
  - destruct (Ascii.eqb x "'"); discriminate.
  - destruct (Ascii.eqb_spec x "'") as [->|Hx];
      destruct (Ascii.eqb_spec y "'") as [->|Hy].
    + intros [= H]. now rewrite (IH _ H).
    + intros [= H _]. congruence.
    + intros [= H _]. congruence.
    + intros [= -> H]. now rewrite (IH _ H).
Qed.

(** X13.  [escapeValue] doubles the single quotes and changes nothing
    else: the number of single quotes doubles, the number of every other
    character stays, a value without single quotes is returned as it is,
    and two different values never escape to the same text.  Hence a
    literal made of an escaped value between two single quotes always has
    an even number of them. *)
Theorem escapeValue_doubles_quotes (value : string) :
  JS.countChar "'" (QuerySanitizer.escapeValue value)
  = 2 * JS.countChar "'" value
  /\ (forall c, c <> "'"%char ->
                JS.countChar c (QuerySanitizer.escapeValue value)
                = JS.countChar c value)
  /\ (JS.countChar "'" value = 0 -> QuerySanitizer.escapeValue value = value)
  /\ (forall other,
        QuerySanitizer.escapeValue other = QuerySanitizer.escapeValue value ->
        other = value)
  /\ evenCount "'" ("'" ++ QuerySanitizer.escapeValue value ++ "'").
Proof.
  split; [|split; [|split; [|split]]].
  - now rewrite escapeValue_count.
  - intros c Hc. rewrite escapeValue_count.
    now rewrite (proj2 (Ascii.eqb_neq _ _)) by exact Hc.
  - induction value as [|x value IH]; [reflexivity|].
    cbn [JS.countChar QuerySanitizer.escapeValue].
    rewrite (Ascii.eqb_sym "'" x).
    destruct (Ascii.eqb x "'"); [discriminate|].
    simpl. intros H. now rewrite IH.
  - intros other. apply escapeValue_injective.
  - unfold evenCount. exists (S (JS.countChar "'" value)).
    cbn [append JS.countChar]. rewrite Ascii.eqb_refl.
    assert (forall a b, JS.countChar "'" (a ++ b)
                        = JS.countChar "'" a + JS.countChar "'" b) as Hadd.
    { intros a b. induction a as [|x a IHa]; simpl; [reflexivity|].
      rewrite IHa. lia. }
    rewrite Hadd, escapeValue_count. simpl. lia.
Qed.

Lemma escapeValue_doubles_quotes_witness :
  QuerySanitizer.escapeValue "SELECT" = "SELECT".
Proof.
  apply (escapeValue_doubles_quotes "SELECT"). reflexivity.
Defined.

(** ** The table names that are extracted *)

Lemma dedupe_In (x : string) (xs : list string) :
  In x (SecurityValidator.dedupe xs) <-> In x xs.
Proof.
  induction xs as [|y xs IH]; simpl; [tauto|].
  rewrite filter_In, IH. destruct (String.eqb_spec y x) as [->|Hne].
  - tauto.
  - simpl. intuition congruence.
Qed.

Lemma dedupe_NoDup (xs : list string) : NoDup (SecurityValidator.dedupe xs).
Proof.
  induction xs as [|y xs IH]; simpl; constructor.
  - rewrite filter_In, String.eqb_refl. simpl. intros [_ H]. discriminate.
  - now apply NoDup_filter.
Qed.

Lemma identStart_not_space (c : ascii) :
  RegExp.isIdentStart c = true -> JS.isWhiteSpace c = false.
Proof. by_cases_on_char c. Qed.

Lemma identChar_not_space (c : ascii) :
  RegExp.isIdentChar c = true -> notWhiteSpace c = true.
Proof. by_cases_on_char c. Qed.

Lemma lowerChar_notUpper (c : ascii) : notUpper (JS.lowerChar c) = true.
Proof. by_cases_on_char c. Qed.

Lemma lowerChar_fixed (c : ascii) :
  notUpper c = true -> JS.lowerChar c = c.
Proof. by_cases_on_char c. Qed.

Lemma lower_upper_char (c : ascii) :
  JS.lowerChar (JS.upperChar c) = JS.lowerChar c.
Proof. by_cases_on_char c. Qed.

Lemma toLowerCase_notUpper (s : string) :
  allChars notUpper (JS.toLowerCase s) = true.
Proof.
  unfold JS.toLowerCase. induction s as [|c s IH]; [reflexivity|].
  cbn [JS.mapString allChars]. now rewrite lowerChar_notUpper, IH.
Qed.

Lemma toLowerCase_fixed (s : string) :
  allChars notUpper s = true <-> JS.toLowerCase s = s.
Proof.
  unfold JS.toLowerCase. induction s as [|c s IH]; [tauto|].
  cbn [JS.mapString allChars]. rewrite andb_true_iff, IH. split.
  - intros [Hc Hs]. now rewrite (lowerChar_fixed c Hc), Hs.
  - intros [= Hc Hs]. split; [|exact Hs].
    rewrite <- Hc. apply lowerChar_notUpper.
Qed.

Lemma lower_upper (s : string) :
  JS.toLowerCase (JS.toUpperCase s) = JS.toLowerCase s.
Proof.
  unfold JS.toLowerCase, JS.toUpperCase.
  induction s as [|c s IH]; [reflexivity|].
  cbn [JS.mapString]. now rewrite lower_upper_char, IH.
Qed.

Lemma allChars_weaken (p q : ascii -> bool) (s : string) :
  (forall c, p c = true -> q c = true) ->
  allChars p s = true -> allChars q s = true.
Proof.
  intros Hpq. induction s as [|c s IH]; [reflexivity|].
  cbn [allChars]. rewrite !andb_true_iff. intros [Hc Hs]. auto.
Qed.

Lemma trimStart_fixed (c : ascii) (s : string) :
  JS.isWhiteSpace c = false -> JS.trimStart (String c s) = String c s.
Proof. intros H. simpl. now rewrite H. Qed.

Lemma trimEnd_fixed (s : string) :
  allChars notWhiteSpace s = true -> JS.trimEnd s = s.
Proof.
  induction s as [|c s IH]; [reflexivity|].
  cbn [allChars]. unfold notWhiteSpace at 1. intros H.
  apply andb_true_iff in H. destruct H as [Hc Hs].
  apply negb_true_iff in Hc. cbn [JS.trimEnd]. rewrite (IH Hs), Hc.
  now destruct s.
Qed.

Lemma trim_identifier (t : string) :
  identifier t = true -> JS.trim t = t.
Proof.
  destruct t as [|c tl]; [discriminate|]. cbn [identifier].
  intros H. apply andb_true_iff in H. destruct H as [Hc Htl].
  unfold JS.trim. rewrite (trimStart_fixed c tl (identStart_not_space c Hc)).
  apply trimEnd_fixed. cbn [allChars]. unfold notWhiteSpace at 1.
  rewrite (identStart_not_space c Hc). simpl.
  exact (allChars_weaken _ _ _ identChar_not_space Htl).
Qed.

Lemma keywordTable_sound (kw s : string) (r : RegExp.MatchResult) :
  RegExp.keywordTable kw s = Some r ->
  exists k ws,
    s = k ++ ws ++ RegExp.group1 r ++ RegExp.rest r
    /\ RegExp.matched r = k ++ ws ++ RegExp.group1 r
    /\ JS.toUpperCase k = JS.toUpperCase kw
    /\ ws <> EmptyString /\ allChars JS.isWhiteSpace ws = true
    /\ identifier (RegExp.group1 r) = true
    /\ stopsAt RegExp.isIdentChar (RegExp.rest r).
Proof.
  unfold RegExp.keywordTable.
  destruct (RegExp.lit true kw s) as [[k r1]|] eqn:El; [|discriminate].
  destruct (RegExp.span JS.isWhiteSpace r1) as [ws r2] eqn:Ew.
  destruct r2 as [|c r3]; [discriminate|].
  destruct (RegExp.nonEmpty ws && RegExp.isIdentStart c) eqn:Ec;
    [|discriminate].
  destruct (RegExp.span RegExp.isIdentChar r3) as [tl r4] eqn:Et.
  intros [= <-]. cbn [RegExp.group1 RegExp.rest RegExp.matched].
  apply andb_true_iff in Ec. destruct Ec as [Hws Hc].
  apply lit_sound in El. destruct El as (-> & Hk).
  apply span_sound in Ew. destruct Ew as (-> & Hw & _).
  apply span_sound in Et. destruct Et as (-> & Ht & Hstop).
  exists k, ws. repeat split; auto.
  - now destruct ws.
  - cbn [identifier]. now rewrite Hc, Ht.
Qed.

(** The texts that a search with the [g] flag returns are matches at
    positions of the input. *)
Lemma matchAllFuel_elements (m : string -> option RegExp.MatchResult)
      (fuel : nat) :
  (forall h r, m h = Some r -> h = RegExp.matched r ++ RegExp.rest r) ->
  forall s x,
    In x (RegExp.matchAllFuel fuel m s) ->
    exists a here r,
      s = a ++ here /\ m here = Some r /\ x = RegExp.matched r.
Proof.
  intros Hm. induction fuel as [|fuel IH]; intros s x; simpl; [tauto|].
  destruct (RegExp.search m s) as [[before r]|] eqn:E; [|simpl; tauto].
  apply search_sound in E. destruct E as (here & -> & Hhere).
  intros [<-|Hin].
  - now exists before, here, r.
  - destruct (IH _ _ Hin) as (a & h2 & r2 & Hrest & Hm2 & ->).
    exists (before ++ RegExp.matched r ++ a), h2, r2.
    repeat split; [|exact Hm2].
    rewrite (Hm _ _ Hhere), Hrest, !append_assoc. reflexivity.
Qed.

Lemma keywordTable_splits (kw h : string) (r : RegExp.MatchResult) :
  RegExp.keywordTable kw h = Some r ->
  h = RegExp.matched r ++ RegExp.rest r.
Proof.
  intros H. apply keywordTable_sound in H.
  destruct H as (k & ws & -> & -> & _). now rewrite !append_assoc.
Qed.

(** Taking the keyword and the white space off a match leaves the
    identifier. *)
Lemma tableOf_match (kw k ws t : string) :
  JS.toUpperCase k = JS.toUpperCase kw ->
  ws <> EmptyString -> allChars JS.isWhiteSpace ws = true ->
  identifier t = true ->
  JS.trim (RegExp.replace (RegExp.keywordSpaces kw) EmptyString
                          (k ++ ws ++ t)) = t.
Proof.
  intros Hk Hne Hws Ht.
  assert (RegExp.keywordSpaces kw (k ++ ws ++ t)
          = Some (RegExp.mkMatch (k ++ ws) EmptyString t)) as Hm.
  { unfold RegExp.keywordSpaces. rewrite (lit_complete true kw k) by exact Hk.
    rewrite (span_complete JS.isWhiteSpace ws t Hws).
    - now destruct ws.
    - destruct t as [|c tl]; [exact I|]. cbn [identifier] in Ht.
      apply andb_true_iff in Ht. apply identStart_not_space, Ht. }
  unfold RegExp.replace.
  assert (RegExp.search (RegExp.keywordSpaces kw) (k ++ ws ++ t)
          = Some (EmptyString, RegExp.mkMatch (k ++ ws) EmptyString t)) as ->.
  { destruct (k ++ ws ++ t); simpl; now rewrite Hm. }
  cbn [RegExp.rest RegExp.matched RegExp.GetSubstitution append].
  now apply trim_identifier.
Qed.

Lemma keyword_lower (kw k : string) :
  allChars notUpper k = true -> JS.toLowerCase kw = kw ->
  JS.toUpperCase k = JS.toUpperCase kw -> k = kw.
Proof.
  intros Hk Hkw Hu. apply toLowerCase_fixed in Hk.
  now rewrite <- Hk, <- Hkw, <- (lower_upper k), Hu, lower_upper.
Qed.

(** A match of one of the table patterns in a text without upper-case
    letters. *)
Lemma keywordTable_named (kw s a here : string) (r : RegExp.MatchResult) :
  JS.toLowerCase kw = kw ->
  allChars notUpper s = true ->
  s = a ++ here ->
  RegExp.keywordTable kw here = Some r ->
  namedAfter [kw] s (RegExp.group1 r)
  /\ JS.trim (RegExp.replace (RegExp.keywordSpaces kw) EmptyString
                             (RegExp.matched r)) = RegExp.group1 r
  /\ JS.toLowerCase (RegExp.group1 r) = RegExp.group1 r.
Proof.
  intros Hkw Hs -> Hm. apply keywordTable_sound in Hm.
  destruct Hm as (k & ws & -> & Hmatched & Hk & Hne & Hws & Hid & Hstop).
  rewrite !allChars_append in Hs.
  repeat (apply andb_true_iff in Hs; destruct Hs as [? Hs]).
  assert (k = kw) as -> by now apply keyword_lower.
  split; [|split].
  - exists a, kw, ws, (RegExp.rest r). repeat split; simpl; auto.
  - rewrite Hmatched. now apply tableOf_match.
  - now apply toLowerCase_fixed.
Qed.

Lemma namedAfter_weaken (k1 k2 : list string) (s t : string) :
  incl k1 k2 -> namedAfter k1 s t -> namedAfter k2 s t.
Proof.
  intros Hincl (a & kw & ws & rest & H & Hin & H').
  exists a, kw, ws, rest. repeat split; try tauto. now apply Hincl.
Qed.

Lemma matchAll_tables (kw s x : string) :
  JS.toLowerCase kw = kw ->
  allChars notUpper s = true ->
  In x (map (fun m => JS.trim (RegExp.replace (RegExp.keywordSpaces kw)
                                              EmptyString m))
            (RegExp.matchAll (RegExp.keywordTable kw) s)) ->
  namedAfter [kw] s x /\ JS.toLowerCase x = x.
Proof.
  intros Hkw Hs Hin. apply in_map_iff in Hin.
  destruct Hin as (m & <- & Hin).
  apply (matchAllFuel_elements _ _ (keywordTable_splits kw)) in Hin.
  destruct Hin as (a & here & r & Hsplit & Hm & ->).
  destruct (keywordTable_named kw s a here r Hkw Hs Hsplit Hm)
    as (Hn & -> & Hl).
  auto.
Qed.

Lemma search_table (kw s : string) (before : string)
      (r : RegExp.MatchResult) :
  JS.toLowerCase kw = kw ->
  allChars notUpper s = true ->
  RegExp.search (RegExp.keywordTable kw) s = Some (before, r) ->
  namedAfter [kw] s (JS.trim (RegExp.group1 r))
  /\ JS.toLowerCase (JS.trim (RegExp.group1 r)) = JS.trim (RegExp.group1 r).
Proof.
  intros Hkw Hs E. apply search_sound in E.
  destruct E as (here & Hsplit & Hm).
  destruct (keywordTable_named kw s before here r Hkw Hs Hsplit Hm)
    as (Hn & _ & Hl).
  assert (JS.trim (RegExp.group1 r) = RegExp.group1 r) as ->; [|auto].
  apply trim_identifier. destruct Hn as (_ & _ & _ & _ & _ & _ & _ & _ & H & _).
  exact H.
Qed.

Lemma extractTableNames_elements (query table : string) :
  In table (SecurityValidator.extractTableNames query) ->
  namedAfter tableKeywords (JS.toLowerCase query) table
  /\ JS.toLowerCase table = table.
Proof.
  unfold SecurityValidator.extractTableNames. rewrite dedupe_In.
  pose proof (toLowerCase_notUpper query) as Hs.
  rewrite !in_app_iff. intros [H|[H|[H|H]]].
  - apply matchAll_tables in H; [|reflexivity|exact Hs].
    destruct H as [Hn Hl]. split; [|exact Hl].
    eapply namedAfter_weaken; [|exact Hn].
    intros x [<-|[]]. unfold tableKeywords. simpl. tauto.
  - apply matchAll_tables in H; [|reflexivity|exact Hs].
    destruct H as [Hn Hl]. split; [|exact Hl].
    eapply namedAfter_weaken; [|exact Hn].
    intros x [<-|[]]. unfold tableKeywords. simpl. tauto.
  - destruct (RegExp.search (RegExp.keywordTable "into")
                (JS.toLowerCase query)) as [[before r]|] eqn:E;
      [|contradiction].
    destruct H as [<-|[]].
    destruct (search_table "into" _ _ _ eq_refl Hs E) as [Hn Hl].
    split; [|exact Hl].
    eapply namedAfter_weaken; [|exact Hn].
    intros x [<-|[]]. unfold tableKeywords. simpl. tauto.
  - destruct (RegExp.search (RegExp.keywordTable "update")
                (JS.toLowerCase query)) as [[before r]|] eqn:E;
      [|contradiction].
    destruct H as [<-|[]].
    destruct (search_table "update" _ _ _ eq_refl Hs E) as [Hn Hl].
    split; [|exact Hl].
    eapply namedAfter_weaken; [|exact Hn].
    intros x [<-|[]]. unfold tableKeywords. simpl. tauto.
Qed.

(** X14.  The table names extracted by the validator have no duplicates,
    and each of them is a non-empty identifier in lower case that stands
    in the lower-cased query right after FROM, JOIN, INTO or UPDATE and
    some white space. *)
Theorem extracted_table_names (query : string) :
  NoDup (SecurityValidator.extractTableNames query)
  /\ forall table,
      In table (SecurityValidator.extractTableNames query) ->
      namedAfter tableKeywords (JS.toLowerCase query) table
      /\ JS.toLowerCase table = table.
Proof.
  split.
  - apply dedupe_NoDup.
  - apply extractTableNames_elements.
Qed.

Lemma extracted_table_names_witness :
  namedAfter tableKeywords
    (JS.toLowerCase "SELECT * FROM Users u JOIN orders o ON o.uid = u.id")
    "users"
  /\ JS.toLowerCase "users" = "users".
Proof.
  apply (proj2 (extracted_table_names
                  "SELECT * FROM Users u JOIN orders o ON o.uid = u.id")).
  simpl. tauto.
Defined.

(** X15.  Table names are compared in lower case with the allow-list as
    it is written: when every entry of a non-empty allow-list has an
    upper-case letter, no query in which a table name is found gets a
    valid verdict. *)
Theorem upper_case_allow_list_blocks config query userContext r allowed :
  SecurityValidator.allowedTables config = Some allowed ->
  allowed <> [] ->
  (forall entry, In entry allowed -> JS.toLowerCase entry <> entry) ->
  SecurityValidator.extractTableNames query <> [] ->
  SecurityValidator.settled
    (SecurityValidator.validate config query userContext)
  = SecurityValidator.Resolved r ->
  SecurityValidator.valid r = false.
Proof.
  intros Hallowed Hne Hupper Htables Hrun.
  destruct (validate_resolved _ _ _ _ Hrun)
    as [Hv|(operation & _ & _ & Hpol & _)]; [exact Hv | exfalso].
  apply policyErrors_nil in Hpol. destruct Hpol as (_ & _ & _ & Htab & _).
  destruct (SecurityValidator.extractTableNames query) as [|t ts] eqn:E;
    [congruence|].
  assert (In t (SecurityValidator.extractTableNames query)) as Hin
      by (rewrite E; now left).
  pose proof (tableError_nil _ _ _ Hallowed Hne Htab t Hin) as Hallow.
  apply extractTableNames_elements in Hin. destruct Hin as [_ Hl].
  exact (Hupper t Hallow Hl).
Qed.

Lemma upper_case_allow_list_blocks_witness :
  SecurityValidator.valid
    (SecurityValidator.mkResult false
       ["Query accesses unauthorized tables: users"]
       ["Query does not have a LIMIT clause. Maximum 1000 rows will be enforced."])
  = false.
Proof.
  apply (upper_case_allow_list_blocks
           (SecurityValidator.new
              (Some (mkSecurityConfig
                       (Specified (Some [SELECT]))
                       (Specified (Some ["Users"]))
                       Unspecified Unspecified (Specified (Some false))
                       Unspecified Unspecified)))
           "SELECT * FROM Users" None _ ["Users"]); try reflexivity.
  - discriminate.
  - intros entry [<-|[]]. discriminate.
  - discriminate.
Defined.

(** ** The generator's pipeline *)

Lemma trimStart_append (q x : string) :
  JS.trimStart q <> EmptyString ->
  JS.trimStart (q ++ x) = JS.trimStart q ++ x.
Proof.
  induction q as [|c q IH]; simpl; [congruence|].
  destruct (JS.isWhiteSpace c); [exact IH | reflexivity].
Qed.

Lemma trimEnd_append (a x : string) :
  exists y, JS.trimEnd (a ++ x) = JS.trimEnd a ++ y.
Proof.
  induction a as [|c a (y & Hy)].
  - now exists (JS.trimEnd x).
  - change (String c a ++ x) with (String c (a ++ x)).
    cbn [JS.trimEnd]. rewrite Hy.
    destruct (JS.trimEnd a) as [|d t] eqn:Ea; simpl.
    + destruct y as [|e y].
      * now exists EmptyString; destruct (JS.isWhiteSpace c).
      * destruct (JS.isWhiteSpace c).
        -- now exists (String c (String e y)).
        -- now exists (String e y).
    + now exists y.
Qed.

Lemma trim_append (q x : string) :
  JS.trim q <> EmptyString ->
  exists y, JS.trim (q ++ x) = JS.trim q ++ y.
Proof.
  unfold JS.trim. intros H.
  rewrite trimStart_append by (intros E; rewrite E in H; now apply H).
  apply trimEnd_append.
Qed.

Lemma startsWith_append_l (s t p : string) :
  JS.startsWith s p = true -> JS.startsWith (s ++ t) p = true.
Proof.
  intros H. apply startsWith_split in H. destruct H as [r ->].
  rewrite append_assoc. apply startsWith_append.
Qed.

Lemma startsWith_after_append (q x keyword : string) :
  keyword <> EmptyString ->
  JS.startsWith (JS.toUpperCase (JS.trim q)) keyword = true ->
  JS.startsWith (JS.toUpperCase (JS.trim (q ++ x))) keyword = true.
Proof.
  intros Hk H.
  assert (JS.trim q <> EmptyString) as Hne.
  { intros E. rewrite E in H. destruct keyword; [congruence | discriminate]. }
  destruct (trim_append q x Hne) as [y ->].
  rewrite toUpperCase_append. now apply startsWith_append_l.
Qed.

Lemma startsWith_exclusive (s : string) (a b : ascii) (p p' : string) :
  JS.startsWith s (String a p) = true -> a <> b ->
  JS.startsWith s (String b p') = false.
Proof.
  destruct s as [|c s]; [discriminate|]. cbn [JS.startsWith].
  intros H Hab. apply andb_true_iff in H. destruct H as [Hc _].
  apply Ascii.eqb_eq in Hc. subst c.
  now rewrite (proj2 (Ascii.eqb_neq b a)) by congruence.
Qed.

(** Appending to a query does not change its operation. *)
Lemma detectOperation_append (q x : string) (operation : QueryOperation) :
  SecurityValidator.detectOperation q = Some operation ->
  SecurityValidator.detectOperation (q ++ x) = Some operation.
Proof.
  unfold SecurityValidator.detectOperation.
  destruct (JS.startsWith (JS.toUpperCase (JS.trim q)) "SELECT") eqn:E1.
  { intros [= <-].
    now rewrite (startsWith_after_append q x "SELECT" ltac:(discriminate) E1). }
  destruct (JS.startsWith (JS.toUpperCase (JS.trim q)) "INSERT") eqn:E2;
    [|destruct (JS.startsWith (JS.toUpperCase (JS.trim q)) "UPDATE") eqn:E3;
      [|destruct (JS.startsWith (JS.toUpperCase (JS.trim q)) "DELETE") eqn:E4;
        [|discriminate]]].
  all: intros [= <-].
  all: match goal with
       | H : JS.startsWith _ ?k = true |- _ =>
           pose proof (startsWith_after_append q x k ltac:(discriminate) H)
             as Hk
       end.
  all: rewrite ?(startsWith_exclusive _ _ "S" _ "ELECT" Hk) by discriminate.
  all: rewrite ?(startsWith_exclusive _ _ "I" _ "NSERT" Hk) by discriminate.
  all: rewrite ?(startsWith_exclusive _ _ "U" _ "PDATE" Hk) by discriminate.
  all: now rewrite Hk.
Qed.

Lemma detectOperation_addLimit (q : string) (n : Z)
      (operation : QueryOperation) :
  SecurityValidator.detectOperation q = Some operation ->
  SecurityValidator.detectOperation (QuerySanitizer.addLimitIfMissing q n)
  = Some operation.
Proof.
  intros H. unfold QuerySanitizer.addLimitIfMissing.
  destruct (negb _); [now apply detectOperation_append | exact H].
Qed.

(** What a successful run of the pipeline went through. *)
Lemma generateQuery_success config generation userInput userContext result :
  QueryGenerator.generateQuery config generation userInput userContext
  = QueryGenerator.Success result ->
  let context :=
    match userContext with
    | Some c => Some c
    | None => QueryGenerator.userContext config
    end in
  exists validation operation,
    SecurityValidator.settled
      (SecurityValidator.validate
         (SecurityValidator.new (QueryGenerator.security config))
         (QueryGenerator.query result) context)
    = SecurityValidator.Resolved validation
    /\ SecurityValidator.valid validation = true
    /\ SecurityValidator.detectOperation (QueryGenerator.query result)
       = Some operation
    /\ QueryGenerator.operation (QueryGenerator.metadata result)
       = Some operation
    /\ QueryGenerator.warnings result
       = SecurityValidator.warnings validation
    /\ QueryGenerator.tables (QueryGenerator.metadata result)
       = QueryGenerator.extractTables (QueryGenerator.query result)
    /\ (operation = SELECT ->
        forall n, QueryGenerator.requestedRowLimit config = Some n ->
                  exists q, QueryGenerator.query result
                            = QuerySanitizer.addLimitIfMissing q n).
Proof.
  cbv zeta. unfold QueryGenerator.generateQuery.
  destruct generation as [rawResponse|e|[m|]]; try discriminate.
  destruct (negb (QuerySanitizer.valid _)); [discriminate|].
  set (context := match userContext with
                  | Some c => Some c
                  | None => QueryGenerator.userContext config
                  end).
  set (q1 := if QueryGenerator.rowLevelSecurityRequested config then _
             else _).
  change (QueryGenerator.detectOperation q1)
    with (SecurityValidator.detectOperation q1).
  set (q2 := match SecurityValidator.detectOperation q1,
                   QueryGenerator.requestedRowLimit config with
             | Some SELECT, Some maxRowLimit =>
                 QuerySanitizer.addLimitIfMissing q1 maxRowLimit
             | _, _ => q1
             end).
  destruct (SecurityValidator.settled
              (SecurityValidator.validate
                 (SecurityValidator.new (QueryGenerator.security config))
                 q2 context)) as [validation|reason] eqn:Hrun;
    [|discriminate].
  destruct (SecurityValidator.valid validation) eqn:Hvalid;
    [|discriminate].
  cbn [negb]. intros [= <-].
  cbn [QueryGenerator.query QueryGenerator.metadata QueryGenerator.operation
       QueryGenerator.warnings QueryGenerator.tables].
  destruct (valid_false_or_true _ _ (validate_resolved _ _ _ _ Hrun) Hvalid)
    as (operation & _ & Hop & _).
  exists validation, operation.
  assert (SecurityValidator.detectOperation q1 = Some operation) as Hop1.
  { subst q2.
    destruct (SecurityValidator.detectOperation q1) as [op1|] eqn:E1;
      [destruct op1;
       [destruct (QueryGenerator.requestedRowLimit config) as [n|]|..]|];
      try congruence.
    rewrite (detectOperation_addLimit q1 n SELECT E1) in Hop. congruence. }
  repeat split; try assumption; try reflexivity.
  intros -> n Hn. exists q1. subst q2. now rewrite Hop1, Hn.
Qed.

Lemma operationError_nil config operation ops :
  SecurityValidator.allowedOperations config = Some ops ->
  SecurityValidator.operationError config operation = [] ->
  In operation ops.
Proof.
  intros Hops Ho. unfold SecurityValidator.operationError in Ho.
  rewrite Hops in Ho.
  destruct (existsb (SecurityValidator.operation_eqb operation) ops) eqn:E;
    [|discriminate].
  apply existsb_exists in E. destruct E as (x & Hin & Hx).
  unfold SecurityValidator.operation_eqb in Hx. apply String.eqb_eq in Hx.
  apply operationName_injective in Hx. now subst.
Qed.

(** The policy checks that a successful run has passed. *)
Lemma generateQuery_policy config generation userInput userContext result :
  QueryGenerator.generateQuery config generation userInput userContext
  = QueryGenerator.Success result ->
  exists operation,
    SecurityValidator.detectOperation (QueryGenerator.query result)
    = Some operation
    /\ QueryGenerator.operation (QueryGenerator.metadata result)
       = Some operation
    /\ policyErrors (SecurityValidator.new (QueryGenerator.security config))
         operation (QueryGenerator.query result) = [].
Proof.
  intros H. destruct (generateQuery_success _ _ _ _ _ H)
    as (validation & operation & Hrun & Hvalid & Hop & Hmeta & _).
  exists operation. repeat split; try assumption.
  destruct (valid_false_or_true _ _ (validate_resolved _ _ _ _ Hrun) Hvalid)
    as (op' & _ & Hop' & Hpol & _).
  rewrite Hop in Hop'. now injection Hop' as <-.
Qed.

(** X16.  A successful run of [generateQuery] returns a query that the
    validator has accepted, in the context that was used: the verdict on
    the returned query is valid, the warnings are those of that verdict,
    and the operation in the metadata is the operation of the returned
    query, which is one of the allowed operations. *)
Theorem generated_query_validated config generation userInput userContext
        result :
  QueryGenerator.generateQuery config generation userInput userContext
  = QueryGenerator.Success result ->
  let validator := SecurityValidator.new (QueryGenerator.security config) in
  let context :=
    match userContext with
    | Some c => Some c
    | None => QueryGenerator.userContext config
    end in
  exists validation operation,
    SecurityValidator.settled
      (SecurityValidator.validate validator (QueryGenerator.query result)
                                  context)
    = SecurityValidator.Resolved validation
    /\ SecurityValidator.valid validation = true
    /\ QueryGenerator.warnings result
       = SecurityValidator.warnings validation
    /\ SecurityValidator.detectOperation (QueryGenerator.query result)
       = Some operation
    /\ QueryGenerator.operation (QueryGenerator.metadata result)
       = Some operation
    /\ (forall ops,
          SecurityValidator.allowedOperations validator = Some ops ->
          In operation ops).
Proof.
  intros H. cbv zeta.
  destruct (generateQuery_success _ _ _ _ _ H)
    as (validation & operation & Hrun & Hvalid & Hop & Hmeta & Hw & _).
  exists validation, operation. repeat split; try assumption.
  intros ops Hops.
  destruct (generateQuery_policy _ _ _ _ _ H) as (op' & Hop' & _ & Hpol).
  rewrite Hop in Hop'. injection Hop' as <-.
  apply policyErrors_nil in Hpol. destruct Hpol as (Ho & _).
  exact (operationError_nil _ _ _ Hops Ho).
Qed.

(** X17.  When the configuration sets a maximum that is a positive safe
    integer, the query of a successful SELECT generation has a limit
    clause, and the number of its first limit clause is at most the
    maximum. *)
Theorem generated_select_is_limited config generation userInput userContext
        result s n :
  QueryGenerator.security config = Some s ->
  cfg_maxRowLimit s = Specified (Some n) ->
  (0 < n <= JS.MAX_SAFE_INTEGER)%Z ->
  QueryGenerator.generateQuery config generation userInput userContext
  = QueryGenerator.Success result ->
  QueryGenerator.operation (QueryGenerator.metadata result) = Some SELECT ->
  hasLimitClause (QueryGenerator.query result)
  /\ forall before m,
      RegExp.search RegExp.limitClause (QueryGenerator.query result)
      = Some (before, m) ->
      (JS.parseInt (RegExp.group1 m) <= n)%Z.
Proof.
  intros Hs Hmax [Hn _] H Hsel.
  destruct (generateQuery_success _ _ _ _ _ H)
    as (validation & operation & _ & _ & _ & Hmeta & _ & _ & Hlimit).
  rewrite Hsel in Hmeta. injection Hmeta as <-.
  assert (QueryGenerator.requestedRowLimit config = Some n) as Hreq.
  { unfold QueryGenerator.requestedRowLimit. rewrite Hs, Hmax.
    destruct (n =? 0)%Z eqn:E; [apply Z.eqb_eq in E; lia | reflexivity]. }
  destruct (Hlimit eq_refl n Hreq) as (q & Hq).
  split.
  - rewrite Hq. apply limitClause_test.
    unfold QuerySanitizer.addLimitIfMissing.
    destruct (RegExp.test RegExp.limitClause q) eqn:E; cbn [negb];
      [exact E | apply limit_after_append; lia].
  - intros before m Hsearch.
    destruct (generateQuery_policy _ _ _ _ _ H) as (op' & _ & Hop' & Hpol).
    rewrite Hsel in Hop'. injection Hop' as <-.
    apply policyErrors_nil in Hpol. destruct Hpol as (_ & _ & _ & _ & Hlim).
    apply (rowLimit_nil
             (SecurityValidator.new (QueryGenerator.security config))
             (QueryGenerator.query result) n before m); try assumption.
    rewrite Hs. unfold SecurityValidator.new. cbn. now rewrite Hmax.
Qed.

(** X18.  A completion whose sanitised text passes the syntax check but
    has none of the four operations in front (a query that starts with
    WITH) never succeeds: the run always fails with the code of a rejected
    security validation. *)
Theorem unrecognised_operation_fails config rawResponse userInput
        userContext :
  let query :=
    QuerySanitizer.sanitize (QuerySanitizer.extractFromMarkdown rawResponse) in
  QuerySanitizer.valid (QuerySanitizer.validateSQLSyntax query) = true ->
  SecurityValidator.detectOperation query = None ->
  exists e,
    QueryGenerator.generateQuery config (QueryGenerator.Completion rawResponse)
      userInput userContext
    = QueryGenerator.Failure e
    /\ QueryGenerator.code e = "SECURITY_VALIDATION_FAILED".
Proof.
  cbv zeta. intros Hsyntax Hop. unfold QueryGenerator.generateQuery.
  rewrite Hsyntax. cbn [negb].
  set (context := match userContext with
                  | Some c => Some c
                  | None => QueryGenerator.userContext config
                  end).
  assert ((if QueryGenerator.rowLevelSecurityRequested config then
             match context with
             | Some _ =>
                 SecurityValidator.addRowLevelSecurity
                   (SecurityValidator.new (QueryGenerator.security config))
                   (QuerySanitizer.sanitize
                      (QuerySanitizer.extractFromMarkdown rawResponse))
                   context
             | None =>
                 QuerySanitizer.sanitize
                   (QuerySanitizer.extractFromMarkdown rawResponse)
             end
           else QuerySanitizer.sanitize
                  (QuerySanitizer.extractFromMarkdown rawResponse))
          = QuerySanitizer.sanitize
              (QuerySanitizer.extractFromMarkdown rawResponse)) as ->.
  { destruct (QueryGenerator.rowLevelSecurityRequested config);
      [|reflexivity].
    destruct context; [|reflexivity].
    apply rls_other_operation. rewrite Hop.
    intros [H|[H|H]]; discriminate. }
  change (QueryGenerator.detectOperation
            (QuerySanitizer.sanitize
               (QuerySanitizer.extractFromMarkdown rawResponse)))
    with (SecurityValidator.detectOperation
            (QuerySanitizer.sanitize
               (QuerySanitizer.extractFromMarkdown rawResponse))).
  rewrite Hop. unfold SecurityValidator.validate. rewrite Hop.
  destruct (_ && _); cbn; eexists; split; reflexivity.
Qed.

Lemma unrecognised_operation_fails_witness :
  exists e,
    QueryGenerator.generateQuery
      (QueryGenerator.mkTextToQueryConfig
         (SchemaAnalyzer.mkSchema [] SchemaAnalyzer.postgres)
         None None None)
      (QueryGenerator.Completion "WITH x AS (SELECT 1) SELECT * FROM x")
      "Show all" (Some (mkUserContext (IdNumber 7) "user" None None))
    = QueryGenerator.Failure e
    /\ QueryGenerator.code e = "SECURITY_VALIDATION_FAILED".
Proof.
  apply unrecognised_operation_fails; reflexivity.
Defined.

Lemma extractTables_subset (query table : string) :
  In table (QueryGenerator.extractTables query) ->
  In table (SecurityValidator.extractTableNames query).
Proof.
  unfold QueryGenerator.extractTables, SecurityValidator.extractTableNames.
  rewrite !dedupe_In, !in_app_iff. tauto.
Qed.

(** X19.  With a non-empty table allow-list in the configuration, every
    table named in the metadata of a successful generation is on the
    list. *)
Theorem generated_tables_allowed config generation userInput userContext
        result s allowed :
  QueryGenerator.security config = Some s ->
  cfg_allowedTables s = Specified (Some allowed) ->
  allowed <> [] ->
  QueryGenerator.generateQuery config generation userInput userContext
  = QueryGenerator.Success result ->
  forall table,
    In table (QueryGenerator.tables (QueryGenerator.metadata result)) ->
    In table allowed.
Proof.
  intros Hs Hallowed Hne H table Hin.
  destruct (generateQuery_success _ _ _ _ _ H)
    as (_ & _ & _ & _ & _ & _ & _ & Htables & _).
  rewrite Htables in Hin. apply extractTables_subset in Hin.
  destruct (generateQuery_policy _ _ _ _ _ H) as (op & _ & _ & Hpol).
  apply policyErrors_nil in Hpol. destruct Hpol as (_ & _ & _ & Htab & _).
  apply (tableError_nil
           (SecurityValidator.new (QueryGenerator.security config))
           (QueryGenerator.query result) allowed); try assumption.
  rewrite Hs. unfold SecurityValidator.new. cbn. now rewrite Hallowed.
Qed.

(** X20.  The query of a successful generation contains none of the
    banned words, in any case, and none of the restricted column names of
    the configuration. *)
Theorem generated_query_is_clean config generation userInput userContext
        result :
  QueryGenerator.generateQuery config generation userInput userContext
  = QueryGenerator.Success result ->
  (forall w,
      In (SecurityValidator.Word w) SecurityValidator.commandPatterns ->
      JS.includes (JS.toUpperCase (QueryGenerator.query result))
                  (JS.toUpperCase w) = false)
  /\ (forall columns column,
        SecurityValidator.restrictedColumns
          (SecurityValidator.new (QueryGenerator.security config))
        = Some columns ->
        In column columns ->
        JS.includes (JS.toLowerCase (QueryGenerator.query result))
                    (JS.toLowerCase column) = false).
Proof.
  intros H.
  destruct (generateQuery_policy _ _ _ _ _ H) as (op & _ & _ & Hpol).
  apply policyErrors_nil in Hpol.
  destruct Hpol as (_ & Hdang & Hres & _). split.
  - intros w Hw. now apply dangerousError_nil.
  - intros columns column Hcols Hin.
    exact (restrictedError_nil _ _ columns column Hcols Hres Hin).
Qed.

Lemma sample_generation :
  QueryGenerator.generateQuery sampleConfig
    (QueryGenerator.Completion "SELECT id, name FROM users;")
    "Show all users" sampleContext
  = QueryGenerator.Success sampleResult.
Proof. reflexivity. Qed.

Lemma generated_query_validated_witness :
  exists validation operation,
    SecurityValidator.settled
      (SecurityValidator.validate
         (SecurityValidator.new (QueryGenerator.security sampleConfig))
         (QueryGenerator.query sampleResult) sampleContext)
    = SecurityValidator.Resolved validation
    /\ SecurityValidator.valid validation = true
    /\ QueryGenerator.warnings sampleResult
       = SecurityValidator.warnings validation
    /\ SecurityValidator.detectOperation (QueryGenerator.query sampleResult)
       = Some operation
    /\ QueryGenerator.operation (QueryGenerator.metadata sampleResult)
       = Some operation
    /\ (forall ops,
          SecurityValidator.allowedOperations
            (SecurityValidator.new (QueryGenerator.security sampleConfig))
          = Some ops ->
          In operation ops).
Proof.
  apply (generated_query_validated sampleConfig
           (QueryGenerator.Completion "SELECT id, name FROM users;")
           "Show all users" sampleContext sampleResult).
  reflexivity.
Defined.

Lemma generated_select_is_limited_witness :
  hasLimitClause (QueryGenerator.query sampleResult)
  /\ forall before m,
      RegExp.search RegExp.limitClause (QueryGenerator.query sampleResult)
      = Some (before, m) ->
      (JS.parseInt (RegExp.group1 m) <= 50)%Z.
Proof.
  apply (generated_select_is_limited sampleConfig
           (QueryGenerator.Completion "SELECT id, name FROM users;")
           "Show all users" sampleContext sampleResult
           (mkSecurityConfig
              (Specified (Some [SELECT]))
              (Specified (Some ["users"; "orders"]))
              (Specified (Some ["password"]))
              (Specified (Some 50%Z))
              Unspecified Unspecified Unspecified) 50%Z);
    try reflexivity.
  unfold JS.MAX_SAFE_INTEGER. lia.
Defined.

Lemma generated_tables_allowed_witness :
  In "users" (QueryGenerator.tables (QueryGenerator.metadata sampleResult))
  /\ In "users" ["users"; "orders"].
Proof.
  assert (In "users"
             (QueryGenerator.tables (QueryGenerator.metadata sampleResult)))
    as Hin by (vm_compute; tauto).
  split; [exact Hin|].
  apply (generated_tables_allowed sampleConfig
           (QueryGenerator.Completion "SELECT id, name FROM users;")
           "Show all users" sampleContext sampleResult
           (mkSecurityConfig
              (Specified (Some [SELECT]))
              (Specified (Some ["users"; "orders"]))
              (Specified (Some ["password"]))
              (Specified (Some 50%Z))
              Unspecified Unspecified Unspecified)
           ["users"; "orders"]);
    [reflexivity | reflexivity | discriminate | reflexivity | exact Hin].
Defined.

Lemma generated_query_is_clean_witness :
  (forall w,
      In (SecurityValidator.Word w) SecurityValidator.commandPatterns ->
      JS.includes (JS.toUpperCase (QueryGenerator.query sampleResult))
                  (JS.toUpperCase w) = false)
  /\ (forall columns column,
        SecurityValidator.restrictedColumns
          (SecurityValidator.new (QueryGenerator.security sampleConfig))
        = Some columns ->
        In column columns ->
        JS.includes (JS.toLowerCase (QueryGenerator.query sampleResult))
                    (JS.toLowerCase column) = false).
Proof.
  apply (generated_query_is_clean sampleConfig
           (QueryGenerator.Completion "SELECT id, name FROM users;")
           "Show all users" sampleContext sampleResult).
  reflexivity.
Defined.

(** ** The schema analyzer *)

Lemma find_none_existsb {A : Type} (f : A -> bool) (l : list A) :
  find f l = None <-> existsb f l = false.
Proof.
  induction l as [|x l IH]; simpl; [tauto|].
  destruct (f x); simpl; [split; discriminate | exact IH].
Qed.

Lemma existsb_map {A B : Type} (f : B -> bool) (g : A -> B) (l : list A) :
  existsb f (map g l) = existsb (fun x => f (g x)) l.
Proof. induction l as [|x l IH]; simpl; [reflexivity | now rewrite IH]. Qed.

(** The test of [validateTables] on one name is the lookup of
    [findTable]. *)
Lemma findTable_existsb schema tableName :
  existsb (String.eqb (JS.toLowerCase tableName))
          (map JS.toLowerCase (SchemaAnalyzer.getTableNames schema))
  = false
  <-> SchemaAnalyzer.findTable schema tableName = None.
Proof.
  unfold SchemaAnalyzer.findTable, SchemaAnalyzer.getTableNames.
  rewrite find_none_existsb, !existsb_map.
  assert (forall l,
             existsb (fun x => String.eqb (JS.toLowerCase tableName)
                                 (JS.toLowerCase (SchemaAnalyzer.table_name x)))
                     l
             = existsb (fun t => String.eqb
                                   (JS.toLowerCase (SchemaAnalyzer.table_name t))
                                   (JS.toLowerCase tableName)) l) as ->.
  { induction l as [|x l IH]; simpl; [reflexivity|].
    now rewrite IH, String.eqb_sym. }
  tauto.
Qed.

(** X21.  [validateTables] and [findTable] agree: the missing names are
    exactly the given names that [findTable] does not find, in the order
    in which they were given, and the verdict is valid exactly when every
    given name is found. *)
Theorem validateTables_agrees_with_findTable schema tableNames :
  let v := SchemaAnalyzer.validateTables schema tableNames in
  SchemaAnalyzer.missing v
  = filter (fun name =>
              match SchemaAnalyzer.findTable schema name with
              | None => true
              | Some _ => false
              end) tableNames
  /\ (forall name,
        In name (SchemaAnalyzer.missing v)
        <-> In name tableNames
            /\ SchemaAnalyzer.findTable schema name = None)
  /\ (SchemaAnalyzer.valid v = true
      <-> forall name, In name tableNames ->
                       SchemaAnalyzer.findTable schema name <> None).
Proof.
  cbv zeta. unfold SchemaAnalyzer.validateTables.
  cbn [SchemaAnalyzer.missing SchemaAnalyzer.valid].
  assert (forall name,
             negb (existsb (String.eqb (JS.toLowerCase name))
                     (map JS.toLowerCase
                          (SchemaAnalyzer.getTableNames schema))) = true
             <-> SchemaAnalyzer.findTable schema name = None) as Htest.
  { intros name. rewrite negb_true_iff. apply findTable_existsb. }
  split; [|split].
  - apply filter_ext. intros name.
    destruct (SchemaAnalyzer.findTable schema name) eqn:E.
    + destruct (negb _) eqn:En; [|reflexivity].
      apply Htest in En. congruence.
    + now apply Htest.
  - intros name. rewrite filter_In, Htest. tauto.
  - rewrite Nat.eqb_eq, length_zero_iff_nil. split.
    + intros Hnil name Hin Hnone.
      assert (In name
                 (filter (fun tableName =>
                            negb (existsb
                                    (String.eqb (JS.toLowerCase tableName))
                                    (map JS.toLowerCase
                                       (SchemaAnalyzer.getTableNames schema))))
                         tableNames)) as Hf
          by (apply filter_In; split; [exact Hin | now apply Htest]).
      rewrite Hnil in Hf. contradiction.
    + intros Hall.
      destruct (filter _ tableNames) as [|x xs] eqn:E; [reflexivity|].
      assert (In x (x :: xs)) as Hx by now left.
      rewrite <- E in Hx. apply filter_In in Hx. destruct Hx as [Hin Hx].
      apply Htest in Hx. now destruct (Hall x Hin).
Qed.

Lemma validateTables_agrees_with_findTable_witness :
  In "orders"
     (SchemaAnalyzer.missing
        (SchemaAnalyzer.validateTables
           (SchemaAnalyzer.mkSchema
              [SchemaAnalyzer.mkTable "Users" [] None None None]
              SchemaAnalyzer.postgres)
           ["users"; "orders"])).
Proof.
  apply (proj1 (proj2 (validateTables_agrees_with_findTable
                         (SchemaAnalyzer.mkSchema
                            [SchemaAnalyzer.mkTable "Users" [] None None None]
                            SchemaAnalyzer.postgres)
                         ["users"; "orders"]))).
  split; [simpl; tauto | reflexivity].
Defined.

(** X22.  The table names of a schema always pass [validateTables] on
    that schema, also when they are written in another case. *)
Theorem own_tables_are_valid schema tableNames :
  (forall name, In name tableNames ->
                exists table,
                  In table (SchemaAnalyzer.tables schema)
                  /\ JS.toLowerCase (SchemaAnalyzer.table_name table)
                     = JS.toLowerCase name) ->
  SchemaAnalyzer.validateTables schema tableNames
  = SchemaAnalyzer.mkTablesValidation true [].
Proof.
  intros Hall. unfold SchemaAnalyzer.validateTables.
  assert (filter (fun tableName =>
                    negb (existsb (String.eqb (JS.toLowerCase tableName))
                            (map JS.toLowerCase
                               (SchemaAnalyzer.getTableNames schema))))
                 tableNames = []) as ->; [|reflexivity].
  induction tableNames as [|name names IH]; [reflexivity|].
  cbn [filter].
  assert (existsb (String.eqb (JS.toLowerCase name))
            (map JS.toLowerCase (SchemaAnalyzer.getTableNames schema))
          = true) as ->.
  { destruct (Hall name (or_introl eq_refl)) as (table & Hin & Hname).
    apply existsb_exists.
    exists (JS.toLowerCase (SchemaAnalyzer.table_name table)). split.
    - unfold SchemaAnalyzer.getTableNames. now apply in_map, in_map.
    - rewrite Hname. apply String.eqb_refl. }
  cbn [negb]. apply IH. intros n Hn. apply Hall. now right.
Qed.

Lemma own_tables_are_valid_witness :
  SchemaAnalyzer.validateTables
    (SchemaAnalyzer.mkSchema
       [SchemaAnalyzer.mkTable "Users" [] None None None]
       SchemaAnalyzer.postgres)
    ["USERS"; "users"]
  = SchemaAnalyzer.mkTablesValidation true [].
Proof.
  apply own_tables_are_valid. intros name [<-|[<-|[]]];
    exists (SchemaAnalyzer.mkTable "Users" [] None None None);
    (split; [simpl; tauto | reflexivity]).
Defined.

(** X23.  [getSensitiveColumns] lists exactly the columns that are
    flagged sensitive, each with the name of its table. *)
Theorem sensitive_columns_listed schema (t c : string) :
  In (t, c) (SchemaAnalyzer.getSensitiveColumns schema)
  <-> exists table column,
      In table (SchemaAnalyzer.tables schema)
      /\ In column (SchemaAnalyzer.table_columns table)
      /\ SchemaAnalyzer.column_sensitive column = Some true
      /\ t = SchemaAnalyzer.table_name table
      /\ c = SchemaAnalyzer.column_name column.
Proof.
  unfold SchemaAnalyzer.getSensitiveColumns. rewrite in_flat_map.
  assert (forall b, SecurityValidator.truthy b = true <-> b = Some true)
    as Htruthy by (intros [[|]|]; simpl; split; congruence).
  split.
  - intros (table & Hin & Hcol). apply in_map_iff in Hcol.
    destruct Hcol as (column & [= <- <-] & Hf). apply filter_In in Hf.
    destruct Hf as [Hc Hs]. exists table, column.
    repeat split; try assumption. now apply Htruthy.
  - intros (table & column & Hin & Hc & Hs & -> & ->).
    exists table. split; [exact Hin|].
    apply in_map_iff. exists column. split; [reflexivity|].
    apply filter_In. split; [exact Hc | now apply Htruthy].
Qed.

(** X24.  Every example query that the analyzer generates is a SELECT for
    the validator, whatever the names in the schema. *)
Theorem examples_are_selects schema example :
  In example (SchemaAnalyzer.generateExampleQueries schema) ->
  SecurityValidator.detectOperation example = Some SELECT.
Proof.
  unfold SchemaAnalyzer.generateExampleQueries. rewrite in_flat_map.
  intros (table & _ & Hin). apply in_app_or in Hin.
  destruct Hin as [Hin|Hin].
  - destruct (RegExp.nonEmpty _); [|contradiction].
    destruct Hin as [<-|[]].
    now apply (detectOperation_append "SELECT ").
  - destruct (SchemaAnalyzer.table_foreignKeys table) as [[|fk fks]|];
      try contradiction.
    destruct Hin as [<-|[]].
    now apply (detectOperation_append "SELECT ").
Qed.

Lemma examples_are_selects_witness :
  SecurityValidator.detectOperation "SELECT id, email FROM users LIMIT 10"
  = Some SELECT.
Proof.
  apply (examples_are_selects
           (SchemaAnalyzer.mkSchema
              [SchemaAnalyzer.mkTable "users"
                 [SchemaAnalyzer.mkColumn "id" "integer" None None None;
                  SchemaAnalyzer.mkColumn "password" "varchar" None None
                    (Some true);
                  SchemaAnalyzer.mkColumn "email" "varchar" None None None]
                 None None None]
              SchemaAnalyzer.postgres)).
  simpl. tauto.
Defined.

(** ** The sanitizer *)

Section ReplaceAll.

Variable m : string -> option RegExp.MatchResult.

Hypothesis m_sound :
  forall s r, m s = Some r -> s = RegExp.matched r ++ RegExp.rest r.

(** Replacing matches keeps every class of characters that the
    replacement text is in. *)
Lemma replaceAllFuel_allChars (cls : ascii -> bool)
      (replacement : string) (fuel : nat) (s : string) :
  allChars cls replacement = true ->
  allChars cls s = true ->
  allChars cls (RegExp.replaceAllFuel fuel m replacement s) = true.
Proof.
  intros Hr. revert s.
  induction fuel as [|fuel IH]; intros s Hs; cbn [RegExp.replaceAllFuel];
    [exact Hs|].
  destruct (RegExp.search m s) as [[before r]|] eqn:E; [|exact Hs].
  destruct (search_sound _ _ _ _ E) as (here & -> & Hm).
  apply m_sound in Hm. subst here.
  rewrite !allChars_append in Hs.
  apply andb_true_iff in Hs. destruct Hs as [Hb Hs].
  apply andb_true_iff in Hs. destruct Hs as [_ Hrest].
  rewrite !allChars_append, Hb, Hr, (IH _ Hrest). reflexivity.
Qed.

Lemma replace_empty_allChars (cls : ascii -> bool) (s : string) :
  allChars cls s = true ->
  allChars cls (RegExp.replace m EmptyString s) = true.
Proof.
  intros Hs. unfold RegExp.replace.
  destruct (RegExp.search m s) as [[before r]|] eqn:E; [|exact Hs].
  destruct (search_sound _ _ _ _ E) as (here & -> & Hm).
  apply m_sound in Hm. subst here.
  rewrite !allChars_append in Hs.
  apply andb_true_iff in Hs. destruct Hs as [Hb Hs].
  apply andb_true_iff in Hs. destruct Hs as [_ Hrest].
  cbn [RegExp.GetSubstitution append].
  now rewrite allChars_append, Hb, Hrest.
Qed.

End ReplaceAll.

Lemma replaceAllFuel_none (m : string -> option RegExp.MatchResult)
      (fuel : nat) (replacement s : string) :
  RegExp.search m s = None ->
  RegExp.replaceAllFuel fuel m replacement s = s.
Proof. intros H. destruct fuel; cbn [RegExp.replaceAllFuel]; now rewrite ?H. Qed.

(** *** The patterns of the sanitizer match what they report *)

Lemma lineComment_sound (s : string) (r : RegExp.MatchResult) :
  RegExp.lineComment s = Some r ->
  s = RegExp.matched r ++ RegExp.rest r.
Proof.
  unfold RegExp.lineComment.
  destruct (RegExp.lit false "--" s) as [[dashes r1]|] eqn:El; [|discriminate].
  destruct (RegExp.span RegExp.notLineFeed r1) as [run r2] eqn:Es.
  intros [= <-]. cbn [RegExp.matched RegExp.rest].
  apply lit_sound in El. destruct El as [-> _].
  apply span_sound in Es. destruct Es as (-> & _).
  now rewrite append_assoc.
Qed.

Lemma lineComment_starts (s : string) (r : RegExp.MatchResult) :
  RegExp.lineComment s = Some r -> exists x, s = "--" ++ x.
Proof.
  unfold RegExp.lineComment.
  destruct (RegExp.lit false "--" s) as [[dashes r1]|] eqn:El; [|discriminate].
  intros _. apply lit_sound in El. destruct El as [-> ->]. now exists r1.
Qed.

Lemma blockComment_sound (s : string) (r : RegExp.MatchResult) :
  RegExp.blockComment s = Some r ->
  s = RegExp.matched r ++ RegExp.rest r.
Proof.
  unfold RegExp.blockComment.
  destruct (RegExp.lit false "/*" s) as [[o r1]|] eqn:El; [|discriminate].
  destruct (RegExp.search (RegExp.literal false "*/") r1)
    as [[body close]|] eqn:Ec; [|discriminate].
  intros [= <-]. cbn [RegExp.matched RegExp.rest].
  apply lit_sound in El. destruct El as [-> _].
  apply search_sound in Ec. destruct Ec as (here & -> & Hc).
  apply literal_sound in Hc. destruct Hc as [-> _].
  now rewrite !append_assoc.
Qed.

Lemma blockComment_starts (s : string) (r : RegExp.MatchResult) :
  RegExp.blockComment s = Some r -> exists x, s = "/*" ++ x.
Proof.
  unfold RegExp.blockComment.
  destruct (RegExp.lit false "/*" s) as [[o r1]|] eqn:El; [|discriminate].
  intros _. apply lit_sound in El. destruct El as [-> ->]. now exists r1.
Qed.

Lemma whiteSpaces_sound (s : string) (r : RegExp.MatchResult) :
  RegExp.whiteSpaces s = Some r ->
  s = RegExp.matched r ++ RegExp.rest r.
Proof.
  unfold RegExp.whiteSpaces.
  destruct (RegExp.span JS.isWhiteSpace s) as [run r1] eqn:Es.
  destruct (RegExp.nonEmpty run); [|discriminate].
  intros [= <-]. cbn [RegExp.matched RegExp.rest].
  now apply span_sound in Es.
Qed.

Lemma trailingSemicolons_sound (s : string) (r : RegExp.MatchResult) :
  RegExp.trailingSemicolons s = Some r ->
  s = RegExp.matched r ++ RegExp.rest r
  /\ RegExp.rest r = EmptyString
  /\ allChars RegExp.isSemicolon (RegExp.matched r) = true
  /\ RegExp.nonEmpty (RegExp.matched r) = true.
Proof.
  unfold RegExp.trailingSemicolons.
  destruct (RegExp.span RegExp.isSemicolon s) as [run r1] eqn:Es.
  destruct (RegExp.nonEmpty run) eqn:En; [|discriminate].
  destruct r1 as [|c r1]; [|discriminate].
  cbn [RegExp.nonEmpty negb andb]. intros [= <-].
  cbn [RegExp.matched RegExp.rest].
  apply span_sound in Es. destruct Es as (-> & Hrun & _).
  now rewrite append_nil_r.
Qed.

Lemma NUL_sound (s : string) (r : RegExp.MatchResult) :
  RegExp.literal false QuerySanitizer.NUL s = Some r ->
  s = RegExp.matched r ++ RegExp.rest r.
Proof. intros H. now apply literal_sound in H. Qed.

(** *** Classes of characters through the string primitives *)

Lemma allChars_trimStart (cls : ascii -> bool) (s : string) :
  allChars cls s = true -> allChars cls (JS.trimStart s) = true.
Proof.
  induction s as [|c s IH]; [reflexivity|].
  cbn [JS.trimStart]. destruct (JS.isWhiteSpace c); [|tauto].
  cbn [allChars]. rewrite andb_true_iff. intros [_ Hs]. auto.
Qed.

Lemma allChars_trimEnd (cls : ascii -> bool) (s : string) :
  allChars cls s = true -> allChars cls (JS.trimEnd s) = true.
Proof.
  induction s as [|c s IH]; [reflexivity|].
  cbn [allChars JS.trimEnd]. rewrite andb_true_iff. intros [Hc Hs].
  specialize (IH Hs). destruct (JS.trimEnd s) as [|d t].
  - destruct (JS.isWhiteSpace c); [reflexivity|].
    cbn [allChars]. now rewrite Hc.
  - change (allChars cls (String c (String d t)))
      with (cls c && allChars cls (String d t)).
    now rewrite Hc, IH.
Qed.

Lemma allChars_trim (cls : ascii -> bool) (s : string) :
  allChars cls s = true -> allChars cls (JS.trim s) = true.
Proof. intros H. now apply allChars_trimEnd, allChars_trimStart. Qed.

Lemma allChars_split (cls : ascii -> bool) (sep : ascii) (s : string) :
  allChars cls s = true ->
  Forall (fun piece => allChars cls piece = true) (JS.split sep s).
Proof.
  induction s as [|c s IH]; cbn [JS.split allChars].
  - intros _. now constructor.
  - rewrite andb_true_iff. intros [Hc Hs]. specialize (IH Hs).
    destruct (Ascii.eqb c sep).
    + now constructor.
    + destruct (JS.split sep s) as [|piece pieces].
      * constructor; [|constructor]. cbn [allChars]. now rewrite Hc.
      * inversion IH as [|? ? Hp Hps]; subst.
        constructor; [|exact Hps]. cbn [allChars]. now rewrite Hc, Hp.
Qed.

Lemma allChars_join (cls : ascii -> bool) (sep : string) (xs : list string) :
  allChars cls sep = true ->
  Forall (fun x => allChars cls x = true) xs ->
  allChars cls (JS.join sep xs) = true.
Proof.
  intros Hsep. induction xs as [|x xs IH]; intros H; [reflexivity|].
  inversion H as [|? ? Hx Hxs]; subst.
  destruct xs as [|y ys]; [exact Hx|].
  change (JS.join sep (x :: y :: ys))
    with (x ++ sep ++ JS.join sep (y :: ys)).
  now rewrite !allChars_append, Hx, Hsep, (IH Hxs).
Qed.

Lemma allChars_normalizeWhitespace (cls : ascii -> bool) (s : string) :
  cls " "%char = true ->
  allChars cls s = true ->
  allChars cls (QuerySanitizer.normalizeWhitespace s) = true.
Proof.
  intros Hblank Hs. unfold QuerySanitizer.normalizeWhitespace, RegExp.replaceAll.
  apply replaceAllFuel_allChars.
  - exact whiteSpaces_sound.
  - cbn [allChars]. now rewrite Hblank.
  - apply allChars_join; [cbn [allChars]; now rewrite Hblank|].
    apply Forall_forall. intros line Hin.
    apply filter_In in Hin. destruct Hin as [Hin _].
    apply in_map_iff in Hin. destruct Hin as (piece & <- & Hin).
    apply allChars_trim.
    pose proof (allChars_split cls (ascii_of_nat 10) s Hs) as Hall.
    rewrite Forall_forall in Hall. now apply Hall.
Qed.

(** *** Collapsing runs of white space *)

Lemma whiteSpaces_cons (c : ascii) (s : string) :
  RegExp.whiteSpaces (String c s)
  = if JS.isWhiteSpace c
    then Some (RegExp.mkMatch
                 (String c (fst (RegExp.span JS.isWhiteSpace s)))
                 EmptyString
                 (snd (RegExp.span JS.isWhiteSpace s)))
    else None.
Proof.
  unfold RegExp.whiteSpaces. cbn [RegExp.span].
  destruct (JS.isWhiteSpace c); [|reflexivity].
  now destruct (RegExp.span JS.isWhiteSpace s).
Qed.

Lemma search_whiteSpaces (s : string) :
  match RegExp.search RegExp.whiteSpaces s with
  | None => allChars notWhiteSpace s = true
  | Some (before, r) =>
      allChars notWhiteSpace before = true
      /\ s = before ++ RegExp.matched r ++ RegExp.rest r
      /\ RegExp.nonEmpty (RegExp.matched r) = true
      /\ allChars JS.isWhiteSpace (RegExp.matched r) = true
      /\ stopsAt JS.isWhiteSpace (RegExp.rest r)
  end.
Proof.
  induction s as [|c s IH]; [reflexivity|].
  cbn [RegExp.search]. rewrite whiteSpaces_cons.
  destruct (JS.isWhiteSpace c) eqn:Hc.
  - cbn [RegExp.matched RegExp.rest RegExp.nonEmpty allChars append].
    destruct (RegExp.span JS.isWhiteSpace s) as [run r1] eqn:Es.
    apply span_sound in Es. destruct Es as (-> & Hrun & Hstop).
    cbn [fst snd]. now rewrite Hc, Hrun.
  - destruct (RegExp.search RegExp.whiteSpaces s) as [[before r]|].
    + destruct IH as (Hb & -> & Hne & Hws & Hstop).
      cbn [allChars append]. unfold notWhiteSpace at 1. rewrite Hc.
      now repeat split.
    + cbn [allChars]. unfold notWhiteSpace at 1. now rewrite Hc.
Qed.

Lemma nonEmpty_length (s : string) :
  RegExp.nonEmpty s = true -> 1 <= String.length s.
Proof. destruct s; [discriminate | simpl; lia]. Qed.

Lemma blank_is_white : JS.isWhiteSpace " "%char = true.
Proof. reflexivity. Qed.

Lemma ink_singleSpaced (s : string) :
  allChars notWhiteSpace s = true -> singleSpaced s = true.
Proof.
  induction s as [|c s IH]; [reflexivity|].
  cbn [allChars singleSpaced]. unfold notWhiteSpace at 1.
  rewrite andb_true_iff, negb_true_iff. intros [-> Hs]. now rewrite IH.
Qed.

Lemma stopsAt_startsWhite (s : string) :
  stopsAt JS.isWhiteSpace s -> startsWhite s = false.
Proof. destruct s as [|c s]; [reflexivity | exact (fun H => H)]. Qed.

Lemma singleSpaced_glue (before t : string) :
  allChars notWhiteSpace before = true ->
  singleSpaced t = true ->
  startsWhite t = false ->
  singleSpaced (before ++ " " ++ t) = true.
Proof.
  intros Hb Ht Hstart. induction before as [|c before IH].
  - change (singleSpaced (String " " t) = true).
    cbn [singleSpaced]. rewrite blank_is_white, Hstart, Ht. reflexivity.
  - cbn [allChars] in Hb. apply andb_true_iff in Hb. destruct Hb as [Hc Hb].
    unfold notWhiteSpace in Hc. apply negb_true_iff in Hc.
    change (singleSpaced (String c (before ++ " " ++ t)) = true).
    cbn [singleSpaced]. rewrite Hc. now rewrite IH.
Qed.

Lemma collapse_startsWhite (fuel : nat) (s : string) :
  startsWhite s = false ->
  startsWhite (RegExp.replaceAllFuel fuel RegExp.whiteSpaces " " s) = false.
Proof.
  intros Hs. destruct fuel as [|fuel]; [exact Hs|].
  destruct s as [|c s]; [reflexivity|].
  cbn [startsWhite] in Hs.
  cbn [RegExp.replaceAllFuel RegExp.search]. rewrite whiteSpaces_cons, Hs.
  destruct (RegExp.search RegExp.whiteSpaces s) as [[before r]|];
    cbn [append startsWhite]; exact Hs.
Qed.

Lemma collapse_startsInk (fuel : nat) (s : string) :
  startsInk s = true ->
  startsInk (RegExp.replaceAllFuel fuel RegExp.whiteSpaces " " s) = true.
Proof.
  intros Hs. destruct fuel as [|fuel]; [exact Hs|].
  destruct s as [|c s]; [discriminate|].
  cbn [startsInk] in Hs. apply negb_true_iff in Hs.
  cbn [RegExp.replaceAllFuel RegExp.search]. rewrite whiteSpaces_cons, Hs.
  destruct (RegExp.search RegExp.whiteSpaces s) as [[before r]|];
    cbn [append startsInk]; now rewrite Hs.
Qed.

Lemma endsInk_append (a b : string) :
  b <> EmptyString -> endsInk (a ++ b) = endsInk b.
Proof.
  intros Hb. induction a as [|c a IH]; [reflexivity|].
  cbn [append endsInk]. destruct (a ++ b) as [|d t] eqn:E; [|exact IH].
  destruct a; [now destruct b | discriminate].
Qed.

Lemma white_not_endsInk (s : string) :
  allChars JS.isWhiteSpace s = true -> endsInk s = false.
Proof.
  induction s as [|c s IH]; [reflexivity|].
  cbn [allChars endsInk]. rewrite andb_true_iff. intros [Hc Hs].
  destruct s; [now rewrite Hc | auto].
Qed.

Lemma endsInk_nonEmpty (s : string) : endsInk s = true -> s <> EmptyString.
Proof. now destruct s. Qed.

(** With enough rounds for the length of the input, what is left has
    single blanks only, and keeps a last character that is not white
    space. *)
Lemma collapse_shape (fuel : nat) (s : string) :
  String.length s <= fuel ->
  singleSpaced (RegExp.replaceAllFuel fuel RegExp.whiteSpaces " " s) = true
  /\ (endsInk s = true ->
      endsInk (RegExp.replaceAllFuel fuel RegExp.whiteSpaces " " s) = true).
Proof.
  revert s. induction fuel as [|fuel IH]; intros s Hlen.
  - destruct s; [|simpl in Hlen; lia]. now split.
  - cbn [RegExp.replaceAllFuel].
    pose proof (search_whiteSpaces s) as Hs.
    destruct (RegExp.search RegExp.whiteSpaces s) as [[before r]|].
    + destruct Hs as (Hb & -> & Hne & Hws & Hstop).
      assert (String.length (RegExp.rest r) <= fuel) as Hrest.
      { apply nonEmpty_length in Hne. rewrite !length_append in Hlen. lia. }
      destruct (IH _ Hrest) as [Hsingle Hend].
      split.
      * apply singleSpaced_glue; [exact Hb | exact Hsingle|].
        now apply collapse_startsWhite, stopsAt_startsWhite.
      * intros He.
        assert (endsInk (RegExp.rest r) = true) as Hr.
        { destruct (RegExp.rest r) as [|d t] eqn:Er.
          - rewrite append_nil_r, endsInk_append, (white_not_endsInk _ Hws)
              in He; [discriminate|].
            now destruct (RegExp.matched r).
          - rewrite <- append_assoc, endsInk_append in He;
              [exact He | discriminate]. }
        specialize (Hend Hr).
        rewrite <- append_assoc, endsInk_append; [exact Hend|].
        now apply endsInk_nonEmpty.
    + split; [now apply ink_singleSpaced | tauto].
Qed.

(** *** Trimmed lines and their join *)

Lemma trimStart_shape (s : string) :
  JS.trimStart s = EmptyString \/ startsInk (JS.trimStart s) = true.
Proof.
  induction s as [|c s IH]; [now left|].
  cbn [JS.trimStart]. destruct (JS.isWhiteSpace c) eqn:Hc; [exact IH|].
  right. cbn [startsInk]. now rewrite Hc.
Qed.

Lemma trimEnd_shape (s : string) :
  JS.trimEnd s = EmptyString \/ endsInk (JS.trimEnd s) = true.
Proof.
  induction s as [|c s IH]; [now left|].
  cbn [JS.trimEnd]. destruct (JS.trimEnd s) as [|d t].
  - destruct (JS.isWhiteSpace c) eqn:Hc; [now left|].
    right. cbn [endsInk]. now rewrite Hc.
  - right. destruct IH as [IH|IH]; [discriminate|]. exact IH.
Qed.

Lemma trimEnd_startsInk (s : string) :
  startsInk s = true -> startsInk (JS.trimEnd s) = true.
Proof.
  destruct s as [|c s]; [discriminate|].
  cbn [startsInk JS.trimEnd]. intros Hc.
  destruct (JS.trimEnd s); [|exact Hc].
  apply negb_true_iff in Hc. rewrite Hc. cbn [startsInk]. now rewrite Hc.
Qed.

Lemma trim_shape (s : string) :
  JS.trim s = EmptyString
  \/ startsInk (JS.trim s) = true /\ endsInk (JS.trim s) = true.
Proof.
  unfold JS.trim. destruct (trimStart_shape s) as [->|Hstart]; [now left|].
  right. split; [now apply trimEnd_startsInk|].
  destruct (trimEnd_shape (JS.trimStart s)) as [He|He]; [|exact He].
  apply trimEnd_startsInk in Hstart. rewrite He in Hstart. discriminate.
Qed.

Lemma trimEnd_endsInk (s : string) :
  endsInk s = true -> JS.trimEnd s = s.
Proof.
  induction s as [|c s IH]; [reflexivity|].
  cbn [endsInk JS.trimEnd]. destruct s as [|d t].
  - cbn [JS.trimEnd]. intros Hc. apply negb_true_iff in Hc. now rewrite Hc.
  - intros He. now rewrite (IH He).
Qed.

Lemma framed_trim (s : string) :
  startsInk s = true -> endsInk s = true -> JS.trim s = s.
Proof.
  intros Hs He. unfold JS.trim. destruct s as [|c s]; [discriminate|].
  cbn [startsInk] in Hs. apply negb_true_iff in Hs.
  rewrite (trimStart_fixed c s Hs). now apply trimEnd_endsInk.
Qed.

Lemma startsInk_append (a b : string) :
  startsInk a = true -> startsInk (a ++ b) = true.
Proof. destruct a; [discriminate | exact (fun H => H)]. Qed.

Lemma join_framed (xs : list string) :
  Forall (fun x => startsInk x = true /\ endsInk x = true) xs ->
  xs <> [] ->
  startsInk (JS.join " " xs) = true /\ endsInk (JS.join " " xs) = true.
Proof.
  induction xs as [|x xs IH]; intros H Hne; [congruence|].
  inversion H as [|? ? [Hs He] Hxs]; subst.
  destruct xs as [|y ys]; [now split|].
  change (JS.join " " (x :: y :: ys))
    with (x ++ " " ++ JS.join " " (y :: ys)).
  destruct (IH Hxs ltac:(discriminate)) as [_ He'].
  split; [now apply startsInk_append|].
  rewrite <- append_assoc, endsInk_append; [exact He'|].
  now apply endsInk_nonEmpty.
Qed.

(** The lines that [normalizeWhitespace] joins. *)
Lemma kept_lines_framed (s : string) :
  Forall (fun x => startsInk x = true /\ endsInk x = true)
         (filter (fun line => (0 <? String.length line)%nat)
                 (map JS.trim (JS.split (ascii_of_nat 10) s))).
Proof.
  apply Forall_forall. intros line Hin. apply filter_In in Hin.
  destruct Hin as [Hin Hlen]. apply in_map_iff in Hin.
  destruct Hin as (piece & <- & _).
  destruct (trim_shape piece) as [E|H]; [|exact H].
  rewrite E in Hlen. discriminate.
Qed.

(** What [normalizeWhitespace] returns, for every input. *)
Lemma normalizeWhitespace_shape (s : string) :
  singleSpaced (QuerySanitizer.normalizeWhitespace s) = true
  /\ JS.trim (QuerySanitizer.normalizeWhitespace s)
     = QuerySanitizer.normalizeWhitespace s.
Proof.
  unfold QuerySanitizer.normalizeWhitespace, RegExp.replaceAll.
  pose proof (kept_lines_framed s) as Hlines.
  set (kept := filter (fun line => (0 <? String.length line)%nat)
                      (map JS.trim (JS.split (ascii_of_nat 10) s))) in *.
  destruct (collapse_shape (String.length (JS.join " " kept))
                           (JS.join " " kept) (le_n _)) as [Hsingle Hend].
  split; [exact Hsingle|].
  destruct kept as [|x xs] eqn:Ek; [reflexivity|].
  destruct (join_framed (x :: xs) Hlines ltac:(discriminate)) as [Hs He].
  apply framed_trim; [now apply collapse_startsInk | now apply Hend].
Qed.

(** *** Removing the NUL characters *)

Lemma NUL_not_notNUL : allChars notNUL QuerySanitizer.NUL = false.
Proof. reflexivity. Qed.

Lemma search_NUL (s : string) :
  match RegExp.search (RegExp.literal false QuerySanitizer.NUL) s with
  | None => allChars notNUL s = true
  | Some (before, r) =>
      allChars notNUL before = true
      /\ s = before ++ QuerySanitizer.NUL ++ RegExp.rest r
  end.
Proof.
  induction s as [|c s IH]; [reflexivity|].
  cbn [RegExp.search].
  destruct (RegExp.literal false QuerySanitizer.NUL (String c s))
    as [r|] eqn:E.
  - apply literal_sound in E. destruct E as [E Hm].
    rewrite Hm in E. now split.
  - assert (notNUL c = true) as Hc.
    { destruct (notNUL c) eqn:Hc; [reflexivity | exfalso].
      apply (literal_none _ _ E s).
      unfold notNUL in Hc. apply negb_false_iff, N.eqb_eq in Hc.
      unfold JS.code in Hc.
      assert (c = ascii_of_N 0) as -> by
          (rewrite <- Hc; symmetry; apply ascii_N_embedding).
      reflexivity. }
    destruct (RegExp.search (RegExp.literal false QuerySanitizer.NUL) s)
      as [[before r]|].
    + destruct IH as [Hb ->]. cbn [allChars append]. now rewrite Hc, Hb.
    + cbn [allChars]. now rewrite Hc, IH.
Qed.

Lemma removeNUL_clean (fuel : nat) (s : string) :
  String.length s <= fuel ->
  allChars notNUL
    (RegExp.replaceAllFuel fuel (RegExp.literal false QuerySanitizer.NUL)
                           EmptyString s) = true.
Proof.
  revert s. induction fuel as [|fuel IH]; intros s Hlen.
  - destruct s; [reflexivity | simpl in Hlen; lia].
  - cbn [RegExp.replaceAllFuel].
    pose proof (search_NUL s) as Hs.
    destruct (RegExp.search (RegExp.literal false QuerySanitizer.NUL) s)
      as [[before r]|]; [|exact Hs].
    destruct Hs as [Hb ->].
    cbn [append]. rewrite allChars_append, Hb. cbn [andb].
    apply IH. rewrite length_append in Hlen. simpl in Hlen. lia.
Qed.

Lemma removeNUL_fixed (s : string) :
  allChars notNUL s = true ->
  RegExp.replaceAll (RegExp.literal false QuerySanitizer.NUL) EmptyString s
  = s.
Proof.
  intros Hs. apply replaceAllFuel_none.
  pose proof (search_NUL s) as H.
  destruct (RegExp.search (RegExp.literal false QuerySanitizer.NUL) s)
    as [[before r]|]; [exfalso | reflexivity].
  destruct H as [Hb E]. rewrite E, !allChars_append, NUL_not_notNUL in Hs.
  rewrite andb_false_r in Hs. discriminate.
Qed.

Lemma singleSpaced_blankOrInk (s : string) :
  singleSpaced s = true -> allChars blankOrInk s = true.
Proof.
  induction s as [|c s IH]; [reflexivity|].
  cbn [singleSpaced allChars]. rewrite andb_true_iff. intros [Hc Hs].
  rewrite (IH Hs), andb_true_r. unfold blankOrInk.
  destruct (JS.isWhiteSpace c); [|reflexivity].
  apply andb_true_iff in Hc. now rewrite (proj1 Hc).
Qed.

(** What reaches the last stage of [sanitize] keeps every class of
    characters of the input that the blank is in. *)
Lemma sanitize_stages_allChars (cls : ascii -> bool) (query : string) :
  cls " "%char = true ->
  allChars cls query = true ->
  allChars cls
    (QuerySanitizer.normalizeWhitespace
       (RegExp.replace RegExp.trailingSemicolons EmptyString
          (QuerySanitizer.removeComments (JS.trim query)))) = true.
Proof.
  intros Hblank Hq.
  apply allChars_normalizeWhitespace; [exact Hblank|].
  apply replace_empty_allChars;
    [intros s r H; now apply trailingSemicolons_sound in H|].
  unfold QuerySanitizer.removeComments, RegExp.replaceAll.
  apply replaceAllFuel_allChars;
    [exact blockComment_sound | reflexivity|].
  apply replaceAllFuel_allChars;
    [exact lineComment_sound | reflexivity|].
  now apply allChars_trim.
Qed.

(** X25.  The result of [sanitize] never contains a NUL character. *)
Theorem sanitize_removes_nul (query : string) :
  allChars notNUL (QuerySanitizer.sanitize query) = true.
Proof.
  unfold QuerySanitizer.sanitize, RegExp.replaceAll.
  apply removeNUL_clean. apply le_n.
Qed.

(** X26.  In the result of [sanitize] the only white space is the blank:
    tabs, line feeds, carriage returns and the like are gone. *)
Theorem sanitize_blanks_only (query : string) :
  allChars blankOrInk (QuerySanitizer.sanitize query) = true.
Proof.
  unfold QuerySanitizer.sanitize, RegExp.replaceAll.
  apply replaceAllFuel_allChars; [exact NUL_sound | reflexivity|].
  apply singleSpaced_blankOrInk.
  apply normalizeWhitespace_shape.
Qed.

(** X27.  On a query without NUL characters the result of [sanitize] has
    no two blanks in a row and neither starts nor ends with white space.
    (A NUL between two blanks is removed after the white space was
    normalized, which leaves the two blanks side by side.) *)
Theorem sanitize_single_spaced (query : string) :
  allChars notNUL query = true ->
  singleSpaced (QuerySanitizer.sanitize query) = true
  /\ JS.trim (QuerySanitizer.sanitize query) = QuerySanitizer.sanitize query.
Proof.
  intros Hq. unfold QuerySanitizer.sanitize.
  rewrite removeNUL_fixed
    by (apply sanitize_stages_allChars; [reflexivity | exact Hq]).
  apply normalizeWhitespace_shape.
Qed.

Lemma sanitize_single_spaced_witness :
  singleSpaced
    (QuerySanitizer.sanitize
       ("  SELECT *" ++ QuerySanitizer.LF ++ "   FROM   users ; "))
  = true
  /\ JS.trim
       (QuerySanitizer.sanitize
          ("  SELECT *" ++ QuerySanitizer.LF ++ "   FROM   users ; "))
     = QuerySanitizer.sanitize
         ("  SELECT *" ++ QuerySanitizer.LF ++ "   FROM   users ; ").
Proof.
  apply (sanitize_single_spaced
           ("  SELECT *" ++ QuerySanitizer.LF ++ "   FROM   users ; ")).
  reflexivity.
Defined.

(** *** Queries that [sanitize] has nothing to do on *)

Lemma no_lineComment (s : string) :
  JS.includes s "--" = false -> RegExp.search RegExp.lineComment s = None.
Proof.
  intros H. destruct (RegExp.search RegExp.lineComment s) as [[before r]|] eqn:E;
    [exfalso | reflexivity].
  destruct (search_sound _ _ _ _ E) as (here & -> & Hm).
  apply lineComment_starts in Hm. destruct Hm as [x ->].
  now rewrite includes_append in H.
Qed.

Lemma no_blockComment (s : string) :
  JS.includes s "/*" = false -> RegExp.search RegExp.blockComment s = None.
Proof.
  intros H.
  destruct (RegExp.search RegExp.blockComment s) as [[before r]|] eqn:E;
    [exfalso | reflexivity].
  destruct (search_sound _ _ _ _ E) as (here & -> & Hm).
  apply blockComment_starts in Hm. destruct Hm as [x ->].
  now rewrite includes_append in H.
Qed.

Lemma endsWith_append (a b p : string) :
  JS.endsWith b p = true -> JS.endsWith (a ++ b) p = true.
Proof.
  intros H. induction a as [|c a IH]; [exact H|].
  cbn [append JS.endsWith]. rewrite IH. apply orb_true_r.
Qed.

Lemma semicolons_end (run : string) :
  allChars RegExp.isSemicolon run = true ->
  RegExp.nonEmpty run = true ->
  JS.endsWith run ";" = true.
Proof.
  induction run as [|c run IH]; [discriminate|].
  cbn [allChars]. rewrite andb_true_iff. intros [Hc Hrun] _.
  unfold RegExp.isSemicolon in Hc. apply Ascii.eqb_eq in Hc. subst c.
  destruct run as [|d run]; [reflexivity|].
  exact (endsWith_append ";" (String d run) ";" (IH Hrun eq_refl)).
Qed.

Lemma no_trailingSemicolons (s : string) :
  JS.endsWith s ";" = false ->
  RegExp.search RegExp.trailingSemicolons s = None.
Proof.
  intros H.
  destruct (RegExp.search RegExp.trailingSemicolons s) as [[before r]|] eqn:E;
    [exfalso | reflexivity].
  destruct (search_sound _ _ _ _ E) as (here & -> & Hm).
  apply trailingSemicolons_sound in Hm.
  destruct Hm as (-> & Hrest & Hsemi & Hne).
  rewrite Hrest, append_nil_r in H.
  rewrite (endsWith_append _ _ _ (semicolons_end _ Hsemi Hne)) in H.
  discriminate.
Qed.

Lemma split_whole (sep : ascii) (s : string) :
  allChars (fun c => negb (Ascii.eqb c sep)) s = true ->
  JS.split sep s = [s].
Proof.
  induction s as [|c s IH]; [reflexivity|].
  cbn [allChars JS.split]. rewrite andb_true_iff, negb_true_iff.
  intros [-> Hs]. now rewrite (IH Hs).
Qed.

Lemma blankOrInk_not_lineFeed (c : ascii) :
  blankOrInk c = true -> negb (Ascii.eqb c (ascii_of_nat 10)) = true.
Proof. by_cases_on_char c. Qed.

(** In a single-spaced text every run of white space is one blank. *)
Lemma singleSpaced_run (before run after : string) :
  allChars notWhiteSpace before = true ->
  allChars JS.isWhiteSpace run = true ->
  RegExp.nonEmpty run = true ->
  singleSpaced (before ++ run ++ after) = true ->
  run = " " /\ singleSpaced after = true.
Proof.
  intros Hb Hrun Hne. induction before as [|c before IH].
  - destruct run as [|c run]; [discriminate|].
    cbn [allChars] in Hrun. apply andb_true_iff in Hrun.
    destruct Hrun as [Hc Hrun].
    cbn [append singleSpaced]. rewrite Hc, !andb_true_iff.
    intros [[Hblank Hnext] Hs]. apply Ascii.eqb_eq in Hblank. subst c.
    destruct run as [|d run]; [now split|].
    cbn [allChars] in Hrun. apply andb_true_iff in Hrun.
    cbn [append startsWhite] in Hnext. rewrite (proj1 Hrun) in Hnext.
    discriminate.
  - cbn [allChars] in Hb. apply andb_true_iff in Hb. destruct Hb as [_ Hb].
    cbn [append singleSpaced]. rewrite andb_true_iff. intros [_ Hs]. auto.
Qed.

Lemma collapse_fixed (fuel : nat) (s : string) :
  singleSpaced s = true ->
  RegExp.replaceAllFuel fuel RegExp.whiteSpaces " " s = s.
Proof.
  revert s. induction fuel as [|fuel IH]; intros s Hs; [reflexivity|].
  cbn [RegExp.replaceAllFuel].
  pose proof (search_whiteSpaces s) as H.
  destruct (RegExp.search RegExp.whiteSpaces s) as [[before r]|];
    [|reflexivity].
  destruct H as (Hb & E & Hne & Hws & _).
  rewrite E in Hs.
  destruct (singleSpaced_run _ _ _ Hb Hws Hne Hs) as [Hrun Hrest].
  rewrite (IH _ Hrest), E, Hrun. reflexivity.
Qed.

Lemma normalizeWhitespace_fixed (s : string) :
  singleSpaced s = true -> JS.trim s = s ->
  QuerySanitizer.normalizeWhitespace s = s.
Proof.
  intros Hs Ht. unfold QuerySanitizer.normalizeWhitespace, RegExp.replaceAll.
  rewrite split_whole
    by (apply (allChars_weaken blankOrInk);
        [exact blankOrInk_not_lineFeed | now apply singleSpaced_blankOrInk]).
  cbn [map]. rewrite Ht. cbn [filter].
  destruct s as [|c s]; [reflexivity|].
  cbn [String.length Nat.ltb Nat.leb JS.join].
  now apply collapse_fixed.
Qed.

(** X28.  [sanitize] leaves a clean query as it is: one that is
    single-spaced and trimmed, has no NUL character, no comment opener
    and no semicolon at its end. *)
Theorem sanitize_clean_unchanged (query : string) :
  allChars notNUL query = true ->
  singleSpaced query = true ->
  JS.trim query = query ->
  JS.includes query "--" = false ->
  JS.includes query "/*" = false ->
  JS.endsWith query ";" = false ->
  QuerySanitizer.sanitize query = query.
Proof.
  intros Hnul Hsingle Htrim Hline Hblock Hsemi.
  unfold QuerySanitizer.sanitize, QuerySanitizer.removeComments,
    RegExp.replaceAll.
  rewrite Htrim.
  rewrite (replaceAllFuel_none RegExp.lineComment _ _ query)
    by now apply no_lineComment.
  rewrite (replaceAllFuel_none RegExp.blockComment _ _ query)
    by now apply no_blockComment.
  unfold RegExp.replace. rewrite (no_trailingSemicolons _ Hsemi).
  rewrite (normalizeWhitespace_fixed _ Hsingle Htrim).
  now apply removeNUL_fixed.
Qed.

Lemma sanitize_clean_unchanged_witness :
  QuerySanitizer.sanitize "SELECT id, name FROM users WHERE id = 1"
  = "SELECT id, name FROM users WHERE id = 1".
Proof.
  apply sanitize_clean_unchanged; reflexivity.
Defined.

(** ** How a generation fails *)




